(** * XSpectra work chains of aiida-quantumespresso: model and verification

    Shallow embedding of
    - [workflows/xspectra/base.py]   (XspectraBaseWorkChain, get_powder_spectrum,
      get_all_spectra),
    - [workflows/xspectra/crystal.py] (XspectraCrystalWorkChain: polarisation
      vector selection, inspect_upf2plotcore, xiabs, structure keys,
      run_upf2plotcore),
    - [workflows/functions/get_core_hole_inputs.py] (get_core_hole_inputs,
      _process_afm_system), and
    - [calculations/xspectra.py] (the k-point line of the input file).

    Conventions of the embedding:
    - Python [float]s are represented by exact rationals ([Qc]); rounding is
      not modelled.
    - Python [str] is represented by [string]; only ASCII text is covered.
    - Python [dict]s used as maps are [gmap]s; keyword-argument dictionaries,
      whose iteration order is observable, are association lists.
    - A Python exception is the [Raise] result of the error monad [Res].
    - The provenance graph is a DAG, hence an inductive type: a remote folder
      knows the calculation that created it. *)

From Stdlib Require Import Ascii String QArith Qcanon.
From Stdlib Require Import DecimalString DecimalN DecimalZ.
From stdpp Require Import base option list gmap strings sorting.

Local Open Scope string_scope.
Local Open Scope Z_scope.

(** ** Python strings *)

Module PyStr.

(** [s.split(sep)] for a one-character separator: every occurrence splits,
    empty pieces are kept, the result is never empty. *)
Fixpoint split (sep : ascii) (s : string) : list string :=
  match s with
  | EmptyString => [EmptyString]
  | String c s' =>
      if Ascii.eqb c sep then EmptyString :: split sep s'
      else match split sep s' with
           | [] => [String c EmptyString]
           | h :: t => String c h :: t
           end
  end.

(** [sep.join(pieces)] *)
Fixpoint join (sep : string) (pieces : list string) : string :=
  match pieces with
  | [] => ""
  | [p] => p
  | p :: ps => p ++ sep ++ join sep ps
  end.

(** [s[:n]] *)
Fixpoint take (n : nat) (s : string) : string :=
  match n, s with
  | S k, String c s' => String c (take k s')
  | _, _ => EmptyString
  end.

Fixpoint is_prefix (p s : string) : bool :=
  match p, s with
  | EmptyString, _ => true
  | String a p', String b s' => Ascii.eqb a b && is_prefix p' s'
  | String _ _, EmptyString => false
  end.

(** [s.replace(old, new)] for a non-empty [old]: leftmost, non-overlapping
    occurrences.  [skip] counts the characters of a match still to drop. *)
Fixpoint replace_from (old new : string) (skip : nat) (s : string) : string :=
  match s with
  | EmptyString => EmptyString
  | String c s' =>
      match skip with
      | S k => replace_from old new k s'
      | O =>
          if is_prefix old s
          then new ++ replace_from old new (Nat.pred (String.length old)) s'
          else String c (replace_from old new O s')
      end
  end.

Definition replace (old new s : string) : string := replace_from old new O s.

(** The white space that [int] skips before and after the literal: the
    characters 9 to 13 and the space, and no other (the separators 28 to 31,
    which [str.split] and [str.strip] count as white space, make [int]
    raise). *)
Definition is_space (c : ascii) : bool :=
  let n := nat_of_ascii c in
  ((9 <=? n)%nat && (n <=? 13)%nat) || (n =? 32)%nat.

Definition is_digit (c : ascii) : bool :=
  let n := nat_of_ascii c in (48 <=? n)%nat && (n <=? 57)%nat.

(** What [int] keeps of its argument: the text without the white space at
    its two ends. *)
Fixpoint skip_left (s : string) : string :=
  match s with
  | EmptyString => EmptyString
  | String c s' => if is_space c then skip_left s' else s
  end.

Fixpoint skip_right (s : string) : string :=
  match s with
  | EmptyString => EmptyString
  | String c s' =>
      match skip_right s' with
      | EmptyString => if is_space c then EmptyString else String c EmptyString
      | r => String c r
      end
  end.

Definition trim (s : string) : string := skip_right (skip_left s).

(** The digits of an integer literal: decimal digits, single underscores
    allowed between two digits.  [after_us] is true at the start and right
    after an underscore, where a digit must follow. *)
Fixpoint int_digits (after_us : bool) (s : string) : option string :=
  match s with
  | EmptyString => if after_us then None else Some EmptyString
  | String c s' =>
      if is_digit c then String c <$> int_digits false s'
      else if Ascii.eqb c "_" then
             (if after_us then None else int_digits true s')
      else None
  end.

Definition int_unsigned (s : string) : option Z :=
  ds ← int_digits true s;
  d ← NilEmpty.uint_of_string ds;
  Some (Z.of_uint d).

(** [int(s)]: surrounding white space, an optional sign, digits.
    [None] is Python's [ValueError]. *)
Definition int (s : string) : option Z :=
  match trim s with
  | String "-" r => Z.opp <$> int_unsigned r
  | String "+" r => int_unsigned r
  | t => int_unsigned t
  end.

(** [str(n)] for an [int] *)
Definition of_int (z : Z) : string := NilZero.string_of_int (Z.to_int z).

(** [sorted(names)]: Python compares strings by code point. *)
Definition sorted (l : list string) : list string :=
  merge_sort (λ a b : string, Is_true (String.leb a b)) l.

End PyStr.

(** ** Exceptions *)

Inductive Exn : Type :=
  | KeyError | IndexError | ValueError | UnboundLocalError | AttributeError
  | NotExistent.

Inductive Res (A : Type) : Type :=
  | Ok (a : A)
  | Raise (e : Exn).
Arguments Ok {A} a.
Arguments Raise {A} e.

#[global] Instance Res_ret : MRet Res := λ A a, Ok a.
#[global] Instance Res_bind : MBind Res :=
  λ A B f m, match m with Ok a => f a | Raise e => Raise e end.
#[global] Instance Res_fmap : FMap Res :=
  λ A B f m, match m with Ok a => Ok (f a) | Raise e => Raise e end.

(** An optional value that must be present, else the given exception. *)
Definition expect {A} (e : Exn) (o : option A) : Res A :=
  match o with Some a => Ok a | None => Raise e end.

(** ** Data nodes *)

(** Integers as floats. *)
Definition Qc_of_Z (z : Z) : Qc := Q2Qc (inject_Z z).

(** A polarisation vector: three components. *)
Definition vec3 : Type := Qc * Qc * Qc.

Definition vec3_eqb (u v : vec3) : bool :=
  let '(u1, u2, u3) := u in
  let '(v1, v2, v3) := v in
  Qc_eq_bool u1 v1 && Qc_eq_bool u2 v2 && Qc_eq_bool u3 v3.

(** Values stored in a parameters dictionary. *)
Inductive value : Type :=
  | VFloat (q : Qc)
  | VInt (z : Z)
  | VStr (s : string).

(** The name of a y-array.  [YSigma v] stands for the formatted name
    [f'sigma_{v[0]}_{v[1]}_{v[2]}']. *)
Inductive yname : Type :=
  | YStr (s : string)
  | YSigma (v : vec3).

(** [np.shape(y_array) == np.shape(x_array)] for every y array, the test
    of [XyData.set_y]; arrays are one-dimensional. *)
Definition same_shape (x_array : list Qc) (y_arrays : list (yname * list Qc * string))
    : bool :=
  forallb (λ y, (length y.1.2 =? length x_array)%nat) y_arrays.

(** The arrays of an [XyData] node on which [set_x] was called: [get_x()]
    is [(name, array, units)].  [y_arrays] is what [set_y] stored, [None]
    when it was never called; [set_y] stores arrays of the shape of the x
    array only, which [xy_shape] records. *)
Record XyArrays : Type := mkXy {
  get_x : string * list Qc * string;
  y_arrays : option (list (yname * list Qc * string));
  xy_shape : Is_true (from_option (same_shape get_x.1.2) true y_arrays);
}.

(** [get_y()]: a list of [(name, array, units)]; it raises NotExistent on
    a node without y arrays. *)
Definition get_y (a : XyArrays) : Res (list (yname * list Qc * string)) :=
  expect NotExistent (y_arrays a).

(** A new node after [set_x(x)] and [set_y(ys)]: [set_y] raises ValueError
    unless every y array has the shape of the x array. *)
Definition new_xy (x : string * list Qc * string) (ys : list (yname * list Qc * string))
    : Res XyArrays :=
  match decide (Is_true (same_shape x.1.2 ys)) with
  | left H => Ok (mkXy x (Some ys) H)
  | right _ => Raise ValueError
  end.

Definition KpointsData : Type := list Z.
Definition SinglefileData : Type := string.

(** What the parser of a finished [XspectraCalculation] recorded. *)
Record XsOutcome : Type := mkXsOutcome {
  o_exit_status : option Z;
  o_epsilon_vector : vec3;
  o_spectra : XyArrays;
}.

(** Provenance: the remote folder of a calculation is created by it, and a
    calculation takes a remote folder as its parent. *)
Inductive RemoteData : Type :=
  | ScfRemote (path : string)
  | CalcRemote (creator : CalcJobNode)
with CalcJobNode : Type :=
  | CalcJob (inputs : XsInputs) (outcome : XsOutcome)
with XsInputs : Type :=
  | mkXsInputs (label call_link_label : string)
               (parameters : gmap string (gmap string value))
               (parent_folder : RemoteData)
               (kpoints : KpointsData)
               (core_wfc_data : SinglefileData).

Definition i_label (i : XsInputs) : string :=
  match i with mkXsInputs l _ _ _ _ _ => l end.
Definition i_call_link_label (i : XsInputs) : string :=
  match i with mkXsInputs _ l _ _ _ _ => l end.
Definition i_parameters (i : XsInputs) : gmap string (gmap string value) :=
  match i with mkXsInputs _ _ p _ _ _ => p end.
Definition i_parent_folder (i : XsInputs) : RemoteData :=
  match i with mkXsInputs _ _ _ f _ _ => f end.
Definition i_kpoints (i : XsInputs) : KpointsData :=
  match i with mkXsInputs _ _ _ _ k _ => k end.
Definition i_core_wfc_data (i : XsInputs) : SinglefileData :=
  match i with mkXsInputs _ _ _ _ _ c => c end.

Definition calc_inputs (c : CalcJobNode) : XsInputs :=
  match c with CalcJob i _ => i end.
Definition calc_outcome (c : CalcJobNode) : XsOutcome :=
  match c with CalcJob _ o => o end.

(** [calculation.label] *)
Definition calc_label (c : CalcJobNode) : string := i_label (calc_inputs c).
(** [calculation.exit_status] *)
Definition exit_status (c : CalcJobNode) : option Z := o_exit_status (calc_outcome c).
(** [calculation.is_finished_ok]: finished with exit status zero *)
Definition is_finished_ok (c : CalcJobNode) : bool :=
  match exit_status c with Some 0 => true | _ => false end.
(** [calculation.outputs.remote_folder] *)
Definition remote_folder (c : CalcJobNode) : RemoteData := CalcRemote c.
(** [calculation.res['epsilon_vector']] *)
Definition res_epsilon_vector (c : CalcJobNode) : vec3 := o_epsilon_vector (calc_outcome c).

(** An [XyData] node as seen by the work chain: its arrays and, for the
    [spectra] output of a calculation, its creator. *)
Record XyData : Type := mkXyData {
  xy_arrays : XyArrays;
  xy_creator : option CalcJobNode;
}.

(** [calculation.outputs.spectra] *)
Definition outputs_spectra (c : CalcJobNode) : XyData :=
  {| xy_arrays := o_spectra (calc_outcome c); xy_creator := Some c |}.

(** [calculation.outputs.parent_folder]: an [XspectraCalculation] declares
    the outputs [output_parameters], [spectra], [remote_folder] and
    [retrieved]; [parent_folder] is an input, so this attribute access
    raises. *)
Definition outputs_parent_folder (c : CalcJobNode) : Res RemoteData := Raise AttributeError.

(** [remote.creator] *)
Definition creator (r : RemoteData) : option CalcJobNode :=
  match r with ScfRemote _ => None | CalcRemote c => Some c end.

(** ** numpy arithmetic on one-dimensional arrays *)

Module Np.
(** [a * k] and [a / k] for a scalar [k] *)
Definition mul_scalar (a : list Qc) (k : Qc) : list Qc := map (λ x, x * k)%Qc a.
Definition div_scalar (a : list Qc) (k : Qc) : list Qc := map (λ x, x / k)%Qc a.

(** [a + b] with broadcasting: equal shapes add elementwise, a
    one-element array is stretched, other shapes raise. *)
Definition add (a b : list Qc) : Res (list Qc) :=
  if (length a =? length b)%nat then Ok (zip_with Qcplus a b)
  else match a, b with
       | [x], _ => Ok (map (λ y, x + y)%Qc b)
       | _, [y] => Ok (map (λ x, x + y)%Qc a)
       | _, _ => Raise ValueError
       end.
End Np.

(** ** Calculation functions of base.py *)

(** Lookup in a keyword dictionary. *)
Fixpoint kw_lookup {A} (k : string) (kw : list (string * A)) : option A :=
  match kw with
  | [] => None
  | (k', a) :: kw' => if String.eqb k k' then Some a else kw_lookup k kw'
  end.

(** The entries of [kwargs] other than ['metadata']. *)
Definition drop_metadata {A} (kwargs : list (string * A)) : list (string * A) :=
  filter (λ kv, negb (String.eqb kv.1 "metadata") = true) kwargs.

(** [spectrum_node.get_y()[0]] *)
Definition first_y (s : XyData) : Res (yname * list Qc * string) :=
  ys ← get_y (xy_arrays s);
  expect IndexError (head ys).

(** A fresh [XyData] with [set_x(x, 'energy', 'eV')] and
    [set_y(y, 'sigma', 'n/a')]. *)
Definition powder_data (powder_x powder_y : list Qc) : Res XyArrays :=
  new_xy ("energy", powder_x, "eV") [(YStr "sigma", powder_y, "n/a")].

Definition powder_isochoric (spectra : list (string * XyData)) : Res XyArrays :=
  let vectors := spectra.*1 in
  label ← expect IndexError (head vectors);
  powder_spectrum ← expect KeyError (kw_lookup label spectra);
  let powder_x := (get_x (xy_arrays powder_spectrum)).1.2 in
  y0 ← first_y powder_spectrum;
  let powder_y := y0.1.2 in
  powder_data powder_x powder_y.

(** The loop of the dichoric case: [spectrum_a] and [spectrum_c] are unbound
    ([None]) until a label assigns them. *)
Definition dichoric_pick (spectra : list (string * XyData))
    (acc : Res (option XyData * option XyData)) (label : string)
    : Res (option XyData * option XyData) :=
  '(spectrum_a, spectrum_c) ← acc;
  if bool_decide (label ∈ ["eps_100"; "eps_010"]) then
    s ← expect KeyError (kw_lookup label spectra); Ok (Some s, spectrum_c)
  else if bool_decide (label ∈ ["eps_001"]) then
    s ← expect KeyError (kw_lookup label spectra); Ok (spectrum_a, Some s)
  else Ok (spectrum_a, spectrum_c).

Definition powder_dichoric (spectra : list (string * XyData)) : Res XyArrays :=
  let vectors := spectra.*1 in
  '(spectrum_a, spectrum_c) ← fold_left (dichoric_pick spectra) vectors (Ok (None, None));
  spectrum_a ← expect UnboundLocalError spectrum_a;
  let powder_x := (get_x (xy_arrays spectrum_a)).1.2 in
  ya ← first_y spectrum_a;
  spectrum_c ← expect UnboundLocalError spectrum_c;
  yc ← first_y spectrum_c;
  let yvals_a := ya.1.2 in
  let yvals_c := yc.1.2 in
  s ← Np.add (Np.mul_scalar yvals_a (Qc_of_Z 2)) yvals_c;
  let powder_y := Np.div_scalar s (Qc_of_Z 3) in
  powder_data powder_x powder_y.

Definition powder_trichoric (spectra : list (string * XyData)) : Res XyArrays :=
  spectrum_a ← expect KeyError (kw_lookup "eps_100" spectra);
  spectrum_b ← expect KeyError (kw_lookup "eps_010" spectra);
  spectrum_c ← expect KeyError (kw_lookup "eps_001" spectra);
  let powder_x := (get_x (xy_arrays spectrum_a)).1.2 in
  ya ← first_y spectrum_a;
  yb ← first_y spectrum_b;
  yc ← first_y spectrum_c;
  s1 ← Np.add ya.1.2 yb.1.2;
  s2 ← Np.add s1 yc.1.2;
  let powder_y := Np.div_scalar s2 (Qc_of_Z 3) in
  powder_data powder_x powder_y.

(** [get_powder_spectrum] on its keyword arguments: three independent [if]s on the number of
    spectra; [powder_data] stays unbound when none applies. *)
Definition get_powder_spectrum (kwargs : list (string * XyData)) : Res XyArrays :=
  let spectra := drop_metadata kwargs in
  let n := length spectra in
  pd ← (if (n =? 1)%nat then Some <$> powder_isochoric spectra else Ok None);
  pd ← (if (n =? 2)%nat then Some <$> powder_dichoric spectra else Ok pd);
  pd ← (if (n =? 3)%nat then Some <$> powder_trichoric spectra else Ok pd);
  expect UnboundLocalError pd.

(** One round of the loop of [get_all_spectra]; the accumulator holds the
    three lists and the x-axis of the last spectrum seen. *)
Definition all_spectra_step
    (acc : Res (list (list Qc) * list string * list yname * option (string * list Qc * string)))
    (spectrum_node : XyData)
    : Res (list (list Qc) * list string * list yname * option (string * list Qc * string)) :=
  '(y_arrays_list, y_units_list, y_labels_list, _) ← acc;
  calc_node ← expect AttributeError (xy_creator spectrum_node);
  let eps_vector := res_epsilon_vector calc_node in
  old_y_component ← first_y spectrum_node;
  let y_array := old_y_component.1.2 in
  let y_units := old_y_component.2 in
  Ok ((y_arrays_list ++ [y_array])%list, (y_units_list ++ [y_units])%list,
      (y_labels_list ++ [YSigma eps_vector])%list, Some (get_x (xy_arrays spectrum_node))).

(** [get_all_spectra] on its keyword arguments *)
Definition get_all_spectra (kwargs : list (string * XyData)) : Res XyArrays :=
  let spectra := (drop_metadata kwargs).*2 in
  '(y_arrays_list, y_units_list, y_labels_list, x) ←
     fold_left all_spectra_step spectra (Ok ([], [], [], None));
  x ← expect UnboundLocalError x;
  new_xy x (zip (zip y_labels_list y_arrays_list) y_units_list).

(** ** The work chain: inputs, context, engine *)

(** The inputs of an [XspectraBaseWorkChain] that the outline reads. *)
Record WcInputs : Type := mkWcInputs {
  eps_vectors : list vec3;
  structure_kinds : list string;      (* [kind.name for kind in structure.kinds] *)
  abs_atom_marker : string;
  collect_powder : bool;
  clean_workdir : bool;
  core_wfc_data : option SinglefileData;
  xs_prod_parameters : gmap string (gmap string value);
  xs_prod_max_wallclock_seconds : Z;
  xs_plot_parameters : gmap string (gmap string value);
}.

(** The finished SCF [PwBaseWorkChain]. *)
Record ScfNode : Type := mkScfNode {
  scf_is_finished_ok : bool;
  scf_remote_folder : RemoteData;
  scf_kpoints : KpointsData;          (* [workchain.called[0].inputs.kpoints] *)
  scf_output_parameters : gmap string value;
}.

(** The processes the engine runs for the work chain: what each submitted
    process turns out to be once it has terminated. *)
Record World : Type := mkWorld {
  run_pw_base : ScfNode;
  run_shell_upf2plotcore : SinglefileData;
  run_xspectra : XsInputs → XsOutcome;
}.

Definition ERROR_SUB_PROCESS_FAILED_SCF : Z := 401.
Definition ERROR_SUB_PROCESS_FAILED_XSPECTRA : Z := 402.

(** Messages passed to [self.report]. *)
Inductive Report : Type :=
  | RLaunchScf           (* launching SCF PwBaseWorkChain *)
  | RScfFailed
  | RLaunchShellJob      (* Launching ShellJob for upf2plotcore.sh *)
  | RLaunchProd (vector : vec3)                 (* iteration #1 *)
  | RLaunchRestart (vector : list value)
  | RAddedToRestart (report_label : string)
  | RProdFailed (report_label : string)
  | RLaunchReplot (eps_vector : vec3)
  | RReplotFailed (status : option Z)
  | RWarnMissingC        (* vectors [1 0 0] and [0 1 0] found, but not [0 0 1] *)
  | RWarnNoBasis         (* powder requested, no suitable epsilon vector *)
  | RCleaning
  | RKeeping.

Record Outputs : Type := mkOutputs {
  output_parameters_scf : option (gmap string value);
  output_parameters_xspectra : option (gmap string XsOutcome);
  output_spectra : option XyArrays;
  powder_spectrum : option XyArrays;
}.

(** [self.ctx].  A field that the outline has not assigned yet is [None];
    [named] holds the entries bound by [ToContext] under a label. *)
Record Ctx : Type := mkCtx {
  all_lanczos_computed : option bool;
  lanczos_to_restart : option (list CalcJobNode);
  finished_lanczos : option (list CalcJobNode);
  scf_workchain : option ScfNode;
  scf_parent_folder : option RemoteData;
  scf_kpoint_mesh : option KpointsData;
  upf2plotcore_node : option SinglefileData;
  xspectra_calc_labels : option (list string);
  finished_replots : option (list CalcJobNode);
  named : gmap string CalcJobNode;
}.

(** The state of a running work chain: its context, its log, the processes
    it has called (in submission order) and the outputs it has attached. *)
Record WcState : Type := mkWcState {
  ctx : Ctx;
  reports : list Report;
  called : list CalcJobNode;
  outputs : Outputs;
}.

Definition set_all_lanczos_computed (b : bool) (c : Ctx) : Ctx :=
  mkCtx (Some b) (lanczos_to_restart c) (finished_lanczos c) (scf_workchain c)
        (scf_parent_folder c) (scf_kpoint_mesh c) (upf2plotcore_node c)
        (xspectra_calc_labels c) (finished_replots c) (named c).
Definition set_lanczos_to_restart (l : list CalcJobNode) (c : Ctx) : Ctx :=
  mkCtx (all_lanczos_computed c) (Some l) (finished_lanczos c) (scf_workchain c)
        (scf_parent_folder c) (scf_kpoint_mesh c) (upf2plotcore_node c)
        (xspectra_calc_labels c) (finished_replots c) (named c).
Definition set_finished_lanczos (l : list CalcJobNode) (c : Ctx) : Ctx :=
  mkCtx (all_lanczos_computed c) (lanczos_to_restart c) (Some l) (scf_workchain c)
        (scf_parent_folder c) (scf_kpoint_mesh c) (upf2plotcore_node c)
        (xspectra_calc_labels c) (finished_replots c) (named c).
Definition set_scf_workchain (w : ScfNode) (c : Ctx) : Ctx :=
  mkCtx (all_lanczos_computed c) (lanczos_to_restart c) (finished_lanczos c) (Some w)
        (scf_parent_folder c) (scf_kpoint_mesh c) (upf2plotcore_node c)
        (xspectra_calc_labels c) (finished_replots c) (named c).
Definition set_scf_results (f : RemoteData) (k : KpointsData) (c : Ctx) : Ctx :=
  mkCtx (all_lanczos_computed c) (lanczos_to_restart c) (finished_lanczos c) (scf_workchain c)
        (Some f) (Some k) (upf2plotcore_node c)
        (xspectra_calc_labels c) (finished_replots c) (named c).
Definition set_upf2plotcore_node (n : SinglefileData) (c : Ctx) : Ctx :=
  mkCtx (all_lanczos_computed c) (lanczos_to_restart c) (finished_lanczos c) (scf_workchain c)
        (scf_parent_folder c) (scf_kpoint_mesh c) (Some n)
        (xspectra_calc_labels c) (finished_replots c) (named c).
Definition set_xspectra_calc_labels (l : list string) (c : Ctx) : Ctx :=
  mkCtx (all_lanczos_computed c) (lanczos_to_restart c) (finished_lanczos c) (scf_workchain c)
        (scf_parent_folder c) (scf_kpoint_mesh c) (upf2plotcore_node c)
        (Some l) (finished_replots c) (named c).
Definition set_finished_replots (l : list CalcJobNode) (c : Ctx) : Ctx :=
  mkCtx (all_lanczos_computed c) (lanczos_to_restart c) (finished_lanczos c) (scf_workchain c)
        (scf_parent_folder c) (scf_kpoint_mesh c) (upf2plotcore_node c)
        (xspectra_calc_labels c) (Some l) (named c).
(** [ToContext] of a dictionary of processes: each key is bound, a key bound
    before is overwritten. *)
Definition to_context (calcs : gmap string CalcJobNode) (c : Ctx) : Ctx :=
  mkCtx (all_lanczos_computed c) (lanczos_to_restart c) (finished_lanczos c) (scf_workchain c)
        (scf_parent_folder c) (scf_kpoint_mesh c) (upf2plotcore_node c)
        (xspectra_calc_labels c) (finished_replots c) (calcs ∪ named c).

Definition ctx_empty : Ctx := mkCtx None None None None None None None None None ∅.
Definition outputs_empty : Outputs := mkOutputs None None None None.
Definition state_init : WcState := mkWcState ctx_empty [] [] outputs_empty.

(** ** The state and error monad of outline steps *)

Definition M (A : Type) : Type := WcState → Res (A * WcState).

Definition m_ret {A} (a : A) : M A := λ st, Ok (a, st).
Definition m_bind {A B} (m : M A) (f : A → M B) : M B :=
  λ st, match m st with
        | Ok (a, st') => f a st'
        | Raise e => Raise e
        end.

Declare Scope wc_scope.
Delimit Scope wc_scope with wc.
Notation "x <~ y ; z" := (m_bind y (λ x, z))
  (at level 20, y at level 100, z at level 200, only parsing) : wc_scope.
Notation "' x <~ y ; z" := (m_bind y (λ x, z))
  (at level 20, x pattern, y at level 100, z at level 200, only parsing) : wc_scope.
Local Open Scope wc_scope.

Definition lift {A} (r : Res A) : M A :=
  λ st, match r with Ok a => Ok (a, st) | Raise e => Raise e end.
Definition raise {A} (e : Exn) : M A := λ _, Raise e.
Definition get_ctx : M Ctx := λ st, Ok (ctx st, st).
Definition modify_ctx (f : Ctx → Ctx) : M unit :=
  λ st, Ok (tt, mkWcState (f (ctx st)) (reports st) (called st) (outputs st)).
Definition report (r : Report) : M unit :=
  λ st, Ok (tt, mkWcState (ctx st) (reports st ++ [r])%list (called st) (outputs st)).
Definition modify_outputs (f : Outputs → Outputs) : M unit :=
  λ st, Ok (tt, mkWcState (ctx st) (reports st) (called st) (f (outputs st))).

(** Reading a context attribute that must have been assigned. *)
Definition ctx_attr {A} (f : Ctx → option A) : M A :=
  c <~ get_ctx ; lift (expect AttributeError (f c)).
(** [self.ctx[label]] *)
Definition ctx_item (label : string) : M CalcJobNode :=
  c <~ get_ctx ; lift (expect KeyError (named c !! label)).

(** A loop over a list whose body cannot leave the enclosing function. *)
Fixpoint for_each {A S} (body : S → A → M S) (l : list A) (s : S) : M S :=
  match l with
  | [] => m_ret s
  | a :: l' => s' <~ body s a ; for_each body l' s'
  end.

(** A loop over a list whose body may [return] an exit code ([inr]). *)
Fixpoint for_each_return {A S} (body : S → A → M (S + Z)) (l : list A) (s : S)
    : M (S + Z) :=
  match l with
  | [] => m_ret (inl s)
  | a :: l' =>
      r <~ body s a ;
      match r with
      | inl s' => for_each_return body l' s'
      | inr code => m_ret (inr code)
      end
  end.

(** ** The absorbing species index (base.py, run_all_xspectra_prod) *)

(** One round of the counter loop: [xiabs] is unbound ([None]) until the
    marker is met; the counter advances on every other kind. *)
Definition xiabs_step (marker : string) (acc : option Z * Z) (kind : string)
    : option Z * Z :=
  let '(xiabs, kind_counter) := acc in
  if String.eqb kind marker then (Some kind_counter, kind_counter)
  else (xiabs, kind_counter + 1).

Definition base_xiabs (kinds : list string) (marker : string) : option Z :=
  let kinds_list := PyStr.sorted kinds in
  (fold_left (xiabs_step marker) kinds_list (None, 1)).1.

(** ** Outline steps of XspectraBaseWorkChain *)

Definition eps_powder_vectors : list vec3 :=
  [(Qc_of_Z 1, Qc_of_Z 0, Qc_of_Z 0);
   (Qc_of_Z 0, Qc_of_Z 1, Qc_of_Z 0);
   (Qc_of_Z 0, Qc_of_Z 0, Qc_of_Z 1)].

(** [v in vectors] *)
Definition vec_in (v : vec3) (vectors : list vec3) : bool := existsb (vec3_eqb v) vectors.

(** [d[k] = v] on a dictionary whose order is kept: an existing key keeps its
    place, a new key goes last. *)
Fixpoint kw_set {A} (k : string) (a : A) (kw : list (string * A)) : list (string * A) :=
  match kw with
  | [] => [(k, a)]
  | (k', a') :: kw' => if String.eqb k k' then (k, a) :: kw' else (k', a') :: kw_set k a kw'
  end.

(** [pieces[0]_pieces[1]_pieces[2]] *)
Definition first_three (pieces : list string) : Res string :=
  p0 ← expect IndexError (pieces !! 0%nat);
  p1 ← expect IndexError (pieces !! 1%nat);
  p2 ← expect IndexError (pieces !! 2%nat);
  Ok (p0 ++ "_" ++ p1 ++ "_" ++ p2).

(** [exit_status == 400] *)
Definition exit_status_is (c : CalcJobNode) (code : Z) : bool :=
  match exit_status c with Some z => z =? code | None => false end.

Definition set_xepsilon (v : vec3) (nl : gmap string value) : gmap string value :=
  let '(v1, v2, v3) := v in
  <["xepsilon(3)" := VFloat v3]> (<["xepsilon(2)" := VFloat v2]> (<["xepsilon(1)" := VFloat v1]> nl)).

Section WorkChain.
Variable world : World.
Variable inputs : WcInputs.

(** [self.submit(XspectraCalculation, ...)]: the process joins the called
    processes; the node stands for the process once terminated. *)
Definition submit (i : XsInputs) : M CalcJobNode :=
  λ st, let node := CalcJob i (run_xspectra world i) in
        Ok (node, mkWcState (ctx st) (reports st) (called st ++ [node])%list (outputs st)).

(** [serial_clean] is not an input of this work chain and is left out. *)
Definition setup : M (option Z) :=
  _ <~ modify_ctx (set_all_lanczos_computed false) ;
  _ <~ modify_ctx (set_lanczos_to_restart []) ;
  _ <~ modify_ctx (set_finished_lanczos []) ;
  m_ret None.

Definition should_repeat_xs_prod : M bool :=
  b <~ ctx_attr all_lanczos_computed ; m_ret (negb b).

Definition run_scf : M (option Z) :=
  let future := run_pw_base world in
  _ <~ report RLaunchScf ;
  _ <~ modify_ctx (set_scf_workchain future) ; m_ret None.

Definition inspect_scf : M (option Z) :=
  workchain <~ ctx_attr scf_workchain ;
  if negb (scf_is_finished_ok workchain) then
    _ <~ report RScfFailed ;
    m_ret (Some ERROR_SUB_PROCESS_FAILED_SCF)
  else
    _ <~ modify_ctx (set_scf_results (scf_remote_folder workchain) (scf_kpoints workchain)) ;
    m_ret None.

Definition should_run_upf2plotcore : bool :=
  match core_wfc_data inputs with None => true | Some _ => false end.

Definition run_upf2plotcore : M (option Z) :=
  let shelljob_node := run_shell_upf2plotcore world in
  _ <~ report RLaunchShellJob ;
  _ <~ modify_ctx (set_upf2plotcore_node shelljob_node) ; m_ret None.

(** The core wave function file: the input when given, else the output of
    the shell job. *)
Definition get_core_wfc_data : M SinglefileData :=
  match core_wfc_data inputs with
  | Some d => m_ret d
  | None => ctx_attr upf2plotcore_node
  end.

(** Body of the loop over [eps_vectors] (no restart ordered yet). *)
Definition prod_fresh_body (core : SinglefileData) (xiabs : option Z)
    (s : gmap string CalcJobNode * list string * Z) (vector : vec3)
    : M (gmap string CalcJobNode * list string * Z) :=
  let '(xspectra_prod_calcs, xspectra_calc_labels, calc_number) := s in
  let xspectra_parameters := xs_prod_parameters inputs in
  xiabs <~ lift (expect UnboundLocalError xiabs) ;
  nl <~ lift (expect KeyError (xspectra_parameters !! "INPUT_XSPECTRA")) ;
  let nl := <["xiabs" := VInt xiabs]> nl in
  let max_walltime_seconds := xs_prod_max_wallclock_seconds inputs in
  let nl := <["time_limit" := VFloat (Qc_of_Z max_walltime_seconds * Q2Qc (9 # 10))]> nl in
  parent_folder <~ ctx_attr scf_parent_folder ;
  kpoints <~ ctx_attr scf_kpoint_mesh ;
  let label := "xas_prod_" ++ PyStr.of_int calc_number in
  let nl := set_xepsilon vector nl in
  let xspectra_parameters := <["INPUT_XSPECTRA" := nl]> xspectra_parameters in
  future_xspectra <~ submit (mkXsInputs (label ++ "_iter_1") (label ++ "_iter_1")
                               xspectra_parameters parent_folder kpoints core) ;
  _ <~ report (RLaunchProd vector) ;
  m_ret (<[label := future_xspectra]> xspectra_prod_calcs,
         (xspectra_calc_labels ++ [label])%list, calc_number + 1).

(** Body of the loop over [ctx.lanczos_to_restart]. *)
Definition prod_restart_body (core : SinglefileData)
    (s : gmap string CalcJobNode * list string) (calculation : CalcJobNode)
    : M (gmap string CalcJobNode * list string) :=
  let '(xspectra_prod_calcs, xspectra_calc_labels) := s in
  let xspectra_parameters := i_parameters (calc_inputs calculation) in
  nl <~ lift (expect KeyError (xspectra_parameters !! "INPUT_XSPECTRA")) ;
  let nl := <["restart_mode" := VStr "restart"]> nl in
  x1 <~ lift (expect KeyError (nl !! "xepsilon(1)")) ;
  x2 <~ lift (expect KeyError (nl !! "xepsilon(2)")) ;
  x3 <~ lift (expect KeyError (nl !! "xepsilon(3)")) ;
  let vector := [x1; x2; x3] in
  let parent_folder := remote_folder calculation in
  kpoints <~ ctx_attr scf_kpoint_mesh ;
  let parent_label_pieces := PyStr.split "_" (calc_label calculation) in
  last_piece <~ lift (expect IndexError (last parent_label_pieces)) ;
  iteration <~ lift (expect ValueError (PyStr.int last_piece)) ;
  let iteration := iteration + 1 in
  label <~ lift (first_three parent_label_pieces) ;
  let full_label := label ++ "_iter_" ++ PyStr.of_int iteration in
  let xspectra_parameters := <["INPUT_XSPECTRA" := nl]> xspectra_parameters in
  future_xspectra <~ submit (mkXsInputs full_label full_label
                               xspectra_parameters parent_folder kpoints core) ;
  _ <~ report (RLaunchRestart vector) ;
  m_ret (<[label := future_xspectra]> xspectra_prod_calcs,
         (xspectra_calc_labels ++ [label])%list).

Definition run_all_xspectra_prod : M (option Z) :=
  core <~ get_core_wfc_data ;
  let xiabs := base_xiabs (structure_kinds inputs) (abs_atom_marker inputs) in
  to_restart <~ ctx_attr lanczos_to_restart ;
  '(xspectra_prod_calcs, xspectra_calc_labels) <~
     (if (length to_restart =? 0)%nat then
        '(calcs, labels, _) <~
           for_each (prod_fresh_body core xiabs) (eps_vectors inputs) (∅, [], 0) ;
        m_ret (calcs, labels)
      else
        for_each (prod_restart_body core) to_restart (∅, [])) ;
  _ <~ modify_ctx (set_xspectra_calc_labels xspectra_calc_labels) ;
  _ <~ modify_ctx (to_context xspectra_prod_calcs) ;
  m_ret None.

(** [calculations = [self.ctx[label] for label in labels]] *)
Definition collect_calculations (key : string → string) (labels : list string)
    : M (list CalcJobNode) :=
  for_each (λ acc label, c <~ ctx_item (key label) ; m_ret (acc ++ [c])%list) labels [].

(** Body of the inspection loop; the local variables are
    [(lanczos_to_restart, restarts_required)]. *)
Definition inspect_prod_body (s : list CalcJobNode * bool) (calculation : CalcJobNode)
    : M (list CalcJobNode * bool + Z) :=
  let '(lanczos_to_restart, restarts_required) := s in
  if negb (is_finished_ok calculation) then
    let label_pieces := PyStr.split "_" (calc_label calculation) in
    report_label <~ lift (first_three label_pieces) ;
    if exit_status_is calculation 400 then
      _ <~ report (RAddedToRestart report_label) ;
      m_ret (inl ((lanczos_to_restart ++ [calculation])%list, true))
    else
      _ <~ report (RProdFailed report_label) ;
      m_ret (inr ERROR_SUB_PROCESS_FAILED_XSPECTRA)
  else
    finished <~ ctx_attr finished_lanczos ;
    _ <~ modify_ctx (set_finished_lanczos (finished ++ [calculation])%list) ;
    m_ret (inl (lanczos_to_restart, restarts_required)).

Definition inspect_all_xspectra_prod : M (option Z) :=
  labels <~ ctx_attr xspectra_calc_labels ;
  calculations <~ collect_calculations (λ label, label) labels ;
  r <~ for_each_return inspect_prod_body calculations ([], false) ;
  match r with
  | inr code => m_ret (Some code)
  | inl (lanczos_to_restart, restarts_required) =>
      if restarts_required : bool then
        _ <~ modify_ctx (set_lanczos_to_restart lanczos_to_restart) ; m_ret None
      else
        _ <~ modify_ctx (set_all_lanczos_computed true) ; m_ret None
  end.

(** Body of the loop over [ctx.finished_lanczos]. *)
Definition plot_body (core : SinglefileData) (xspectra_plot_calcs : gmap string CalcJobNode)
    (parent_xspectra : CalcJobNode) : M (gmap string CalcJobNode) :=
  let xspectra_parameters := xs_plot_parameters inputs in
  let eps_vector := res_epsilon_vector parent_xspectra in
  nl <~ lift (expect KeyError (xspectra_parameters !! "INPUT_XSPECTRA")) ;
  let nl := set_xepsilon eps_vector nl in
  let parent_label_pieces := PyStr.split "_" (calc_label parent_xspectra) in
  label <~ lift (first_three parent_label_pieces) ;
  let parent_folder := remote_folder parent_xspectra in
  kpoints <~ ctx_attr scf_kpoint_mesh ;
  let plot_label := PyStr.replace "prod" "plot" label in
  let xspectra_parameters := <["INPUT_XSPECTRA" := nl]> xspectra_parameters in
  future_xspectra <~ submit (mkXsInputs plot_label plot_label
                               xspectra_parameters parent_folder kpoints core) ;
  _ <~ report (RLaunchReplot eps_vector) ;
  m_ret (<[label ++ "_plot" := future_xspectra]> xspectra_plot_calcs).

Definition run_all_xspectra_plot : M (option Z) :=
  finished_calculations <~ ctx_attr finished_lanczos ;
  core <~ get_core_wfc_data ;
  xspectra_plot_calcs <~ for_each (plot_body core) finished_calculations ∅ ;
  _ <~ modify_ctx (to_context xspectra_plot_calcs) ;
  m_ret None.

(** Body of the replot inspection loop; the local variables are
    [(unrecoverable_failures, finished_replots)]. *)
Definition inspect_plot_body (s : bool * list CalcJobNode) (calculation : CalcJobNode)
    : M (bool * list CalcJobNode) :=
  let '(unrecoverable_failures, finished_replots) := s in
  if negb (is_finished_ok calculation) then
    _ <~ report (RReplotFailed (exit_status calculation)) ;
    m_ret (true, finished_replots)
  else
    m_ret (unrecoverable_failures, (finished_replots ++ [calculation])%list).

Definition inspect_all_xspectra_plot : M (option Z) :=
  labels <~ ctx_attr xspectra_calc_labels ;
  calculations <~ collect_calculations (λ label, label ++ "_plot") labels ;
  '(unrecoverable_failures, finished_replots) <~
     for_each inspect_plot_body calculations (false, []) ;
  if unrecoverable_failures : bool then
    m_ret (Some ERROR_SUB_PROCESS_FAILED_XSPECTRA)
  else
    _ <~ modify_ctx (set_finished_replots finished_replots) ; m_ret None.
End WorkChain.

Section Results.
Variable inputs : WcInputs.

(** Body of the loop over the replot calculations in the powder branch;
    the local variables are the keyword dictionary and the three flags. *)
Definition powder_collect_body
    (s : list (string * XyData) * bool * bool * bool) (plot_calc : CalcJobNode)
    : M (list (string * XyData) * bool * bool * bool) :=
  let '(eps_basis_calcs, a_vector_present, b_vector_present, c_vector_present) := s in
  parent_folder <~ lift (outputs_parent_folder plot_calc) ;
  parent_calc <~ lift (expect AttributeError (creator parent_folder)) ;
  let parent_vector := res_epsilon_vector parent_calc in
  let spectrum_node := outputs_spectra plot_calc in
  if vec_in parent_vector eps_powder_vectors then
    let '(eps_basis_calcs, a_vector_present) :=
      if vec3_eqb parent_vector (Qc_of_Z 1, Qc_of_Z 0, Qc_of_Z 0)
      then (kw_set "eps_100" spectrum_node eps_basis_calcs, true)
      else (eps_basis_calcs, a_vector_present) in
    let '(eps_basis_calcs, b_vector_present) :=
      if vec3_eqb parent_vector (Qc_of_Z 0, Qc_of_Z 1, Qc_of_Z 0)
      then (kw_set "eps_010" spectrum_node eps_basis_calcs, true)
      else (eps_basis_calcs, b_vector_present) in
    let '(eps_basis_calcs, c_vector_present) :=
      if vec3_eqb parent_vector (Qc_of_Z 0, Qc_of_Z 0, Qc_of_Z 1)
      then (kw_set "eps_001" spectrum_node eps_basis_calcs, true)
      else (eps_basis_calcs, c_vector_present) in
    m_ret (eps_basis_calcs, a_vector_present, b_vector_present, c_vector_present)
  else m_ret s.

(** The branch guarded by [collect_powder and should_collect_powder].  The
    ['metadata'] entry added before the call is the one that
    [get_powder_spectrum] drops again. *)
Definition results_powder (xspectra_plot_calcs : list CalcJobNode) : M unit :=
  '(eps_basis_calcs, a_vector_present, b_vector_present, c_vector_present) <~
     for_each powder_collect_body xspectra_plot_calcs ([], false, false, false) ;
  if (a_vector_present && b_vector_present && negb c_vector_present)%bool then
    report RWarnMissingC
  else
    powder <~ lift (get_powder_spectrum eps_basis_calcs) ;
    modify_outputs (λ o, mkOutputs (output_parameters_scf o) (output_parameters_xspectra o)
                                   (output_spectra o) (Some powder)).

(** [basis_vectors_present] after the loop over the production
    calculations: assigned [True] when a basis vector is met, never
    initialised. *)
Definition basis_vectors_present (xspectra_prod_calcs : list CalcJobNode) : option bool :=
  fold_left (λ acc calc,
               if vec_in (res_epsilon_vector calc) eps_powder_vectors then Some true else acc)
            xspectra_prod_calcs None.

(** [calc.label.split('_')[:-2]] *)
Definition drop_last_two (pieces : list string) : list string :=
  firstn (length pieces - 2) pieces.

(** [results].  The local flag [should_collect_powder] is [False] and is
    not assigned again.  The ['metadata'] entry added to
    [all_final_spectra] is the one that [get_all_spectra] drops again. *)
Definition results : M (option Z) :=
  xspectra_prod_calcs <~ ctx_attr finished_lanczos ;
  xspectra_plot_calcs <~ ctx_attr finished_replots ;
  let should_collect_powder := false in
  let basis_present := basis_vectors_present xspectra_prod_calcs in
  _ <~ (if (collect_powder inputs && should_collect_powder)%bool then
          results_powder xspectra_plot_calcs
        else if collect_powder inputs then
          present <~ lift (expect UnboundLocalError basis_present) ;
          if negb present then report RWarnNoBasis else m_ret tt
        else m_ret tt) ;
  scf <~ ctx_attr scf_workchain ;
  _ <~ modify_outputs (λ o, mkOutputs (Some (scf_output_parameters scf))
                              (output_parameters_xspectra o) (output_spectra o)
                              (powder_spectrum o)) ;
  all_xspectra_prod_calcs <~
    for_each (λ (acc : gmap string CalcJobNode) calc,
                let label_pieces := drop_last_two (PyStr.split "_" (calc_label calc)) in
                label <~ lift (first_three label_pieces) ;
                m_ret (<[label := calc]> acc))
             xspectra_prod_calcs ∅ ;
  let xspectra_prod_params := calc_outcome <$> all_xspectra_prod_calcs in
  _ <~ modify_outputs (λ o, mkOutputs (output_parameters_scf o) (Some xspectra_prod_params)
                              (output_spectra o) (powder_spectrum o)) ;
  let all_final_spectra :=
    fold_left (λ acc calc, kw_set (calc_label calc) (outputs_spectra calc) acc)
              xspectra_plot_calcs [] in
  spectra <~ lift (get_all_spectra all_final_spectra) ;
  _ <~ modify_outputs (λ o, mkOutputs (output_parameters_scf o) (output_parameters_xspectra o)
                              (Some spectra) (powder_spectrum o)) ;
  _ <~ (if clean_workdir inputs then report RCleaning else report RKeeping) ;
  m_ret None.
End Results.

(** ** The outline *)

(** How a run of the work chain ends: finished with an exit code (zero on
    success), excepted, or still looping when the fuel ran out. *)
Inductive Outcome : Type :=
  | Finished (exit_code : Z) (st : WcState)
  | Excepted (e : Exn)
  | OutOfFuel.

(** One outline step followed by the rest: a step that returns an exit code
    ends the work chain there. *)
Definition step_then (step : M (option Z)) (rest : WcState → Outcome) (st : WcState)
    : Outcome :=
  match step st with
  | Raise e => Excepted e
  | Ok (Some code, st') => Finished code st'
  | Ok (None, st') => rest st'
  end.

Section Outline.
Variable world : World.
Variable inputs : WcInputs.

(** [while_(should_repeat_xs_prod)(run_all_xspectra_prod,
    inspect_all_xspectra_prod)]; the source puts no bound on the number of
    rounds, the model counts them down from [fuel]. *)
Fixpoint while_xs_prod (fuel : nat) (rest : WcState → Outcome) (st : WcState) : Outcome :=
  match should_repeat_xs_prod st with
  | Raise e => Excepted e
  | Ok (false, st') => rest st'
  | Ok (true, st') =>
      match fuel with
      | O => OutOfFuel
      | S fuel' =>
          step_then (run_all_xspectra_prod world inputs)
            (step_then inspect_all_xspectra_prod (while_xs_prod fuel' rest)) st'
      end
  end.

(** The steps after the production loop. *)
Definition after_prod : WcState → Outcome :=
  step_then (run_all_xspectra_plot world inputs)
    (step_then inspect_all_xspectra_plot
       (step_then (results inputs) (λ st, Finished 0 st))).

(** The steps from the production loop on. *)
Definition from_prod (fuel : nat) : WcState → Outcome :=
  while_xs_prod fuel after_prod.

Definition outline (fuel : nat) : Outcome :=
  step_then setup
    (step_then (run_scf world)
       (step_then inspect_scf
          (if should_run_upf2plotcore inputs
           then step_then (run_upf2plotcore world) (from_prod fuel)
           else from_prod fuel)))
    state_init.
End Outline.

(** ** XspectraCrystalWorkChain *)

Module Crystal.

Definition ERROR_NO_GIPAW_INFO_FOUND : Z := 403.

(** [n in range(lo, hi)] *)
Definition in_range (lo hi n : Z) : bool := (lo <=? n) && (n <? hi).

Definition trichoric_vectors : list vec3 := eps_powder_vectors.
Definition dichoric_vectors : list vec3 :=
  [(Qc_of_Z 1, Qc_of_Z 0, Qc_of_Z 0); (Qc_of_Z 0, Qc_of_Z 0, Qc_of_Z 1)].
Definition isochoric_vectors : list vec3 :=
  [(Qc_of_Z 1, Qc_of_Z 0, Qc_of_Z 0)].

(** The three [if]s of [get_xspectra_structures] that assign
    [ctx.eps_vectors]; [before] is the attribute before them ([None]:
    not assigned). *)
Definition select_eps_vectors (before : option (list vec3)) (spacegroup_number : Z)
    : option (list vec3) :=
  let e := before in
  let e := if in_range 1 75 spacegroup_number then Some trichoric_vectors else e in
  let e := if in_range 75 195 spacegroup_number then Some dichoric_vectors else e in
  let e := if in_range 195 231 spacegroup_number then Some isochoric_vectors else e in
  e.

(** The number of core states read from the output of upf2plotcore.sh:
    [int(content[:40].split(' ')[5])]. *)
Definition num_core_states (content : string) : Res Z :=
  let header_line := PyStr.take 40 content in
  tok ← expect IndexError (PyStr.split " " header_line !! 5%nat);
  expect ValueError (PyStr.int tok).

(** [inspect_upf2plotcore]: [shelljobs] maps the context key
    [upf2plotcore_{label}] to the content of the job's [stdout]. *)
Fixpoint inspect_upf2plotcore (shelljobs : gmap string string) (labels : list string)
    : Res (option Z) :=
  match labels with
  | [] => Ok None
  | label :: labels' =>
      core_wfc_data ← expect KeyError (shelljobs !! ("upf2plotcore_" ++ label));
      num ← num_core_states core_wfc_data;
      if num =? 0 then Ok (Some ERROR_NO_GIPAW_INFO_FOUND)
      else inspect_upf2plotcore shelljobs labels'
  end.

(** [l.index(x)] *)
Fixpoint list_index (x : string) (l : list string) : option Z :=
  match l with
  | [] => None
  | y :: l' => if String.eqb y x then Some 0 else Z.succ <$> list_index x l'
  end.

(** [sorted(kind names).index(abs_atom_marker) + 1] of
    [run_all_xspectra_core]; [None] is the [ValueError] of [index]. *)
Definition abs_species_index (kinds : list string) (abs_atom_marker : string) : option Z :=
  let kinds_present := PyStr.sorted kinds in
  (λ i, i + 1) <$> list_index abs_atom_marker kinds_present.

(** *** The inspection as the specification words it *)

Definition LF : ascii := "010"%char.

(** The first line of a text. *)
Definition first_line (s : string) : string :=
  match PyStr.split LF s with l :: _ => l | [] => "" end.

(** White space of a text: the characters 9 to 13, 28 to 31 and the
    space. *)
Definition is_white_space (c : ascii) : bool :=
  let n := nat_of_ascii c in
  ((9 <=? n)%nat && (n <=? 13)%nat) || ((28 <=? n)%nat && (n <=? 32)%nat).

(** White-space separated tokens: runs of white space separate, no empty
    token. *)
Fixpoint ws_tokens_from (cur : string) (s : string) : list string :=
  match s with
  | EmptyString => match cur with EmptyString => [] | _ => [cur] end
  | String c s' =>
      if is_white_space c
      then match cur with
           | EmptyString => ws_tokens_from EmptyString s'
           | _ => cur :: ws_tokens_from EmptyString s'
           end
      else ws_tokens_from (cur ++ String c EmptyString) s'
  end.
Definition ws_tokens (s : string) : list string := ws_tokens_from EmptyString s.

(** The 6th white-space separated token of the first line, as an integer. *)
Definition spec_num_core_states (content : string) : option Z :=
  tok ← ws_tokens (first_line content) !! 5%nat;
  PyStr.int tok.

End Crystal.

(** * Notions used by the statements and the proofs *)

Fixpoint all_chars (P : ascii → bool) (s : string) : bool :=
  match s with
  | EmptyString => true
  | String c s' => P c && all_chars P s'
  end.

Definition no_char (sep : ascii) (s : string) : bool :=
  all_chars (λ c, negb (Ascii.eqb c sep)) s.

(** The labels of production jobs. *)
Definition prod_base (n : Z) : string := "xas_prod_" ++ PyStr.of_int n.
Definition prod_label (n k : Z) : string := prod_base n ++ "_iter_" ++ PyStr.of_int k.

Definition run_job (world : World) (i : XsInputs) : CalcJobNode :=
  CalcJob i (run_xspectra world i).

Definition add_job (j : CalcJobNode) (r : Report) (st : WcState) : WcState :=
  mkWcState (ctx st) (reports st ++ [r])%list (called st ++ [j])%list (outputs st).

Definition fresh_inputs (inputs : WcInputs) (nl0 : gmap string value) (x : Z)
    (pf : RemoteData) (kp : KpointsData) (core : SinglefileData) (n : Z) (v : vec3) : XsInputs :=
  let nl := <["xiabs" := VInt x]> nl0 in
  let nl := <["time_limit" :=
                VFloat (Qc_of_Z (xs_prod_max_wallclock_seconds inputs) * Q2Qc (9 # 10))]> nl in
  mkXsInputs (prod_label n 1) (prod_label n 1)
    (<["INPUT_XSPECTRA" := set_xepsilon v nl]> (xs_prod_parameters inputs)) pf kp core.

Ltac mstep :=
  cbv [m_bind m_ret lift raise expect ctx_attr ctx_item get_ctx modify_ctx report submit
       modify_outputs];
  cbn [ctx reports called outputs].

(** Processes bound under a key, in submission order. *)
Definition insert_all (keyed : list (string * CalcJobNode)) (m : gmap string CalcJobNode)
    : gmap string CalcJobNode :=
  fold_left (λ m kv, <[kv.1 := kv.2]> m) keyed m.

Definition add_jobs (js : list CalcJobNode) (rs : list Report) (st : WcState) : WcState :=
  mkWcState (ctx st) (reports st ++ rs)%list (called st ++ js)%list (outputs st).

Fixpoint fresh_keyed (mk : Z → vec3 → XsInputs) (world : World) (n : Z) (vs : list vec3)
    : list (string * CalcJobNode) :=
  match vs with
  | [] => []
  | v :: vs' => (prod_base n, run_job world (mk n v)) :: fresh_keyed mk world (n + 1) vs'
  end.

(** A production job as the work chain submits them: labelled
    [xas_prod_{n}_iter_{k}], with the polarisation vector in its parameters. *)
Definition wf_job_at (c : CalcJobNode) (n k : Z) (nl : gmap string value)
    (x1 x2 x3 : value) : Prop :=
  0 <= n ∧ 1 <= k ∧ calc_label c = prod_label n k
  ∧ i_parameters (calc_inputs c) !! "INPUT_XSPECTRA" = Some nl
  ∧ nl !! "xepsilon(1)" = Some x1 ∧ nl !! "xepsilon(2)" = Some x2
  ∧ nl !! "xepsilon(3)" = Some x3.

Definition wf_job (c : CalcJobNode) : Prop :=
  ∃ n k nl x1 x2 x3, wf_job_at c n k nl x1 x2 x3.

(** The label of a job without its iteration suffix, as the work chain
    recovers it. *)
Definition job_base (c : CalcJobNode) : Res string :=
  first_three (PyStr.split "_" (calc_label c)).

(** The polarisation vector in the input parameters of a job. *)
Definition job_vector (c : CalcJobNode) : option (value * value * value) :=
  nl ← i_parameters (calc_inputs c) !! "INPUT_XSPECTRA";
  x1 ← nl !! "xepsilon(1)"; x2 ← nl !! "xepsilon(2)"; x3 ← nl !! "xepsilon(3)";
  Some (x1, x2, x3).

Definition restart_inputs (kp : KpointsData) (core : SinglefileData) (c : CalcJobNode)
    (n k : Z) (nl : gmap string value) : XsInputs :=
  mkXsInputs (prod_label n (k + 1)) (prod_label n (k + 1))
    (<["INPUT_XSPECTRA" := <["restart_mode" := VStr "restart"]> nl]>
       (i_parameters (calc_inputs c)))
    (remote_folder c) kp core.

(** [j] is the restart of [c]: same job number, iteration one higher, the
    parameters of [c] with [restart_mode] set, the folder of [c] as parent. *)
Definition is_restart_of (c j : CalcJobNode) : Prop :=
  ∃ n k nl, 0 <= n ∧ 1 <= k
    ∧ calc_label c = prod_label n k
    ∧ calc_label j = prod_label n (k + 1)
    ∧ i_parameters (calc_inputs c) !! "INPUT_XSPECTRA" = Some nl
    ∧ i_parameters (calc_inputs j)
      = <["INPUT_XSPECTRA" := <["restart_mode" := VStr "restart"]> nl]>
          (i_parameters (calc_inputs c))
    ∧ job_vector j = job_vector c
    ∧ i_parent_folder (calc_inputs j) = remote_folder c.

(** What [prod_restart_body] binds for a job of the restart list. *)
Definition restart_keyed (world : World) (kp : KpointsData) (core : SinglefileData)
    (c : CalcJobNode) (kv : string * CalcJobNode) : Prop :=
  ∃ n k nl x1 x2 x3, wf_job_at c n k nl x1 x2 x3
    ∧ kv = (prod_base n, run_job world (restart_inputs kp core c n k nl)).

Definition timed_out (c : CalcJobNode) : bool :=
  negb (is_finished_ok c) && exit_status_is c 400.
Definition failed_fatally (c : CalcJobNode) : bool :=
  negb (is_finished_ok c) && negb (exit_status_is c 400).

Definition with_ctx (c : Ctx) (rs : list Report) (st : WcState) : WcState :=
  mkWcState c (reports st ++ rs)%list (called st) (outputs st).

Definition has_base (c : CalcJobNode) : Prop := ∃ lbl, job_base c = Ok lbl.

(** The core wave function data is at hand. *)
Definition core_available (inputs : WcInputs) (c : Ctx) (core : SinglefileData) : Prop :=
  match core_wfc_data inputs with
  | Some d => core = d
  | None => upf2plotcore_node c = Some core
  end.

(** The state once the jobs [keyed] have been submitted and awaited. *)
Definition batch_state (keyed : list (string * CalcJobNode)) (rs : list Report)
    (st : WcState) : WcState :=
  mkWcState (to_context (insert_all keyed ∅) (set_xspectra_calc_labels keyed.*1 (ctx st)))
            (reports st ++ rs)%list (called st ++ keyed.*2)%list (outputs st).

(** The context after the inspection of a batch in which no job failed
    fatally. *)
Definition inspected_ctx (batch fl : list CalcJobNode) (c : Ctx) : Ctx :=
  let c := set_finished_lanczos (fl ++ filter (λ c, is_finished_ok c = true) batch) c in
  if existsb timed_out batch
  then set_lanczos_to_restart (filter (λ c, timed_out c = true) batch) c
  else set_all_lanczos_computed true c.

Definition vec_values (v : vec3) : value * value * value :=
  (VFloat v.1.1, VFloat v.1.2, VFloat v.2).

Definition keyed_wf (kv : string * CalcJobNode) : Prop :=
  wf_job kv.2 ∧ job_base kv.2 = Ok kv.1.

(** The configuration that [validate_inputs] and the input ports grant: the
    parameters hold the namelist, the marker names a kind. *)
Definition config_ok (inputs : WcInputs) : Prop :=
  is_Some (xs_prod_parameters inputs !! "INPUT_XSPECTRA")
  ∧ abs_atom_marker inputs ∈ structure_kinds inputs.

Record loop_inv (inputs : WcInputs) (st : WcState) : Prop := mk_loop_inv {
  inv_pf : is_Some (scf_parent_folder (ctx st));
  inv_kp : is_Some (scf_kpoint_mesh (ctx st));
  inv_core : ∃ core, core_available inputs (ctx st) core;
  inv_fl : ∃ fl, finished_lanczos (ctx st) = Some fl
                 ∧ Forall (λ c, is_finished_ok c = true) fl;
  inv_b : is_Some (all_lanczos_computed (ctx st));
  inv_rl : ∃ rl, lanczos_to_restart (ctx st) = Some rl
                 ∧ (all_lanczos_computed (ctx st) = Some false →
                    Forall wf_job rl
                    ∧ Forall (λ c, timed_out c = true) rl
                    ∧ NoDup (job_base <$> rl)
                    ∧ (rl = [] → finished_lanczos (ctx st) = Some []));
}.

(** The state in which the production loop is entered. *)
Definition loop_entry (inputs : WcInputs) (st : WcState) : Prop :=
  all_lanczos_computed (ctx st) = Some false
  ∧ lanczos_to_restart (ctx st) = Some []
  ∧ finished_lanczos (ctx st) = Some []
  ∧ is_Some (scf_parent_folder (ctx st))
  ∧ is_Some (scf_kpoint_mesh (ctx st))
  ∧ ∃ core, core_available inputs (ctx st) core.

(** Rounds of the production loop that end without an exit code: [n] rounds
    lead from one loop head to another. *)
Inductive prod_rounds (world : World) (inputs : WcInputs) : nat → WcState → WcState → Prop :=
  | rounds_O st : prod_rounds world inputs 0 st st
  | rounds_S n st st1 st2 st3 :
      should_repeat_xs_prod st = Ok (true, st) →
      run_all_xspectra_prod world inputs st = Ok (None, st1) →
      inspect_all_xspectra_prod st1 = Ok (None, st2) →
      prod_rounds world inputs n st2 st3 →
      prod_rounds world inputs (S n) st st3.

(** At a loop head, the jobs awaiting a restart and the accepted jobs are
    pairwise distinct under [key]. *)
Definition distinct_by {K} (key : CalcJobNode → K) (st : WcState) : Prop :=
  ∀ rl fl, all_lanczos_computed (ctx st) = Some false →
           lanczos_to_restart (ctx st) = Some rl →
           finished_lanczos (ctx st) = Some fl →
           NoDup (key <$> (rl ++ fl)%list).

(** A fresh job for the vector [v], on the folder [pf]. *)
Definition is_fresh_for (pf : RemoteData) (v : vec3) (j : CalcJobNode) : Prop :=
  job_vector j = Some (vec_values v)
  ∧ ∃ m, 0 <= m ∧ calc_label j = prod_label m 1
         ∧ i_parent_folder (calc_inputs j) = pf.

Definition entry_state (world : World) (inputs : WcInputs) : WcState :=
  let scf := run_pw_base world in
  let c := set_finished_lanczos []
             (set_lanczos_to_restart [] (set_all_lanczos_computed false ctx_empty)) in
  let c := set_scf_results (scf_remote_folder scf) (scf_kpoints scf)
             (set_scf_workchain scf c) in
  let c := if should_run_upf2plotcore inputs
           then set_upf2plotcore_node (run_shell_upf2plotcore world) c else c in
  let rs := if should_run_upf2plotcore inputs
            then [RLaunchScf; RLaunchShellJob] else [RLaunchScf] in
  mkWcState c rs [] outputs_empty.

Module Demo.
Definition parameters : gmap string (gmap string value) :=
  {[ "INPUT_XSPECTRA" := {[ "calculation" := VStr "xanes_dipole" ]} ]}.

Definition e100 : vec3 := (Qc_of_Z 1, Qc_of_Z 0, Qc_of_Z 0).
Definition e010 : vec3 := (Qc_of_Z 0, Qc_of_Z 1, Qc_of_Z 0).
Definition e001 : vec3 := (Qc_of_Z 0, Qc_of_Z 0, Qc_of_Z 1).

Definition inputs (vectors : list vec3) (powder : bool) : WcInputs :=
  mkWcInputs vectors ["Si"; "X"; "O"] "X" powder false (Some "plotcore")
             parameters 3600 parameters.

Definition scf : ScfNode := mkScfNode true (ScfRemote "scf") [2; 2; 2] ∅.

Definition float_of (v : option value) : Qc :=
  match v with Some (VFloat q) => q | _ => Qc_of_Z 0 end.

(** The polarisation vector that the parser reads back from the input. *)
Definition parsed_vector (i : XsInputs) : vec3 :=
  match i_parameters i !! "INPUT_XSPECTRA" with
  | Some nl => (float_of (nl !! "xepsilon(1)"), float_of (nl !! "xepsilon(2)"),
                float_of (nl !! "xepsilon(3)"))
  | None => (Qc_of_Z 0, Qc_of_Z 0, Qc_of_Z 0)
  end.

Definition spectrum : XyArrays :=
  mkXy ("energy", [Qc_of_Z 0; Qc_of_Z 1], "eV")
       (Some [(YStr "sigma_tot", [Qc_of_Z 2; Qc_of_Z 4], "n/a")]) I.

(** A world in which the processes with the listed labels end with the
    listed exit status and every other process succeeds. *)
Definition world (failing : list (string * Z)) : World :=
  mkWorld scf "plotcore"
    (λ i, mkXsOutcome (Some (default 0 (kw_lookup (i_label i) failing)))
                      (parsed_vector i) spectrum).

(** The state after the first submission pass. *)
Definition first_batch (w : World) (i : WcInputs) : WcState :=
  match run_all_xspectra_prod w i (entry_state w i) with
  | Ok (_, st) => st
  | Raise _ => state_init
  end.

(** The loop head after the first inspection. *)
Definition second_head (w : World) (i : WcInputs) : WcState :=
  match inspect_all_xspectra_prod (first_batch w i) with
  | Ok (_, st) => st
  | Raise _ => state_init
  end.
End Demo.

(** What a run shows of a called process: label, exit status, and the label
    of the calculation whose folder is its parent ([None]: the SCF folder). *)
Definition job_summary (c : CalcJobNode) : string * option Z * option string :=
  (calc_label c, exit_status c, calc_label <$> creator (i_parent_folder (calc_inputs c))).

(** The exit code of a finished run and the processes it called. *)
Definition run_summary (o : Outcome) : option (Z * list (string * option Z * option string)) :=
  match o with
  | Finished code st => Some (code, job_summary <$> called st)
  | _ => None
  end.

(** The exit code with which a step returns. *)
Definition step_code {A} (r : Res (A * WcState)) : option A :=
  match r with Ok (a, _) => Some a | Raise _ => None end.

(** Steps that leave the [powder_spectrum] output alone and do not report
    the missing-C-axis warning. *)
Definition quiet (st st' : WcState) : Prop :=
  powder_spectrum (outputs st') = powder_spectrum (outputs st)
  ∧ ∃ rs, reports st' = (reports st ++ rs)%list ∧ RWarnMissingC ∉ rs.

Definition keeps_quiet {A} (m : M A) : Prop :=
  ∀ st a st', m st = Ok (a, st') → quiet st st'.

Definition is_powder_warning (r : Report) : bool :=
  match r with RWarnMissingC | RWarnNoBasis => true | _ => false end.

(** Of a finished run: the exit code, the vectors of the accepted jobs, the
    powder output, the powder warnings reported. *)
Definition powder_summary (o : Outcome)
    : option (Z * list vec3 * option XyArrays * list Report) :=
  match o with
  | Finished code st =>
      Some (code, res_epsilon_vector <$> default [] (finished_lanczos (ctx st)),
            powder_spectrum (outputs st), List.filter is_powder_warning (reports st))
  | _ => None
  end.

(** Of a finished run: the exit code, the called processes, the accepted
    replots, whether [output_spectra] was attached. *)
Definition replot_summary (o : Outcome)
    : option (Z * list (string * option Z * option string) * list string * bool) :=
  match o with
  | Finished code st =>
      Some (code, job_summary <$> called st,
            calc_label <$> default [] (finished_replots (ctx st)),
            bool_decide (is_Some (output_spectra (outputs st))))
  | _ => None
  end.

(** The element's text yields a count of core states other than zero. *)
Definition element_passes (shelljobs : gmap string string) (label : string) : Prop :=
  ∃ content tok n,
    shelljobs !! ("upf2plotcore_" ++ label) = Some content
    ∧ PyStr.split " " (PyStr.take 40 content) !! 5%nat = Some tok
    ∧ PyStr.int tok = Some n ∧ n ≠ 0.

(** The element's text yields zero core states. *)
Definition element_has_no_core_state (shelljobs : gmap string string) (label : string) : Prop :=
  ∃ content tok,
    shelljobs !! ("upf2plotcore_" ++ label) = Some content
    ∧ PyStr.split " " (PyStr.take 40 content) !! 5%nat = Some tok
    ∧ PyStr.int tok = Some 0.

(** [j] is the replot of the accepted job [p]. *)
Definition is_replot_of (p j : CalcJobNode) : Prop :=
  i_parent_folder (calc_inputs j) = remote_folder p
  ∧ job_vector j = Some (vec_values (res_epsilon_vector p))
  ∧ ∃ base, job_base p = Ok base ∧ calc_label j = PyStr.replace "prod" "plot" base.

(** The inputs of the replot of the accepted job [p]. *)
Definition replot_inputs (inputs : WcInputs) (nl0 : gmap string value) (kp : KpointsData)
    (core : SinglefileData) (p : CalcJobNode) (base : string) : XsInputs :=
  mkXsInputs (PyStr.replace "prod" "plot" base) (PyStr.replace "prod" "plot" base)
    (<["INPUT_XSPECTRA" := set_xepsilon (res_epsilon_vector p) nl0]>
       (xs_plot_parameters inputs))
    (remote_folder p) kp core.

Definition count_true (bs : list bool) : nat := length (filter (λ b, b = true) bs).

Definition dichoric_average (ya yc : list Qc) : list Qc :=
  zip_with (λ a c, (Qc_of_Z 2 * a + c) / Qc_of_Z 3)%Qc ya yc.
Definition trichoric_average (ya yb yc : list Qc) : list Qc :=
  zip_with (λ ab c, (ab.1 + ab.2 + c) / Qc_of_Z 3)%Qc (zip ya yb) yc.

(** the x array and the first y array of a spectrum *)
Definition x_array (s : XyData) : list Qc := (get_x (xy_arrays s)).1.2.
Definition y_array (s : XyData) : option (list Qc) :=
  ys ← y_arrays (xy_arrays s);
  (λ y : yname * list Qc * string, y.1.2) <$> head ys.

(** * Further code of the work chains *)

(** ** Input validation of XspectraBaseWorkChain *)

(** The double quote character of the messages. *)
Definition dquote : string := String (ascii_of_nat 34) EmptyString.

(** [validate_inputs(inputs, _)] of base.py: the message returned, [None]
    when the inputs are accepted.  [upf2plotcore_code_given] tells whether
    ['upf2plotcore_code'] is among the inputs. *)
Definition validate_inputs (inputs : WcInputs) (upf2plotcore_code_given : bool)
    : option string :=
  let eps_vector_list := eps_vectors inputs in
  if (length eps_vector_list =? 0)%nat then
    Some "Error: eps_vectors list empty."
  else if negb (bool_decide (is_Some (core_wfc_data inputs))) && negb upf2plotcore_code_given then
    Some "Error: either a core wavefunction file or a code node for upf2plotcore.sh must be provided."
  else
    let abs_atom_found :=
      fold_left (λ found kind, if String.eqb kind (abs_atom_marker inputs) then true else found)
                (structure_kinds inputs) false in
    if negb abs_atom_found then
      Some ("Error: the marker given for the absorbing atom (" ++ dquote
            ++ abs_atom_marker inputs ++ dquote
            ++ ") does not appear in the structure provided.")
    else None.

(** ** Notions on runs of the work chain *)

(** The node of a process is what the engine made of its inputs. *)
Definition from_world (world : World) (c : CalcJobNode) : Prop :=
  calc_outcome c = run_xspectra world (calc_inputs c).

(** Steps that call processes through [submit] only. *)
Definition keeps_from_world {A} (world : World) (m : M A) : Prop :=
  ∀ st a st', m st = Ok (a, st') →
    Forall (from_world world) (called st) → Forall (from_world world) (called st').

(** Every XspectraCalculation runs out of time. *)
Definition always_times_out (world : World) : Prop :=
  ∀ i, o_exit_status (run_xspectra world i) = Some 400.

(** Every XspectraCalculation finishes successfully and its parser finds a
    spectrum. *)
Definition all_succeed (world : World) : Prop :=
  ∀ i, o_exit_status (run_xspectra world i) = Some 0
       ∧ ∃ y ys, y_arrays (o_spectra (run_xspectra world i)) = Some (y :: ys).

(** The spectra of all calculations have as many points. *)
Definition same_grid (world : World) : Prop :=
  ∀ i j, length (get_x (o_spectra (run_xspectra world i))).1.2
         = length (get_x (o_spectra (run_xspectra world j))).1.2.

(** What holds at every loop head of a run in which every calculation runs
    out of time. *)
Definition restarting (world : World) (inputs : WcInputs) (st : WcState) : Prop :=
  loop_inv inputs st
  ∧ all_lanczos_computed (ctx st) = Some false
  ∧ Forall (from_world world) (called st)
  ∧ ∃ rl, lanczos_to_restart (ctx st) = Some rl
          ∧ (rl = [] ∨ length rl = length (eps_vectors inputs)).

(** The replots that [run_all_xspectra_plot] binds for accepted jobs listed
    with their label bases: the context key and the process. *)
Definition plot_keyed (world : World) (inputs : WcInputs) (nl0 : gmap string value)
    (kp : KpointsData) (core : SinglefileData) (keyed : list (string * CalcJobNode))
    : list (string * CalcJobNode) :=
  (λ kv, (kv.1 ++ "_plot", run_job world (replot_inputs inputs nl0 kp core kv.2 kv.1)))
    <$> keyed.

(** The reports of the replot inspection on the given replots. *)
Definition replot_reports (replots : list CalcJobNode) : list Report :=
  (λ c, RReplotFailed (exit_status c)) <$> filter (λ c, is_finished_ok c = false) replots.

(** The entry of a spectrum in the output of [get_all_spectra]. *)
Definition sigma_entry (spectrum_node : XyData) : option (yname * list Qc * string) :=
  calc_node ← xy_creator spectrum_node;
  ys ← y_arrays (xy_arrays spectrum_node);
  y ← head ys;
  Some (YSigma (res_epsilon_vector calc_node), y.1.2, y.2).

(** The production jobs of the first pass, under their context keys. *)
Definition prod_jobs (world : World) (inputs : WcInputs) (nl0 : gmap string value) (x : Z)
    (core : SinglefileData) : list (string * CalcJobNode) :=
  fresh_keyed (fresh_inputs inputs nl0 x (scf_remote_folder (run_pw_base world))
                            (scf_kpoints (run_pw_base world)) core)
              world 0 (eps_vectors inputs).

(** Their replots, under their context keys. *)
Definition plot_jobs (world : World) (inputs : WcInputs) (nl0 nlp : gmap string value) (x : Z)
    (core : SinglefileData) : list (string * CalcJobNode) :=
  plot_keyed world inputs nlp (scf_kpoints (run_pw_base world)) core
             (prod_jobs world inputs nl0 x core).

(** The state in which the replot stage is entered when every job of the
    first pass was accepted. *)
Definition after_single_pass (world : World) (inputs : WcInputs)
    (keyed : list (string * CalcJobNode)) (st : WcState) : Prop :=
  finished_lanczos (ctx st) = Some keyed.*2
  ∧ xspectra_calc_labels (ctx st) = Some keyed.*1
  ∧ finished_replots (ctx st) = None
  ∧ scf_workchain (ctx st) = Some (run_pw_base world)
  ∧ scf_kpoint_mesh (ctx st) = Some (scf_kpoints (run_pw_base world))
  ∧ (∀ core, core_available inputs (ctx (entry_state world inputs)) core →
             core_available inputs (ctx st) core)
  ∧ called st = keyed.*2
  ∧ outputs st = outputs_empty.

(** Worlds used to exercise the statements. *)
Module Cases.
(** Every XspectraCalculation runs out of time. *)
Definition timing_out_world : World :=
  mkWorld Demo.scf "plotcore"
          (λ i, mkXsOutcome (Some 400) (Demo.parsed_vector i) Demo.spectrum).

(** Every XspectraCalculation succeeds and its parser reports the vector
    [1, 1, 0]. *)
Definition diagonal_world : World :=
  mkWorld Demo.scf "plotcore"
          (λ i, mkXsOutcome (Some 0) (Qc_of_Z 1, Qc_of_Z 1, Qc_of_Z 0) Demo.spectrum).

End Cases.

(** ** The k-point line of XspectraCalculation (calculations/xspectra.py) *)

(** [str(l)] for a list whose elements have the given [repr]s. *)
Definition str_of_list (reprs : list string) : string :=
  "[" ++ PyStr.join ", " reprs ++ "]".

(** [_get_following_text]: [mesh] and [offset] are the two lists returned
    by [get_kpoints_mesh()], the integers of the mesh and the [repr]s of
    the floats of the offset. *)
Definition get_following_text (mesh : list Z) (offset : list string) : string :=
  let full_list := ((PyStr.of_int <$> mesh) ++ offset)%list in
  let list_string := str_of_list full_list in
  let kpoint_string :=
    PyStr.replace "," "" (PyStr.replace "]" "" (PyStr.replace "[" "" list_string)) in
  kpoint_string.

(** A text without brackets and commas. *)
Definition plain (s : string) : bool :=
  all_chars (λ c, negb (Ascii.eqb c "[") && negb (Ascii.eqb c "]") && negb (Ascii.eqb c ","))
            s.

(** The three replacements of [_get_following_text]. *)
Definition squeeze (s : string) : string :=
  PyStr.replace "," "" (PyStr.replace "]" "" (PyStr.replace "[" "" s)).

(** ** Further steps of XspectraCrystalWorkChain *)

Module CrystalSteps.

(** The key under which [get_xspectra_structures] files a structure:
    the first two pieces of [Key.split('_')], joined again. *)
Definition structure_key (Key : string) : Res string :=
  let parts := PyStr.split "_" Key in
  a ← expect IndexError (parts !! 0%nat);
  b ← expect IndexError (parts !! 1%nat);
  Ok (a ++ "_" ++ b).

(** The dictionary comprehension that builds [structures_to_process] from
    the entries left in [result]. *)
Definition structures_to_process {A} (result : list (string * A)) : Res (list (string * A)) :=
  fold_left (λ acc kv, d ← acc; k ← structure_key kv.1; Ok (kw_set k kv.2 d)) result (Ok []).

(** [run_upf2plotcore] of crystal.py: the dictionary given to [ToContext].
    [stdout_of] is the content of the [stdout] node of the ShellJob run on
    a pseudopotential. *)
Definition run_upf2plotcore {Upf} (gipaw_pseudos : gmap string Upf) (stdout_of : Upf → string)
    (elements_list : list string) : Res (gmap string string) :=
  fold_left (λ acc element,
               shelljobs ← acc;
               upf ← expect KeyError (gipaw_pseudos !! element);
               Ok (<["upf2plotcore_" ++ element := stdout_of upf]> shelljobs))
            elements_list (Ok ∅).

(** [ToContext]: the entries are written into the context. *)
Definition to_context (shelljobs ctx : gmap string string) : gmap string string :=
  shelljobs ∪ ctx.

End CrystalSteps.

(** * Core-hole inputs (workflows/functions/get_core_hole_inputs.py)

    The functions of this file read and write Python dictionaries that the
    caller and the result share, so dictionaries live in a store and values
    refer to them by location.  Numbers are exact rationals; [True] and
    [False] count as 1 and 0 in arithmetic and comparisons, as in Python.  A
    dictionary keeps the insertion order of its keys. *)

Module CoreHole.

Inductive pyval : Type :=
  | PNone
  | PBool (b : bool)
  | PNum (q : Qc)
  | PStr (s : string)
  | PRef (l : nat).

(** A dictionary, and the store: the dictionary objects, by location. *)
Definition dict : Type := list (string * pyval).

Inductive err : Type := KeyError | TypeError | AttributeError | UnboundLocalError.

Inductive outcome (A : Type) : Type :=
  | Done (a : A) (h : list dict)
  | Fail (e : err).
Arguments Done {A} a h.
Arguments Fail {A} e.

(** Computations on the store that may raise. *)
Definition H (A : Type) : Type := list dict → outcome A.

Definition ret {A} (a : A) : H A := λ h, Done a h.
Definition fail {A} (e : err) : H A := λ _, Fail e.
Definition bind {A B} (m : H A) (f : A → H B) : H B :=
  λ h, match m h with
       | Done a h' => f a h'
       | Fail e => Fail e
       end.
Definition expect_some {A} (e : err) (o : option A) : H A :=
  match o with Some a => ret a | None => fail e end.

Declare Scope heap_scope.
Delimit Scope heap_scope with heap.
Notation "x <~ y ; z" := (bind y (λ x, z))
  (at level 20, y at level 100, z at level 200, only parsing) : heap_scope.
Notation "' x <~ y ; z" := (bind y (λ x, z))
  (at level 20, x pattern, y at level 100, z at level 200, only parsing) : heap_scope.

Fixpoint for_each {A S} (body : S → A → H S) (l : list A) (s : S) : H S :=
  match l with
  | [] => ret s
  | a :: l' => bind (body s a) (λ s', for_each body l' s')
  end.

(** ** Values *)

Definition num_of (v : pyval) : option Qc :=
  match v with
  | PNum q => Some q
  | PBool b => Some (if b then Qc_of_Z 1 else Qc_of_Z 0)
  | _ => None
  end.

(** [bool(v)] *)
Definition truthy (v : pyval) : H bool :=
  λ h, Done (match v with
             | PNone => false
             | PBool b => b
             | PNum q => negb (Qc_eq_bool q (Qc_of_Z 0))
             | PStr s => negb (String.eqb s "")
             | PRef l => match h !! l with Some [] => false | _ => true end
             end) h.

(** [v + q] and [v - q] for a number [q] *)
Definition py_add (v : pyval) (q : Qc) : H pyval :=
  match num_of v with
  | Some x => ret (PNum (x + q)%Qc)
  | None => fail TypeError
  end.

(** [v > 0] and [v < 0] *)
Definition py_gt0 (v : pyval) : H bool :=
  match num_of v with
  | Some x => ret (bool_decide (Qc_of_Z 0 < x)%Qc)
  | None => fail TypeError
  end.
Definition py_lt0 (v : pyval) : H bool :=
  match num_of v with
  | Some x => ret (bool_decide (x < Qc_of_Z 0)%Qc)
  | None => fail TypeError
  end.

(** [v == q] for a number and [v == s] for a string *)
Definition eq_num (v : pyval) (q : Qc) : bool :=
  match num_of v with Some x => Qc_eq_bool x q | None => false end.
Definition eq_str (v : pyval) (s : string) : bool :=
  match v with PStr t => String.eqb t s | _ => false end.

(** ** Dictionaries in the store *)

(** The dictionary a value refers to; [e] is raised on any other value. *)
Definition the_dict (e : err) (v : pyval) : H (nat * dict) :=
  λ h, match v with
       | PRef l => match h !! l with Some d => Done (l, d) h | None => Fail e end
       | _ => Fail e
       end.

(** [v[k]] *)
Definition get_item (v : pyval) (k : string) : H pyval :=
  bind (the_dict TypeError v) (λ ld, expect_some KeyError (kw_lookup k ld.2)).

(** [v.get(k, dflt)] *)
Definition get_default (v : pyval) (k : string) (dflt : pyval) : H pyval :=
  bind (the_dict AttributeError v) (λ ld, ret (default dflt (kw_lookup k ld.2))).

(** [v[k] = x] *)
Definition set_item (v : pyval) (k : string) (x : pyval) : H unit :=
  bind (the_dict TypeError v) (λ ld h, Done tt (<[ld.1 := kw_set k x ld.2]> h)).

(** [k in v] *)
Definition contains (v : pyval) (k : string) : H bool :=
  bind (the_dict TypeError v) (λ ld, ret (bool_decide (is_Some (kw_lookup k ld.2)))).

(** A new dictionary object. *)
Definition alloc (d : dict) : H pyval := λ h, Done (PRef (length h)) (h ++ [d])%list.

(** [v.copy()]: a new object with the same entries. *)
Definition copy (v : pyval) : H pyval :=
  bind (the_dict AttributeError v) (λ ld, alloc ld.2).

(** ** The structure and the symmetry data *)

(** An entry of [equivalent_sites_data]. *)
Record site_data : Type := mkSiteData {
  site_index : Z;
  kind_name : string;
}.

Local Open Scope heap_scope.

(** [not site_index] for [None] or an integer *)
Definition no_site_index (site_index : option Z) : bool :=
  match site_index with None => true | Some z => z =? 0 end.

(** Body of the loop over [equivalent_sites_data.values()]; the local
    variable is [target_site_mag], unbound ([None]) at first. *)
Definition afm_site_step (starting_mag : pyval) (target_site_index : option Z)
    (target_site_mag : option pyval) (value : site_data) : H (option pyval) :=
  idx <~ expect_some UnboundLocalError target_site_index ;
  if site_index value =? idx then
    let target_site_kind := kind_name value in
    mag <~ get_item starting_mag target_site_kind ;
    ret (Some mag)
  else ret target_site_mag.

(** [_process_afm_system] on its keyword arguments; [sites] lists
    [site.kind_name] for the sites of the structure. *)
Definition process_afm_system (sites : list string)
    (equivalent_sites_data : list (string * site_data))
    (starting_mag tot_mag : pyval) (abs_atom_marker : string) (site_index : option Z)
    (treatment : string) : H (pyval * pyval) :=
  final_starting_mag <~ copy starting_mag ;
  let target_site_index :=
    if no_site_index site_index then Crystal.list_index abs_atom_marker sites
    else site_index in
  target_site_mag <~
    for_each (afm_site_step starting_mag target_site_index) equivalent_sites_data.*2 None ;
  target_site_mag <~ expect_some UnboundLocalError target_site_mag ;
  _ <~ set_item final_starting_mag abs_atom_marker target_site_mag ;
  tot_mag <~
    (if negb (bool_decide (treatment ∈ ["full"; "FCH"])) then
       pos <~ py_gt0 target_site_mag ;
       if pos then py_add tot_mag (Qc_of_Z 1) else py_add tot_mag (Qc_of_Z (-1))
     else ret tot_mag) ;
  ret (final_starting_mag, tot_mag).

(** The loop that looks for magnetisations of both signs; it is left as
    soon as both have been seen. *)
Fixpoint afm_scan (values : list pyval) (positive_mag negative_mag : bool) : H bool :=
  match values with
  | [] => ret (positive_mag && negative_mag)
  | value :: values' =>
      pos <~ py_gt0 value ;
      '(positive_mag, negative_mag) <~
         (if pos then ret (true, negative_mag)
          else neg <~ py_lt0 value ;
               ret (positive_mag, if neg then true else negative_mag)) ;
      if positive_mag && negative_mag then ret true
      else afm_scan values' positive_mag negative_mag
  end.

(** The block of [get_core_hole_inputs] that sets [system_afm]. *)
Definition system_is_afm (starting_mag : pyval) : H bool :=
  t <~ truthy starting_mag ;
  if t then
    ld <~ the_dict AttributeError starting_mag ;
    afm_scan ld.2.*2 false false
  else ret false.

(** The treatment branches of [get_core_hole_inputs]: they rebind
    [starting_mag], [tot_mag] and [tot_charge]. *)
Definition apply_treatment (sites : list string) (treatment : string)
    (equivalent_sites_data : list (string * site_data))
    (updated_parameters : pyval) (abs_atom_marker : string) (site_index : option Z)
    (system_afm : bool) (starting_mag tot_mag tot_charge : pyval)
    : H (pyval * pyval * pyval) :=
  if bool_decide (treatment ∈ ["FCH"; "full"]) then
    tot_charge <~ py_add tot_charge (Qc_of_Z 1) ;
    t <~ truthy starting_mag ;
    if t then
      if system_afm then
        r <~ process_afm_system sites equivalent_sites_data starting_mag tot_mag
                                abs_atom_marker site_index treatment ;
        ret (r.1, r.2, tot_charge)
      else
        _ <~ set_item starting_mag abs_atom_marker (PNum (Qc_of_Z 1)) ;
        ret (starting_mag, tot_mag, tot_charge)
    else ret (starting_mag, tot_mag, tot_charge)
  else if bool_decide (treatment ∈ ["HCH"; "half"]) then
    tot_charge <~ py_add tot_charge (Q2Qc (1 # 2)) ;
    t <~ truthy starting_mag ;
    if t then
      _ <~ set_item starting_mag abs_atom_marker (PNum (Qc_of_Z 1)) ;
      ret (starting_mag, tot_mag, tot_charge)
    else ret (starting_mag, tot_mag, tot_charge)
  else if bool_decide (treatment ∈ ["XCH"; "xch_fixed"; "xch_smear"]) then
    if system_afm then
      r <~ process_afm_system sites equivalent_sites_data starting_mag tot_mag
                              abs_atom_marker site_index treatment ;
      ret (r.1, r.2, tot_charge)
    else
      system <~ get_item updated_parameters "SYSTEM" ;
      nspin <~ get_item system "nspin" ;
      if eq_num nspin (Qc_of_Z 2) then
        _ <~ set_item starting_mag abs_atom_marker (PNum (Qc_of_Z 1)) ;
        tot_mag <~ py_add tot_mag (Qc_of_Z 1) ;
        ret (starting_mag, tot_mag, tot_charge)
      else
        starting_mag <~ alloc [(abs_atom_marker, PNum (Qc_of_Z 1))] ;
        system <~ get_item updated_parameters "SYSTEM" ;
        _ <~ set_item system "nspin" (PNum (Qc_of_Z 2)) ;
        fixed <~
          (if String.eqb treatment "xch_fixed" then ret true
           else system <~ get_item updated_parameters "SYSTEM" ;
                occupations <~ get_default system "occupations" PNone ;
                ret (eq_str occupations "fixed")) ;
        tot_mag <~ (if fixed : bool then py_add tot_mag (Qc_of_Z 1) else ret tot_mag) ;
        ret (starting_mag, tot_mag, tot_charge)
  else ret (starting_mag, tot_mag, tot_charge).

(** The closing block of [get_core_hole_inputs], which writes the result
    into [updated_parameters['SYSTEM']]. *)
Definition write_back (updated_parameters starting_mag tot_mag tot_charge : pyval) : H unit :=
  pos <~ py_gt0 tot_charge ;
  _ <~ (if pos then
          system <~ get_item updated_parameters "SYSTEM" ;
          set_item system "tot_charge" tot_charge
        else ret tt) ;
  system <~ get_item updated_parameters "SYSTEM" ;
  has_nspin <~ contains system "nspin" ;
  if has_nspin then
    system <~ get_item updated_parameters "SYSTEM" ;
    nspin <~ get_item system "nspin" ;
    if eq_num nspin (Qc_of_Z 2) then
      system <~ get_item updated_parameters "SYSTEM" ;
      _ <~ set_item system "starting_magnetization" starting_mag ;
      t <~ truthy tot_mag ;
      if t then
        system <~ get_item updated_parameters "SYSTEM" ;
        set_item system "tot_magnetization" tot_mag
      else ret tt
    else ret tt
  else ret tt.

(** [get_core_hole_inputs] on the structure, the treatment, the symmetry
    data, the parameters and the two keyword arguments it reads. *)
Definition get_core_hole_inputs (sites : list string) (treatment : string)
    (equivalent_sites_data : list (string * site_data)) (parameters : pyval)
    (abs_atom_marker : string) (site_index : option Z) : H pyval :=
  updated_parameters <~ copy parameters ;
  system <~ get_item parameters "SYSTEM" ;
  starting_mag <~ get_default system "starting_magnetization" PNone ;
  system <~ get_item parameters "SYSTEM" ;
  tot_mag <~ get_default system "tot_magnetization" PNone ;
  system <~ get_item parameters "SYSTEM" ;
  tot_charge <~ get_default system "tot_charge" (PNum (Qc_of_Z 0)) ;
  system_afm <~ system_is_afm starting_mag ;
  r <~ apply_treatment sites treatment equivalent_sites_data updated_parameters
                       abs_atom_marker site_index system_afm starting_mag tot_mag tot_charge ;
  _ <~ write_back updated_parameters r.1.1 r.1.2 r.2 ;
  ret updated_parameters.

(** ** Notions used to state what the functions leave alone *)

(** A reference is either to one of the objects [W] that may be written or
    to an object created after the first [n]. *)
Definition writable (n : nat) (W : nat → Prop) (v : pyval) : Prop :=
  ∀ l, v = PRef l → (l < n)%nat → W l.

(** [m], run on a store of at least [n] objects in which the objects
    [prot] have the given entries, only grows the store, leaves the first
    [n] objects outside [W] as they are, and returns a value in [Q]. *)
Definition preserves {A} (n : nat) (W : nat → Prop) (prot : list (nat * dict))
    (m : H A) (Q : A → Prop) : Prop :=
  ∀ h a h',
    (n <= length h)%nat →
    Forall (λ ld, h !! ld.1 = Some ld.2) prot →
    m h = Done a h' →
    (length h <= length h')%nat
    ∧ (∀ l, (l < n)%nat → ¬ W l → h' !! l = h !! l)
    ∧ Q a.

(** A value that compares as greater, or as less, than zero. *)
Definition positive_moment (v : pyval) : bool :=
  match num_of v with Some x => bool_decide (Qc_of_Z 0 < x)%Qc | None => false end.
Definition negative_moment (v : pyval) : bool :=
  match num_of v with Some x => bool_decide (x < Qc_of_Z 0)%Qc | None => false end.

(** The site whose magnetisation [_process_afm_system] looks for. *)
Definition target_site (sites : list string) (abs_atom_marker : string)
    (site_index : option Z) : option Z :=
  if no_site_index site_index then Crystal.list_index abs_atom_marker sites
  else site_index.

End CoreHole.

(** * Verification *)

Import Crystal.

Example split_label : PyStr.split "_" "xas_prod_0_iter_1" = ["xas"; "prod"; "0"; "iter"; "1"].
Proof. reflexivity. Qed.

Example int_examples :
  PyStr.int "12" = Some 12 /\ PyStr.int (" -3" ++ String "010" "") = Some (-3) /\ PyStr.int "1_000" = Some 1000
  /\ PyStr.int "1__0" = None /\ PyStr.int "" = None /\ PyStr.int "states" = None
  /\ PyStr.int "_1" = None /\ PyStr.int "1_" = None /\ PyStr.int "007" = Some 7.
Proof. repeat split; reflexivity. Qed.

Example replace_example : PyStr.replace "prod" "plot" "xas_prod_0" = "xas_plot_0".
Proof. reflexivity. Qed.

Example sorted_example : PyStr.sorted ["X"; "O"; "Si"; "Al"] = ["Al"; "O"; "Si"; "X"].
Proof. reflexivity. Qed.

Example of_int_example : PyStr.of_int 12 = "12" /\ PyStr.of_int 0 = "0".
Proof. split; reflexivity. Qed.

(** ** Facts on Python strings *)

Lemma all_chars_impl (P Q : ascii → bool) s :
  (∀ c, P c = true → Q c = true) → all_chars P s = true → all_chars Q s = true.
Proof.
  intros HPQ. induction s as [|c s IH]; simpl; [done|].
  rewrite !andb_true_iff. intros [? ?]. split; auto.
Qed.

Lemma split_no_sep sep a : no_char sep a = true → PyStr.split sep a = [a].
Proof.
  unfold no_char. induction a as [|c a IH]; simpl; [done|].
  rewrite andb_true_iff, negb_true_iff. intros [-> Ha]. by rewrite IH.
Qed.

Lemma split_app_sep sep a b :
  no_char sep a = true →
  PyStr.split sep (a ++ String sep b) = a :: PyStr.split sep b.
Proof.
  unfold no_char. induction a as [|c a IH]; simpl.
  - intros _. by rewrite Ascii.eqb_refl.
  - rewrite andb_true_iff, negb_true_iff. intros [-> Ha]. by rewrite IH.
Qed.

Lemma split_pieces_no_sep sep s :
  Forall (λ p, no_char sep p = true) (PyStr.split sep s).
Proof.
  unfold no_char. induction s as [|c s IH]; simpl.
  - by repeat constructor.
  - destruct (Ascii.eqb c sep) eqn:E.
    + by constructor.
    + destruct (PyStr.split sep s) as [|h t].
      { constructor; [simpl; by rewrite E | constructor]. }
      inversion_clear IH. constructor; [|done]. simpl. by rewrite E.
Qed.

Lemma uint_all_digits d : all_chars PyStr.is_digit (NilEmpty.string_of_uint d) = true.
Proof. induction d; simpl; auto. Qed.

Lemma digit_not_space c : PyStr.is_digit c = true → PyStr.is_space c = false.
Proof.
  unfold PyStr.is_digit, PyStr.is_space.
  rewrite !andb_true_iff, orb_false_iff, !andb_false_iff, !Nat.leb_le, !Nat.leb_gt,
    Nat.eqb_neq. lia.
Qed.

Lemma digit_not_underscore c : PyStr.is_digit c = true → negb (Ascii.eqb c "_") = true.
Proof.
  intros H. destruct (Ascii.eqb_spec c "_") as [->|]; [|done]. discriminate H.
Qed.

Lemma rstrip_no_space s :
  all_chars (λ c, negb (PyStr.is_space c)) s = true → PyStr.skip_right s = s.
Proof.
  induction s as [|c s IH]; simpl; [done|].
  rewrite andb_true_iff, negb_true_iff. intros [Hc Hs]. rewrite IH, Hc by done.
  by destruct s.
Qed.

Lemma strip_digits s : all_chars PyStr.is_digit s = true → PyStr.trim s = s.
Proof.
  intros H. unfold PyStr.trim.
  assert (Hl : PyStr.skip_left s = s).
  { destruct s as [|c s]; simpl in *; [done|].
    apply andb_true_iff in H as [Hc _]. by rewrite (digit_not_space _ Hc). }
  rewrite Hl. apply rstrip_no_space.
  revert H. apply all_chars_impl. intros c Hc. by rewrite (digit_not_space _ Hc).
Qed.

Lemma int_digits_all_digits s :
  all_chars PyStr.is_digit s = true → PyStr.int_digits false s = Some s.
Proof.
  induction s as [|c s IH]; simpl; [done|].
  rewrite andb_true_iff. intros [-> Hs]. by rewrite IH.
Qed.

Lemma int_of_digits d :
  d ≠ Decimal.Nil →
  PyStr.int (NilEmpty.string_of_uint d) = Some (Z.of_uint d).
Proof.
  intros Hd. pose proof (uint_all_digits d) as Hall.
  unfold PyStr.int. rewrite strip_digits by done.
  assert (Hu : PyStr.int_unsigned (NilEmpty.string_of_uint d) = Some (Z.of_uint d)).
  { unfold PyStr.int_unsigned.
    assert (Hi : PyStr.int_digits true (NilEmpty.string_of_uint d)
                 = Some (NilEmpty.string_of_uint d)).
    { destruct d; try done; simpl in *; by rewrite int_digits_all_digits. }
    rewrite Hi. simpl. by rewrite NilEmpty.usu. }
  destruct d; try done; simpl in *; exact Hu.
Qed.

Lemma of_int_nonneg z :
  0 <= z → ∃ d, d ≠ Decimal.Nil ∧ PyStr.of_int z = NilEmpty.string_of_uint d ∧ Z.of_uint d = z.
Proof.
  intros Hz. unfold PyStr.of_int. pose proof (DecimalZ.of_to z) as Hr.
  destruct z as [|p|p]; [| |lia].
  - exists (Decimal.D0 Decimal.Nil). done.
  - simpl in *. exists (Pos.to_uint p). split; [|split; [|done]].
    + intros E. pose proof (DecimalPos.Unsigned.of_to p) as H. rewrite E in H. done.
    + unfold NilZero.string_of_uint. destruct (Pos.to_uint p) eqn:E; try done.
Qed.

Lemma int_of_int z : 0 <= z → PyStr.int (PyStr.of_int z) = Some z.
Proof.
  intros Hz. destruct (of_int_nonneg z Hz) as (d & Hd & -> & <-). by apply int_of_digits.
Qed.

Lemma of_int_no_underscore z : 0 <= z → no_char "_" (PyStr.of_int z) = true.
Proof.
  intros Hz. destruct (of_int_nonneg z Hz) as (d & Hd & -> & _).
  eapply all_chars_impl; [|apply uint_all_digits]. apply digit_not_underscore.
Qed.

Lemma of_int_inj a b : 0 <= a → 0 <= b → PyStr.of_int a = PyStr.of_int b → a = b.
Proof.
  intros Ha Hb E. pose proof (int_of_int a Ha) as H1. rewrite E, int_of_int in H1 by done.
  by injection H1.
Qed.

Lemma string_app_assoc (a b c : string) : (a ++ b) ++ c = a ++ (b ++ c).
Proof.
  induction a as [|x a IH]; [done|].
  change (String x ((a ++ b) ++ c) = String x (a ++ b ++ c)). by rewrite IH.
Qed.

Lemma split_prod_label n k :
  0 <= n → 0 <= k →
  PyStr.split "_" (prod_label n k) = ["xas"; "prod"; PyStr.of_int n; "iter"; PyStr.of_int k].
Proof.
  intros Hn Hk. unfold prod_label, prod_base.
  rewrite string_app_assoc.
  change ("xas_prod_" ++ PyStr.of_int n ++ "_iter_" ++ PyStr.of_int k)
    with ("xas" ++ String "_" ("prod" ++ String "_"
            (PyStr.of_int n ++ String "_" ("iter" ++ String "_" (PyStr.of_int k))))).
  rewrite !split_app_sep by (done || by apply of_int_no_underscore).
  by rewrite split_no_sep by (by apply of_int_no_underscore).
Qed.

Lemma first_three_prod_label n k :
  0 <= n → 0 <= k →
  first_three (PyStr.split "_" (prod_label n k)) = Ok (prod_base n).
Proof. intros Hn Hk. by rewrite split_prod_label. Qed.

Lemma prod_base_inj a b : 0 <= a → 0 <= b → prod_base a = prod_base b → a = b.
Proof.
  intros Ha Hb E. unfold prod_base in E. simpl in E. apply of_int_inj; [done..|].
  by repeat injection E as E.
Qed.

(** ** Jobs *)

Lemma add_jobs_nil st : add_jobs [] [] st = st.
Proof. destruct st. unfold add_jobs. simpl. by rewrite !app_nil_r. Qed.

Lemma add_job_add_jobs j r js rs st :
  add_jobs js rs (add_job j r st) = add_jobs (j :: js) (r :: rs) st.
Proof. unfold add_jobs, add_job. simpl. by rewrite <- !app_assoc. Qed.

Lemma insert_all_app k1 k2 m : insert_all (k1 ++ k2) m = insert_all k2 (insert_all k1 m).
Proof. unfold insert_all. by rewrite fold_left_app. Qed.

Section Fresh.
Variable world : World.
Variable inputs : WcInputs.
Variables (nl0 : gmap string value) (x : Z) (pf : RemoteData) (kp : KpointsData)
          (core : SinglefileData).
Hypothesis Hnl0 : xs_prod_parameters inputs !! "INPUT_XSPECTRA" = Some nl0.

Lemma prod_fresh_body_ok calcs labels n v st :
  scf_parent_folder (ctx st) = Some pf →
  scf_kpoint_mesh (ctx st) = Some kp →
  let j := run_job world (fresh_inputs inputs nl0 x pf kp core n v) in
  prod_fresh_body world inputs core (Some x) (calcs, labels, n) v st
  = Ok ((<[prod_base n := j]> calcs, (labels ++ [prod_base n])%list, n + 1),
        add_job j (RLaunchProd v) st).
Proof.
  intros Hpf Hkp j. unfold prod_fresh_body. mstep.
  rewrite Hnl0, Hpf, Hkp. reflexivity.
Qed.

Lemma for_each_fresh vs calcs labels n st :
  scf_parent_folder (ctx st) = Some pf →
  scf_kpoint_mesh (ctx st) = Some kp →
  let keyed := fresh_keyed (fresh_inputs inputs nl0 x pf kp core) world n vs in
  for_each (prod_fresh_body world inputs core (Some x)) vs (calcs, labels, n) st
  = Ok ((insert_all keyed calcs, (labels ++ keyed.*1)%list, n + Z.of_nat (length vs)),
        add_jobs keyed.*2 (RLaunchProd <$> vs) st).
Proof.
  revert calcs labels n st. induction vs as [|v vs IH]; intros calcs labels n st Hpf Hkp.
  - simpl. unfold m_ret. by rewrite add_jobs_nil, app_nil_r, Z.add_0_r.
  - cbn [for_each]. unfold m_bind at 1. rewrite prod_fresh_body_ok by done.
    rewrite IH by done. cbn [fresh_keyed fmap list_fmap fst snd length].
    rewrite add_job_add_jobs, <- app_assoc.
    replace (n + 1 + Z.of_nat (length vs)) with (n + Z.of_nat (S (length vs))) by lia.
    reflexivity.
Qed.
End Fresh.

(** ** Restarted jobs *)

Lemma wf_job_base c n k nl x1 x2 x3 :
  wf_job_at c n k nl x1 x2 x3 → job_base c = Ok (prod_base n).
Proof.
  intros (Hn & Hk & Hl & _). unfold job_base. rewrite Hl.
  apply first_three_prod_label; lia.
Qed.

Lemma wf_job_vector c n k nl x1 x2 x3 :
  wf_job_at c n k nl x1 x2 x3 → job_vector c = Some (x1, x2, x3).
Proof.
  intros (_ & _ & _ & Hp & H1 & H2 & H3). unfold job_vector.
  rewrite Hp. simpl. rewrite H1. simpl. rewrite H2. simpl. by rewrite H3.
Qed.

Lemma restart_wf world kp core c n k nl x1 x2 x3 :
  wf_job_at c n k nl x1 x2 x3 →
  wf_job_at (run_job world (restart_inputs kp core c n k nl)) n (k + 1)
            (<["restart_mode" := VStr "restart"]> nl) x1 x2 x3.
Proof.
  intros (Hn & Hk & Hl & Hp & H1 & H2 & H3).
  repeat split; try lia; try done.
  - unfold run_job, restart_inputs. simpl. apply lookup_insert_eq.
  - by rewrite lookup_insert_ne.
  - by rewrite lookup_insert_ne.
  - by rewrite lookup_insert_ne.
Qed.

Lemma restart_is_restart world kp core c n k nl x1 x2 x3 :
  wf_job_at c n k nl x1 x2 x3 →
  is_restart_of c (run_job world (restart_inputs kp core c n k nl)).
Proof.
  intros Hwf. pose proof (restart_wf world kp core _ _ _ _ _ _ _ Hwf) as Hwf'.
  exists n, k, nl. destruct Hwf as (Hn & Hk & Hl & Hp & H1 & H2 & H3).
  repeat split; try done.
  rewrite (wf_job_vector _ _ _ _ _ _ _ Hwf').
  symmetry. eapply wf_job_vector. repeat split; eauto.
Qed.

Section Restart.
Variable world : World.
Variables (kp : KpointsData) (core : SinglefileData).

Lemma prod_restart_body_ok calcs labels c n k nl x1 x2 x3 st :
  wf_job_at c n k nl x1 x2 x3 →
  scf_kpoint_mesh (ctx st) = Some kp →
  let j := run_job world (restart_inputs kp core c n k nl) in
  prod_restart_body world core (calcs, labels) c st
  = Ok ((<[prod_base n := j]> calcs, (labels ++ [prod_base n])%list),
        add_job j (RLaunchRestart [x1; x2; x3]) st).
Proof.
  intros (Hn & Hk & Hl & Hp & H1 & H2 & H3) Hkp j. unfold prod_restart_body. mstep.
  rewrite Hp. rewrite !lookup_insert_ne by done. rewrite H1, H2, H3, Hkp, Hl.
  rewrite split_prod_label by lia.
  cbn [last]. rewrite int_of_int by lia.
  reflexivity.
Qed.

Lemma for_each_restart rl calcs labels st :
  Forall wf_job rl →
  scf_kpoint_mesh (ctx st) = Some kp →
  ∃ keyed rs,
    Forall2 (restart_keyed world kp core) rl keyed
    ∧ for_each (prod_restart_body world core) rl (calcs, labels) st
      = Ok ((insert_all keyed calcs, (labels ++ keyed.*1)%list),
            add_jobs keyed.*2 rs st).
Proof.
  revert calcs labels st. induction rl as [|c rl IH]; intros calcs labels st Hwf Hkp.
  - exists [], []. split; [constructor|]. simpl. unfold m_ret.
    by rewrite add_jobs_nil, app_nil_r.
  - inversion_clear Hwf as [|? ? (n & k & nl & x1 & x2 & x3 & Hc) Hrl].
    cbn [for_each]. unfold m_bind at 1.
    rewrite (prod_restart_body_ok _ _ _ _ _ _ _ _ _ _ Hc Hkp).
    edestruct (IH (<[prod_base n := run_job world (restart_inputs kp core c n k nl)]> calcs)
                  (labels ++ [prod_base n])%list
                  (add_job (run_job world (restart_inputs kp core c n k nl))
                           (RLaunchRestart [x1; x2; x3]) st))
      as (keyed & rs & HF & ->); [done..|].
    eexists ((prod_base n, _) :: keyed), (_ :: rs). split.
    + constructor; [|done]. by exists n, k, nl, x1, x2, x3.
    + rewrite add_job_add_jobs, <- app_assoc. reflexivity.
Qed.
End Restart.

(** ** Binding and collecting processes *)

Lemma insert_all_lookup_notin keyed (m : gmap string CalcJobNode) k :
  k ∉ keyed.*1 → insert_all keyed m !! k = m !! k.
Proof.
  revert m. induction keyed as [|[k0 j0] keyed IH]; intros m Hk; [done|].
  cbn in Hk. apply not_elem_of_cons in Hk as [Hne Hk].
  change (insert_all keyed (<[k0 := j0]> m) !! k = m !! k).
  rewrite IH by done. by rewrite lookup_insert_ne.
Qed.

Lemma insert_all_lookup keyed (m : gmap string CalcJobNode) k j :
  NoDup keyed.*1 → (k, j) ∈ keyed → insert_all keyed m !! k = Some j.
Proof.
  revert m. induction keyed as [|[k0 j0] keyed IH]; intros m Hnd Hin.
  - by apply elem_of_nil in Hin.
  - cbn in Hnd. apply NoDup_cons in Hnd as [Hk0 Hnd].
    change (insert_all keyed (<[k0 := j0]> m) !! k = Some j).
    apply elem_of_cons in Hin as [[= -> ->]|Hin].
    + rewrite insert_all_lookup_notin by done. apply lookup_insert_eq.
    + by apply IH.
Qed.

Lemma collect_calculations_acc (key : string → string) labels jobs acc st :
  Forall2 (λ l j, named (ctx st) !! key l = Some j) labels jobs →
  for_each (λ acc label, m_bind (ctx_item (key label)) (λ c, m_ret (acc ++ [c])%list))
           labels acc st
  = Ok ((acc ++ jobs)%list, st).
Proof.
  intros HF. revert acc. induction HF as [|l j labels jobs Hl HF IH]; intros acc.
  - simpl. unfold m_ret. by rewrite app_nil_r.
  - cbn [for_each]. unfold m_bind at 1. mstep. rewrite Hl.
    rewrite IH, <- app_assoc. reflexivity.
Qed.

Lemma collect_calculations_ok (key : string → string) labels jobs st :
  Forall2 (λ l j, named (ctx st) !! key l = Some j) labels jobs →
  collect_calculations key labels st = Ok (jobs, st).
Proof. intros HF. unfold collect_calculations. by rewrite (collect_calculations_acc _ _ jobs). Qed.

Lemma keyed_bound keyed (old : gmap string CalcJobNode) :
  NoDup keyed.*1 →
  Forall2 (λ l j, (insert_all keyed ∅ ∪ old) !! l = Some j) keyed.*1 keyed.*2.
Proof.
  intros Hnd. apply Forall2_fmap, Forall_Forall2_diag, Forall_forall.
  intros [k j] Hin. simpl. apply lookup_union_Some_l. by apply insert_all_lookup.
Qed.

(** ** Inspection of a production batch *)

Lemma with_ctx_with_ctx c1 c2 r1 r2 st :
  with_ctx c2 r2 (with_ctx c1 r1 st) = with_ctx c2 (r1 ++ r2) st.
Proof. unfold with_ctx. simpl. by rewrite <- app_assoc. Qed.

Lemma set_finished_lanczos_id c fl :
  finished_lanczos c = Some fl → set_finished_lanczos fl c = c.
Proof. destruct c. simpl. by intros ->. Qed.

Lemma with_ctx_id st : with_ctx (ctx st) [] st = st.
Proof. destruct st. unfold with_ctx. simpl. by rewrite app_nil_r. Qed.

Lemma inspect_prod_body_ok acc flag c st fl :
  finished_lanczos (ctx st) = Some fl →
  is_finished_ok c = true →
  inspect_prod_body (acc, flag) c st
  = Ok (inl (acc, flag), with_ctx (set_finished_lanczos (fl ++ [c]) (ctx st)) [] st).
Proof.
  intros Hfl Hok. unfold inspect_prod_body. rewrite Hok. cbn [negb]. mstep. rewrite Hfl.
  unfold with_ctx. by rewrite app_nil_r.
Qed.

Lemma inspect_prod_body_timeout acc flag c lbl st :
  job_base c = Ok lbl →
  timed_out c = true →
  inspect_prod_body (acc, flag) c st
  = Ok (inl ((acc ++ [c])%list, true), with_ctx (ctx st) [RAddedToRestart lbl] st).
Proof.
  unfold timed_out, job_base. rewrite andb_true_iff. intros Hb [Hok H400].
  unfold inspect_prod_body. rewrite Hok. cbn [negb]. mstep. rewrite Hb, H400. reflexivity.
Qed.

Lemma inspect_prod_body_fatal acc flag c lbl st :
  job_base c = Ok lbl →
  failed_fatally c = true →
  inspect_prod_body (acc, flag) c st
  = Ok (inr ERROR_SUB_PROCESS_FAILED_XSPECTRA, with_ctx (ctx st) [RProdFailed lbl] st).
Proof.
  unfold failed_fatally, job_base. rewrite andb_true_iff, !negb_true_iff.
  intros Hb [Hok H400].
  unfold inspect_prod_body. rewrite Hok. cbn [negb]. mstep. rewrite Hb, H400. reflexivity.
Qed.

Lemma job_cases c :
  (is_finished_ok c = true ∧ timed_out c = false ∧ failed_fatally c = false)
  ∨ (is_finished_ok c = false ∧ timed_out c = true ∧ failed_fatally c = false)
  ∨ (is_finished_ok c = false ∧ timed_out c = false ∧ failed_fatally c = true).
Proof.
  unfold timed_out, failed_fatally.
  destruct (is_finished_ok c), (exit_status_is c 400); simpl; auto.
Qed.

Lemma inspect_loop_no_fatal batch acc flag st fl :
  finished_lanczos (ctx st) = Some fl →
  Forall has_base batch →
  Forall (λ c, failed_fatally c = false) batch →
  ∃ rs,
    for_each_return inspect_prod_body batch (acc, flag) st
    = Ok (inl ((acc ++ filter (λ c, timed_out c = true) batch)%list,
               flag || existsb timed_out batch),
          with_ctx (set_finished_lanczos
                      (fl ++ filter (λ c, is_finished_ok c = true) batch) (ctx st)) rs st).
Proof.
  revert acc flag st fl.
  induction batch as [|c batch IH]; intros acc flag st fl Hfl Hb Hnf.
  - exists []. simpl. unfold m_ret. rewrite !app_nil_r, orb_false_r.
    by rewrite set_finished_lanczos_id, with_ctx_id.
  - inversion_clear Hb as [|? ? [lbl Hc] Hb']. inversion_clear Hnf as [|? ? Hcf Hnf'].
    cbn [for_each_return]. unfold m_bind at 1.
    destruct (job_cases c) as [(Hok & Ht & _)|[(Hok & Ht & _)|(_ & _ & Hf)]];
      [| |congruence].
    + rewrite (inspect_prod_body_ok _ _ _ _ fl) by done.
      edestruct (IH acc flag
                   (with_ctx (set_finished_lanczos (fl ++ [c]) (ctx st)) [] st)
                   (fl ++ [c])%list) as [rs Hrs]; [reflexivity|done|done|]. rewrite Hrs.
      exists rs. rewrite with_ctx_with_ctx. cbn [existsb]. rewrite Ht.
      rewrite (filter_cons_True (λ c, is_finished_ok c = true)) by done.
      rewrite (filter_cons_False (λ c, timed_out c = true)) by congruence.
      cbn [orb]. rewrite <- app_assoc. reflexivity.
    + rewrite (inspect_prod_body_timeout _ _ _ lbl) by done.
      edestruct (IH (acc ++ [c])%list true
                   (with_ctx (ctx st) [RAddedToRestart lbl] st) fl) as [rs Hrs];
        [done|done|done|]. rewrite Hrs.
      eexists. rewrite with_ctx_with_ctx. cbn [existsb]. rewrite Ht.
      rewrite (filter_cons_False (λ c, is_finished_ok c = true)) by congruence.
      rewrite (filter_cons_True (λ c, timed_out c = true)) by done.
      rewrite orb_true_r, <- app_assoc. reflexivity.
Qed.

Lemma inspect_loop_fatal batch acc flag st fl :
  finished_lanczos (ctx st) = Some fl →
  Forall has_base batch →
  Exists (λ c, failed_fatally c = true) batch →
  ∃ c' rs,
    for_each_return inspect_prod_body batch (acc, flag) st
    = Ok (inr ERROR_SUB_PROCESS_FAILED_XSPECTRA, with_ctx c' rs st).
Proof.
  revert acc flag st fl.
  induction batch as [|c batch IH]; intros acc flag st fl Hfl Hb Hex.
  - by apply Exists_nil in Hex.
  - inversion_clear Hb as [|? ? [lbl Hc] Hb'].
    cbn [for_each_return]. unfold m_bind at 1.
    destruct (job_cases c) as [(Hok & _ & Hf)|[(Hok & Ht & Hf)|(_ & _ & Hf)]].
    + apply Exists_cons in Hex as [?|Hex]; [congruence|].
      rewrite (inspect_prod_body_ok _ _ _ _ fl) by done.
      edestruct (IH acc flag
                   (with_ctx (set_finished_lanczos (fl ++ [c]) (ctx st)) [] st)
                   (fl ++ [c])%list) as (c' & rs & Hrs); [reflexivity|done|done|]. rewrite Hrs.
      eexists _, _. by rewrite with_ctx_with_ctx.
    + apply Exists_cons in Hex as [?|Hex]; [congruence|].
      rewrite (inspect_prod_body_timeout _ _ _ lbl) by done.
      edestruct (IH (acc ++ [c])%list true
                   (with_ctx (ctx st) [RAddedToRestart lbl] st) fl) as (c' & rs & Hrs);
        [done|done|done|]. rewrite Hrs.
      eexists _, _. by rewrite with_ctx_with_ctx.
    + rewrite (inspect_prod_body_fatal _ _ _ lbl) by done.
      eexists _, _. reflexivity.
Qed.

(** ** One round of the production loop *)

Lemma get_core_wfc_data_ok inputs st core :
  core_available inputs (ctx st) core → get_core_wfc_data inputs st = Ok (core, st).
Proof.
  unfold core_available, get_core_wfc_data. destruct (core_wfc_data inputs).
  - by intros ->.
  - intros H. mstep. by rewrite H.
Qed.

Section Round.
Variable world : World.
Variable inputs : WcInputs.

Lemma run_all_fresh st nl0 x pf kp core :
  xs_prod_parameters inputs !! "INPUT_XSPECTRA" = Some nl0 →
  base_xiabs (structure_kinds inputs) (abs_atom_marker inputs) = Some x →
  scf_parent_folder (ctx st) = Some pf →
  scf_kpoint_mesh (ctx st) = Some kp →
  core_available inputs (ctx st) core →
  lanczos_to_restart (ctx st) = Some [] →
  run_all_xspectra_prod world inputs st
  = Ok (None, batch_state (fresh_keyed (fresh_inputs inputs nl0 x pf kp core) world 0
                                       (eps_vectors inputs))
                          (RLaunchProd <$> eps_vectors inputs) st).
Proof.
  intros Hnl Hx Hpf Hkp Hcore Hrl. unfold run_all_xspectra_prod.
  mstep. rewrite (get_core_wfc_data_ok _ _ core) by done.
  mstep. rewrite Hrl. cbn [length Nat.eqb]. rewrite Hx.
  rewrite (for_each_fresh world inputs nl0 x pf kp core Hnl) by done.
  reflexivity.
Qed.

Lemma run_all_restart st rl kp core :
  lanczos_to_restart (ctx st) = Some rl → rl ≠ [] →
  Forall wf_job rl →
  scf_kpoint_mesh (ctx st) = Some kp →
  core_available inputs (ctx st) core →
  ∃ keyed rs,
    Forall2 (restart_keyed world kp core) rl keyed
    ∧ run_all_xspectra_prod world inputs st = Ok (None, batch_state keyed rs st).
Proof.
  intros Hrl Hne Hwf Hkp Hcore.
  destruct (for_each_restart world kp core rl ∅ [] st Hwf Hkp) as (keyed & rs & HF & Hfe).
  exists keyed, rs. split; [done|].
  unfold run_all_xspectra_prod.
  mstep. rewrite (get_core_wfc_data_ok _ _ core) by done.
  mstep. rewrite Hrl.
  destruct rl as [|c rl]; [done|]. cbn [length Nat.eqb].
  rewrite Hfe. reflexivity.
Qed.

Lemma inspect_all_no_fatal st labels batch fl :
  xspectra_calc_labels (ctx st) = Some labels →
  Forall2 (λ l j, named (ctx st) !! l = Some j) labels batch →
  finished_lanczos (ctx st) = Some fl →
  Forall has_base batch →
  Forall (λ c, failed_fatally c = false) batch →
  ∃ rs, inspect_all_xspectra_prod st
        = Ok (None, with_ctx (inspected_ctx batch fl (ctx st)) rs st).
Proof.
  intros Hl Hb Hfl Hbase Hnf. unfold inspect_all_xspectra_prod.
  destruct (inspect_loop_no_fatal batch [] false st fl Hfl Hbase Hnf) as [rs Hloop].
  exists rs.
  mstep. rewrite Hl.
  rewrite (collect_calculations_ok _ _ batch) by done.
  rewrite Hloop. cbn [orb app].
  unfold inspected_ctx. destruct (existsb timed_out batch).
  - reflexivity.
  - reflexivity.
Qed.

Lemma inspect_all_fatal st labels batch fl :
  xspectra_calc_labels (ctx st) = Some labels →
  Forall2 (λ l j, named (ctx st) !! l = Some j) labels batch →
  finished_lanczos (ctx st) = Some fl →
  Forall has_base batch →
  Exists (λ c, failed_fatally c = true) batch →
  ∃ c' rs, inspect_all_xspectra_prod st
           = Ok (Some ERROR_SUB_PROCESS_FAILED_XSPECTRA, with_ctx c' rs st).
Proof.
  intros Hl Hb Hfl Hbase Hex. unfold inspect_all_xspectra_prod.
  destruct (inspect_loop_fatal batch [] false st fl Hfl Hbase Hex) as (c' & rs & Hloop).
  exists c', rs.
  mstep. rewrite Hl.
  rewrite (collect_calculations_ok _ _ batch) by done.
  rewrite Hloop. reflexivity.
Qed.
End Round.

(** ** Fresh jobs *)

Lemma set_xepsilon_lookup v nl :
  set_xepsilon v nl !! "xepsilon(1)" = Some (VFloat v.1.1)
  ∧ set_xepsilon v nl !! "xepsilon(2)" = Some (VFloat v.1.2)
  ∧ set_xepsilon v nl !! "xepsilon(3)" = Some (VFloat v.2).
Proof.
  destruct v as [[v1 v2] v3]. unfold set_xepsilon. simpl. repeat split.
  - rewrite !lookup_insert_ne by done. apply lookup_insert_eq.
  - rewrite lookup_insert_ne by done. apply lookup_insert_eq.
  - apply lookup_insert_eq.
Qed.

Lemma fresh_wf world inputs nl0 x pf kp core n v :
  0 <= n →
  ∃ nl, wf_job_at (run_job world (fresh_inputs inputs nl0 x pf kp core n v)) n 1 nl
                  (VFloat v.1.1) (VFloat v.1.2) (VFloat v.2).
Proof.
  intros Hn. eexists. unfold wf_job_at.
  split; [done|]. split; [lia|]. split; [reflexivity|].
  split; [apply lookup_insert_eq|]. apply set_xepsilon_lookup.
Qed.

Lemma fresh_keyed_spec world inputs nl0 x pf kp core n vs :
  0 <= n →
  let keyed := fresh_keyed (fresh_inputs inputs nl0 x pf kp core) world n vs in
  Forall keyed_wf keyed
  ∧ Forall (λ kv, ∃ m, n <= m ∧ kv.1 = prod_base m) keyed
  ∧ NoDup keyed.*1
  ∧ Forall2 (λ v kv, job_vector kv.2 = Some (vec_values v)
                     ∧ ∃ m, 0 <= m ∧ calc_label kv.2 = prod_label m 1
                            ∧ i_parent_folder (calc_inputs kv.2) = pf) vs keyed.
Proof.
  revert n. induction vs as [|v vs IH]; intros n Hn; cbn zeta.
  - cbn. repeat split; constructor.
  - destruct (IH (n + 1) ltac:(lia)) as (Hwf & Hkeys & Hnd & Hvec).
    destruct (fresh_wf world inputs nl0 x pf kp core n v Hn) as [nl Hj].
    cbn [fresh_keyed]. repeat split.
    + constructor; [|done]. split; cbn [fst snd].
      * by eexists _, _, _, _, _, _.
      * by eapply wf_job_base.
    + constructor; [exists n; split; [lia|done]|].
      eapply Forall_impl; [exact Hkeys|]. intros kv (m & Hm & ->). exists m. split; [lia|done].
    + cbn [fmap list_fmap fst]. apply NoDup_cons. split; [|done].
      intros Hin. apply list_elem_of_fmap in Hin as (kv & Hk & Hin).
      rewrite Forall_forall in Hkeys. destruct (Hkeys kv Hin) as (m & Hm & Hkm).
      rewrite Hkm in Hk. apply prod_base_inj in Hk; lia.
    + constructor; [|done]. cbn [snd]. split.
      * by eapply wf_job_vector.
      * exists n. by repeat split.
Qed.

(** ** Restart batches *)

Lemma restart_keyed_spec world kp core rl keyed :
  Forall2 (restart_keyed world kp core) rl keyed →
  Forall keyed_wf keyed
  ∧ Ok <$> keyed.*1 = job_base <$> rl
  ∧ Forall2 is_restart_of rl keyed.*2.
Proof.
  induction 1 as [|c kv rl keyed (n & k & nl & x1 & x2 & x3 & Hc & ->) HF (IH1 & IH2 & IH3)].
  - repeat split; constructor.
  - pose proof (restart_wf world kp core _ _ _ _ _ _ _ Hc) as Hj.
    repeat split.
    + constructor; [|done]. split; cbn [fst snd].
      * by eexists _, _, _, _, _, _.
      * by eapply wf_job_base.
    + cbn [fmap list_fmap fst]. cbn in IH2. rewrite IH2. f_equal.
      symmetry. by eapply wf_job_base.
    + cbn [fmap list_fmap snd]. constructor; [|done]. by eapply restart_is_restart.
Qed.

Lemma NoDup_fmap_Ok (l : list string) : NoDup (Ok <$> l) → NoDup l.
Proof. apply NoDup_fmap_1. Qed.

(** ** The loop invariant *)

Lemma xiabs_fold_bound marker l x k :
  is_Some (fold_left (xiabs_step marker) l (Some x, k)).1.
Proof.
  revert x k. induction l as [|y l IH]; intros x k; simpl; [by eexists|].
  destruct (String.eqb y marker); apply IH.
Qed.

Lemma xiabs_fold_present marker l o k :
  marker ∈ l → is_Some (fold_left (xiabs_step marker) l (o, k)).1.
Proof.
  revert o k. induction l as [|y l IH]; intros o k Hin; [by apply elem_of_nil in Hin|].
  simpl. destruct (String.eqb_spec y marker) as [->|Hne].
  - apply xiabs_fold_bound.
  - apply IH. apply elem_of_cons in Hin as [->|Hin]; done.
Qed.

Lemma base_xiabs_present kinds marker :
  marker ∈ kinds → is_Some (base_xiabs kinds marker).
Proof.
  intros Hin. unfold base_xiabs. apply xiabs_fold_present.
  unfold PyStr.sorted. by rewrite merge_sort_Permutation.
Qed.

Lemma loop_entry_inv inputs st : loop_entry inputs st → loop_inv inputs st.
Proof.
  intros (Hb & Hrl & Hfl & Hpf & Hkp & Hcore). split.
  - done.
  - done.
  - done.
  - exists []. split; [done|constructor].
  - by rewrite Hb.
  - exists []. split; [done|]. intros _. repeat split; try constructor. done.
Qed.

Lemma should_repeat_true st :
  should_repeat_xs_prod st = Ok (true, st) ↔ all_lanczos_computed (ctx st) = Some false.
Proof.
  unfold should_repeat_xs_prod. mstep.
  destruct (all_lanczos_computed (ctx st)) as [[|]|]; simpl; split; intros H; done.
Qed.

Lemma should_repeat_false st :
  all_lanczos_computed (ctx st) = Some true → should_repeat_xs_prod st = Ok (false, st).
Proof. unfold should_repeat_xs_prod. mstep. by intros ->. Qed.

Section Rounds.
Variable world : World.
Variable inputs : WcInputs.
Hypothesis Hconfig : config_ok inputs.

(** What a pass submits, from a state that satisfies the invariant. *)
Lemma round_run st :
  loop_inv inputs st →
  all_lanczos_computed (ctx st) = Some false →
  ∃ keyed rs rl fl pf,
    lanczos_to_restart (ctx st) = Some rl
    ∧ finished_lanczos (ctx st) = Some fl
    ∧ scf_parent_folder (ctx st) = Some pf
    ∧ run_all_xspectra_prod world inputs st = Ok (None, batch_state keyed rs st)
    ∧ Forall keyed_wf keyed
    ∧ NoDup keyed.*1
    ∧ (rl = [] →
       fl = []
       ∧ Forall2 (λ v kv, job_vector kv.2 = Some (vec_values v)
                          ∧ ∃ m, 0 <= m ∧ calc_label kv.2 = prod_label m 1
                                 ∧ i_parent_folder (calc_inputs kv.2) = pf)
                 (eps_vectors inputs) keyed)
    ∧ (rl ≠ [] → Forall2 is_restart_of rl keyed.*2).
Proof.
  intros [[pf Hpf] [kp Hkp] [core Hcore] (fl & Hfl & Hflok) _ (rl & Hrl & Hrlinv)] Hb.
  destruct (Hrlinv Hb) as (Hwf & Hto & Hnd & Hfirst).
  destruct Hconfig as [[nl0 Hnl0] Hmarker].
  destruct (base_xiabs_present _ _ Hmarker) as [x Hx].
  destruct rl as [|c rl].
  - pose proof (fresh_keyed_spec world inputs nl0 x pf kp core 0 (eps_vectors inputs)
                  ltac:(lia)) as (Hkwf & _ & Hknd & Hvec).
    eexists _, _, [], fl, pf. repeat split; try done.
    + by apply run_all_fresh.
    + rewrite Hfirst in Hfl by done. by injection Hfl.
  - destruct (run_all_restart world inputs st (c :: rl) kp core) as (keyed & rs & HF & Hrun);
      try done.
    destruct (restart_keyed_spec _ _ _ _ _ HF) as (Hkwf & Hkeys & Hrest).
    exists keyed, rs, (c :: rl), fl, pf. repeat split; try done.
    apply NoDup_fmap_Ok. by rewrite Hkeys.
Qed.
End Rounds.

Lemma filter_fmap_sublist {A B} (f : A → B) (P : A → Prop) `{∀ x, Decision (P x)} (l : list A) :
  NoDup (f <$> l) → NoDup (f <$> filter P l).
Proof.
  intros Hnd. eapply sublist_NoDup; [exact Hnd|]. apply fmap_sublist, sublist_filter.
Qed.

Lemma Forall_filter_keep {A} (Q P : A → Prop) `{∀ x, Decision (P x)} (l : list A) :
  Forall Q l → Forall Q (filter P l).
Proof.
  rewrite !Forall_forall. intros HQ x Hx. apply list_elem_of_filter in Hx as [_ Hx]. auto.
Qed.

Lemma Forall_filter_holds {A} (P : A → Prop) `{∀ x, Decision (P x)} (l : list A) :
  Forall P (filter P l).
Proof.
  rewrite Forall_forall. intros x Hx. by apply list_elem_of_filter in Hx as [? _].
Qed.

Lemma timed_out_existsb batch :
  existsb timed_out batch = false → filter (λ c, timed_out c = true) batch = [].
Proof.
  induction batch as [|c batch IH]; [done|]. cbn [existsb].
  rewrite orb_false_iff. intros [Hc Hb].
  rewrite filter_cons_False by congruence. by apply IH.
Qed.

Lemma timed_out_existsb_true batch :
  existsb timed_out batch = true → filter (λ c, timed_out c = true) batch ≠ [].
Proof.
  induction batch as [|c batch IH]; [done|]. cbn [existsb].
  rewrite orb_true_iff. destruct (timed_out c) eqn:E.
  - intros _. by rewrite filter_cons_True.
  - intros [?|Hb]; [done|]. rewrite filter_cons_False by congruence. by apply IH.
Qed.

Section Step.
Variable world : World.
Variable inputs : WcInputs.
Hypothesis Hconfig : config_ok inputs.

Lemma batch_inspect keyed rs st fl :
  finished_lanczos (ctx st) = Some fl →
  Forall keyed_wf keyed → NoDup keyed.*1 →
  (Forall (λ c, failed_fatally c = false) keyed.*2 ∧
   ∃ rs', inspect_all_xspectra_prod (batch_state keyed rs st)
          = Ok (None, with_ctx (inspected_ctx keyed.*2 fl (ctx (batch_state keyed rs st)))
                               rs' (batch_state keyed rs st)))
  ∨ (Exists (λ c, failed_fatally c = true) keyed.*2 ∧
     ∃ c' rs', inspect_all_xspectra_prod (batch_state keyed rs st)
               = Ok (Some ERROR_SUB_PROCESS_FAILED_XSPECTRA,
                     with_ctx c' rs' (batch_state keyed rs st))).
Proof.
  intros Hfl Hwf Hnd.
  assert (Hbase : Forall has_base keyed.*2).
  { apply Forall_fmap. eapply Forall_impl; [exact Hwf|]. intros kv [_ Hb]. by eexists. }
  assert (Hbound : Forall2 (λ l j, named (ctx (batch_state keyed rs st)) !! l = Some j)
                           keyed.*1 keyed.*2) by (by apply keyed_bound).
  destruct (decide (Exists (λ c, failed_fatally c = true) keyed.*2)) as [Hex|Hnex].
  - right. split; [done|].
    by apply (inspect_all_fatal _ keyed.*1 keyed.*2 fl).
  - left. apply not_Exists_Forall in Hnex; [|apply _].
    assert (Hnf : Forall (λ c, failed_fatally c = false) keyed.*2).
    { eapply Forall_impl; [exact Hnex|]. intros c Hc. simpl in Hc.
      by destruct (failed_fatally c). }
    split; [done|].
    by apply (inspect_all_no_fatal _ keyed.*1 keyed.*2 fl).
Qed.

(** One round that does not end the work chain. *)
Lemma round_step st st1 st2 :
  loop_inv inputs st →
  all_lanczos_computed (ctx st) = Some false →
  run_all_xspectra_prod world inputs st = Ok (None, st1) →
  inspect_all_xspectra_prod st1 = Ok (None, st2) →
  ∃ batch fl rl pf,
    finished_lanczos (ctx st) = Some fl
    ∧ lanczos_to_restart (ctx st) = Some rl
    ∧ scf_parent_folder (ctx st) = Some pf
    ∧ called st1 = (called st ++ batch)%list
    ∧ called st2 = called st1
    ∧ outputs st2 = outputs st
    ∧ Forall wf_job batch
    ∧ NoDup (job_base <$> batch)
    ∧ Forall (λ c, failed_fatally c = false) batch
    ∧ finished_lanczos (ctx st2) = Some (fl ++ filter (λ c, is_finished_ok c = true) batch)%list
    ∧ (if existsb timed_out batch
       then lanczos_to_restart (ctx st2) = Some (filter (λ c, timed_out c = true) batch)
            ∧ all_lanczos_computed (ctx st2) = Some false
       else all_lanczos_computed (ctx st2) = Some true)
    ∧ (rl = [] →
       fl = []
       ∧ Forall2 (λ v j, job_vector j = Some (vec_values v)
                         ∧ ∃ m, 0 <= m ∧ calc_label j = prod_label m 1
                                ∧ i_parent_folder (calc_inputs j) = pf)
                 (eps_vectors inputs) batch)
    ∧ (rl ≠ [] → Forall2 is_restart_of rl batch)
    ∧ loop_inv inputs st2.
Proof.
  intros Hinv Hb Hrun Hins.
  destruct (round_run world inputs Hconfig st Hinv Hb)
    as (keyed & rs & rl & fl & pf & Hrl & Hfl & Hpf & Hrun' & Hkwf & Hknd & Hfresh & Hrest).
  rewrite Hrun' in Hrun. injection Hrun as <-.
  destruct (batch_inspect keyed rs st fl Hfl Hkwf Hknd)
    as [(Hnf & rs' & Hins')|(_ & c' & rs' & Hins')];
    rewrite Hins' in Hins; [|done].
  injection Hins as <-.
  assert (Hwfb : Forall wf_job keyed.*2).
  { apply Forall_fmap. eapply Forall_impl; [exact Hkwf|]. by intros kv [? _]. }
  assert (Hndb : NoDup (job_base <$> keyed.*2)).
  { assert (E : job_base <$> keyed.*2 = Ok <$> keyed.*1).
    { clear -Hkwf. induction Hkwf as [|kv keyed [_ Hb] _ IH]; [done|].
      cbn. rewrite Hb. f_equal. exact IH. }
    rewrite E. apply NoDup_fmap_2; [|done]. by intros ? ? [=]. }
  exists keyed.*2, fl, rl, pf.
  split; [done|]. split; [done|]. split; [done|]. split; [reflexivity|].
  split; [reflexivity|]. split; [reflexivity|]. split; [done|]. split; [done|].
  split; [done|].
  split. { unfold inspected_ctx. by destruct (existsb timed_out keyed.*2). }
  split. { unfold inspected_ctx. by destruct (existsb timed_out keyed.*2). }
  split.
  { intros E. destruct (Hfresh E) as [-> HF]. split; [done|].
    by apply Forall2_fmap_r. }
  split; [done|].
  destruct Hinv as [Hipf Hikp [core Hcore] (fl0 & Hfl0 & Hflok) _ _].
  rewrite Hfl in Hfl0. injection Hfl0 as <-.
  split.
  - unfold inspected_ctx. by destruct (existsb timed_out keyed.*2).
  - unfold inspected_ctx. by destruct (existsb timed_out keyed.*2).
  - exists core. unfold core_available in *. unfold inspected_ctx.
    by destruct (core_wfc_data inputs), (existsb timed_out keyed.*2).
  - eexists. split.
    + unfold inspected_ctx. by destruct (existsb timed_out keyed.*2).
    + apply Forall_app. split; [done|]. apply Forall_filter_holds.
  - unfold inspected_ctx. destruct (existsb timed_out keyed.*2); by eexists.
  - unfold inspected_ctx. destruct (existsb timed_out keyed.*2) eqn:Eto.
    + eexists. split; [reflexivity|]. intros _. repeat split.
      * by apply Forall_filter_keep.
      * apply Forall_filter_holds.
      * by apply filter_fmap_sublist.
      * intros E. by apply timed_out_existsb_true in Eto.
    + exists rl. split; [exact Hrl|]. intros E. discriminate E.
Qed.
End Step.

(** ** Runs of the loop *)

Lemma disjoint_filters_submseteq {A} (P Q : A → Prop)
    `{∀ x, Decision (P x)} `{∀ x, Decision (Q x)} (l : list A) :
  (∀ x, P x → Q x → False) → (filter P l ++ filter Q l)%list ⊆+ l.
Proof.
  intros Hd. induction l as [|x l IH]; [done|].
  destruct (decide (P x)) as [HP|HP]; destruct (decide (Q x)) as [HQ|HQ].
  - by destruct (Hd x).
  - rewrite (filter_cons_True P), (filter_cons_False Q) by done.
    by apply submseteq_skip.
  - rewrite (filter_cons_False P), (filter_cons_True Q) by done.
    rewrite <- Permutation_middle. by apply submseteq_skip.
  - rewrite (filter_cons_False P), (filter_cons_False Q) by done.
    by apply submseteq_cons.
Qed.

Lemma NoDup_fmap_submseteq {A B} (f : A → B) (l k : list A) :
  l ⊆+ k → NoDup (f <$> k) → NoDup (f <$> l).
Proof.
  intros Hs Hnd. apply submseteq_Permutation in Hs as [l' Hl'].
  rewrite Hl', fmap_app in Hnd. by apply NoDup_app in Hnd as [? _].
Qed.

Lemma NoDup_fmap_app_ne {A B} (f : A → B) (l k : list A) a b :
  NoDup (f <$> (l ++ k)%list) → a ∈ l → b ∈ k → f a ≠ f b.
Proof.
  rewrite fmap_app. intros Hnd Ha Hb E. apply NoDup_app in Hnd as (_ & Hd & _).
  apply (Hd (f a)); [by apply list_elem_of_fmap_2|]. rewrite E. by apply list_elem_of_fmap_2.
Qed.

Lemma timed_out_not_ok c : timed_out c = true → is_finished_ok c = true → False.
Proof. unfold timed_out. intros H E. rewrite E in H. discriminate H. Qed.

Lemma is_restart_of_vectors rl batch :
  Forall2 is_restart_of rl batch → job_vector <$> batch = job_vector <$> rl.
Proof.
  induction 1 as [|c j rl batch (n & k & nl & _ & _ & _ & _ & _ & _ & Hv & _) _ IH]; [done|].
  cbn. by rewrite Hv, IH.
Qed.

Lemma is_restart_of_bases rl batch :
  Forall2 is_restart_of rl batch → job_base <$> batch = job_base <$> rl.
Proof.
  induction 1 as [|c j rl batch (n & k & nl & Hn & Hk & Hc & Hj & _) _ IH]; [done|].
  cbn. rewrite IH. f_equal. unfold job_base. rewrite Hc, Hj.
  by rewrite !first_three_prod_label by lia.
Qed.

Lemma vec_values_inj : Inj (=) (=) (λ v, Some (vec_values v)).
Proof. intros [[a b] c] [[a' b'] c'] [= -> -> ->]. done. Qed.

Section Runs.
Variable world : World.
Variable inputs : WcInputs.
Hypothesis Hconfig : config_ok inputs.

Lemma rounds_inv n st st' :
  loop_inv inputs st →
  prod_rounds world inputs n st st' →
  loop_inv inputs st'
  ∧ outputs st' = outputs st
  ∧ (∀ fl, finished_lanczos (ctx st) = Some fl →
           ∃ fl', finished_lanczos (ctx st') = Some (fl ++ fl')%list)
  ∧ ((0 < n)%nat → all_lanczos_computed (ctx st') = Some false →
     ∃ rl, lanczos_to_restart (ctx st') = Some rl ∧ rl ≠ []).
Proof.
  intros Hinv Hr. induction Hr as [st|n st st1 st2 st3 Hrep Hrun Hins Hr IH].
  - split; [done|]. split; [done|]. split.
    + intros fl Hfl. exists []. by rewrite app_nil_r.
    + intros H. lia.
  - apply should_repeat_true in Hrep.
    destruct (round_step world inputs Hconfig st st1 st2 Hinv Hrep Hrun Hins)
      as (batch & fl & rl & pf & Hfl & Hrl & _ & _ & _ & Hout & _ & _ & _ & Hfl2 & Hto & _ & _
          & Hinv2).
    destruct (IH Hinv2) as (Hinv3 & Hout3 & Hmono & Hlater).
    split; [done|]. split; [congruence|]. split.
    + intros fl0 Hfl0. rewrite Hfl in Hfl0. injection Hfl0 as <-.
      destruct (Hmono _ Hfl2) as [fl' Hfl3]. eexists. by rewrite Hfl3, <- app_assoc.
    + intros _ Hb3. destruct n as [|n]; [|apply Hlater; [lia|done]].
      inversion Hr; subst.
      destruct (existsb timed_out batch) eqn:E; [|congruence].
      destruct Hto as [Hrl2 _]. eexists. split; [exact Hrl2|].
      by apply timed_out_existsb_true.
Qed.

Lemma rounds_split k n st0 st_mid st :
  prod_rounds world inputs k st0 st_mid →
  prod_rounds world inputs n st0 st →
  (k <= n)%nat →
  prod_rounds world inputs (n - k) st_mid st.
Proof.
  intros Hk. revert n st. induction Hk as [st0|k st0 st1 st2 st3 Hrep Hrun Hins Hk IH];
    intros n st Hn Hle.
  - by rewrite Nat.sub_0_r.
  - inversion Hn as [|n' ? st1' st2' ? Hrep' Hrun' Hins' Hn']; subst; [lia|].
    rewrite Hrun in Hrun'. injection Hrun' as <-.
    rewrite Hins in Hins'. injection Hins' as <-.
    apply IH; [done|lia].
Qed.

Lemma while_unroll n fuel rest st0 st :
  prod_rounds world inputs n st0 st →
  (n <= fuel)%nat →
  while_xs_prod world inputs fuel rest st0 = while_xs_prod world inputs (fuel - n) rest st.
Proof.
  intros Hr. revert fuel. induction Hr as [st|n st st1 st2 st3 Hrep Hrun Hins Hr IH];
    intros fuel Hle.
  - by rewrite Nat.sub_0_r.
  - destruct fuel as [|fuel]; [lia|]. cbn [while_xs_prod]. rewrite Hrep.
    unfold step_then at 1. rewrite Hrun. unfold step_then at 1. rewrite Hins.
    rewrite IH by lia. reflexivity.
Qed.

(** Distinctness under [key] is kept by the rounds of the loop when a restart
    has the key of its parent and the fresh jobs have distinct keys. *)
Lemma rounds_distinct {K} (key : CalcJobNode → K) n st st' :
  (∀ rl batch, Forall2 is_restart_of rl batch → key <$> batch = key <$> rl) →
  (∀ pf batch, Forall2 (is_fresh_for pf) (eps_vectors inputs) batch →
               NoDup (job_base <$> batch) → NoDup (key <$> batch)) →
  loop_inv inputs st → distinct_by key st →
  prod_rounds world inputs n st st' →
  distinct_by key st'.
Proof.
  intros Hkeep Hnew Hinv Hvec Hr.
  induction Hr as [st|n st st1 st2 st3 Hrep Hrun Hins Hr IH]; [done|].
  apply should_repeat_true in Hrep.
  destruct (round_step world inputs Hconfig st st1 st2 Hinv Hrep Hrun Hins)
    as (batch & fl & rl & pf & Hfl & Hrl & _ & _ & _ & _ & _ & Hndb & _ & Hfl2 & Hto & Hfresh
        & Hrest & Hinv2).
  apply IH; [done|].
  intros rl2 fl2 Hb2 Hrl2 Hfl2'.
  destruct (existsb timed_out batch); [|congruence].
  destruct Hto as [Hrl2' _]. rewrite Hrl2' in Hrl2. injection Hrl2 as <-.
  rewrite Hfl2 in Hfl2'. injection Hfl2' as <-.
  assert (Hbatch : NoDup (key <$> (batch ++ fl)%list)).
  { destruct rl as [|c rl].
    - destruct Hfresh as [-> HF]; [done|]. rewrite app_nil_r. by apply (Hnew pf).
    - rewrite fmap_app, (Hkeep _ _ (Hrest ltac:(done))), <- fmap_app.
      by apply Hvec. }
  eapply NoDup_fmap_submseteq; [|exact Hbatch].
  rewrite (assoc_L app), (comm app _ fl), <- (assoc_L app), (comm app fl).
  apply submseteq_app; [|done].
  apply disjoint_filters_submseteq. intros c. apply timed_out_not_ok.
Qed.

Lemma rounds_base_inv n st st' :
  loop_inv inputs st → distinct_by job_base st →
  prod_rounds world inputs n st st' →
  distinct_by job_base st'.
Proof. apply rounds_distinct; [apply is_restart_of_bases|done]. Qed.

Lemma rounds_vec_inv n st st' :
  NoDup (eps_vectors inputs) →
  loop_inv inputs st → distinct_by job_vector st →
  prod_rounds world inputs n st st' →
  distinct_by job_vector st'.
Proof.
  intros Hvectors. apply rounds_distinct; [apply is_restart_of_vectors|].
  intros pf batch HF _.
  assert (E : job_vector <$> batch = (λ v, Some (vec_values v)) <$> eps_vectors inputs).
  { clear -HF. induction HF as [|v j vs batch [Hv _] _ IH]; [done|].
    cbn. by rewrite Hv, IH. }
  rewrite E. apply NoDup_fmap_2; [apply vec_values_inj|done].
Qed.
End Runs.

(** ** Entering the loop *)

Lemma inspect_scf_ok st w :
  scf_workchain (ctx st) = Some w → scf_is_finished_ok w = true →
  inspect_scf st
  = Ok (None, mkWcState (set_scf_results (scf_remote_folder w) (scf_kpoints w) (ctx st))
                        (reports st) (called st) (outputs st)).
Proof. intros Hw Hok. unfold inspect_scf. mstep. rewrite Hw, Hok. reflexivity. Qed.

Lemma outline_entry world inputs fuel :
  scf_is_finished_ok (run_pw_base world) = true →
  outline world inputs fuel = from_prod world inputs fuel (entry_state world inputs).
Proof.
  intros Hok. unfold outline, entry_state.
  destruct (should_run_upf2plotcore inputs); cbn -[from_prod];
    unfold step_then at 1;
    rewrite (inspect_scf_ok _ (run_pw_base world)) by done; reflexivity.
Qed.

Lemma entry_state_entry world inputs : loop_entry inputs (entry_state world inputs).
Proof.
  unfold loop_entry, entry_state, core_available, should_run_upf2plotcore.
  destruct (core_wfc_data inputs) as [d|]; cbn; repeat split; eauto.
Qed.

Lemma entry_distinct {K} (key : CalcJobNode → K) world inputs :
  distinct_by key (entry_state world inputs).
Proof.
  intros rl fl _. unfold entry_state.
  destruct (should_run_upf2plotcore inputs); cbn; intros [= <-] [= <-]; constructor.
Qed.

(** ** Properties of the production loop *)

Lemma failed_fatally_iff c :
  failed_fatally c = true ↔ is_finished_ok c = false ∧ exit_status c ≠ Some 400.
Proof.
  unfold failed_fatally, exit_status_is. rewrite andb_true_iff, !negb_true_iff.
  destruct (exit_status c) as [z|]; [|intuition congruence].
  destruct (Z.eqb_spec z 400) as [->|Hne]; intuition congruence.
Qed.

Lemma timed_out_iff c : timed_out c = true ↔ exit_status c = Some 400.
Proof.
  unfold timed_out, is_finished_ok, exit_status_is.
  destruct (exit_status c) as [z|]; [|simpl; intuition congruence].
  destruct (Z.eqb_spec z 400) as [->|Hne]; [simpl; intuition congruence|].
  rewrite andb_false_r. intuition congruence.
Qed.

Lemma not_fatal_iff c :
  failed_fatally c = false ↔ is_finished_ok c = true ∨ exit_status c = Some 400.
Proof.
  rewrite <- timed_out_iff.
  destruct (job_cases c) as [(-> & -> & ->)|[(-> & -> & ->)|(-> & -> & ->)]];
    intuition congruence.
Qed.

Section Restarts.
Variable world : World.
Variable inputs : WcInputs.
Hypothesis Hscf : scf_is_finished_ok (run_pw_base world) = true.
Hypothesis Hconfig : config_ok inputs.

Lemma entry_rounds_inv n st :
  prod_rounds world inputs n (entry_state world inputs) st →
  loop_inv inputs st ∧ outputs st = outputs_empty.
Proof.
  intros Hr.
  destruct (rounds_inv world inputs Hconfig n _ _
              (loop_entry_inv _ _ (entry_state_entry world inputs)) Hr) as (Hinv & Hout & _).
  split; [done|]. rewrite Hout. unfold entry_state. by destruct (should_run_upf2plotcore inputs).
Qed.

(** C2: when the batch submitted at a loop head holds a job that finished
    unsuccessfully with an exit status other than 400, the work chain ends
    with exit code 402 (ERROR_SUB_PROCESS_FAILED_XSPECTRA); the jobs of this
    batch are the last ones it ever submitted (no further production job
    and no replot), and no output, in particular no output_spectra, is
    attached. *)
Theorem fatal_failure_aborts_loop n fuel st st1 batch :
  prod_rounds world inputs n (entry_state world inputs) st →
  should_repeat_xs_prod st = Ok (true, st) →
  run_all_xspectra_prod world inputs st = Ok (None, st1) →
  called st1 = (called st ++ batch)%list →
  Exists (λ c, is_finished_ok c = false ∧ exit_status c ≠ Some 400) batch →
  (n < fuel)%nat →
  ∃ st2, outline world inputs fuel = Finished 402 st2
         ∧ called st2 = (called st ++ batch)%list
         ∧ outputs st2 = outputs_empty
         ∧ output_spectra (outputs st2) = None.
Proof.
  intros Hr Hrep Hrun Hcalled Hex Hfuel.
  destruct (entry_rounds_inv n st Hr) as [Hinv Hout].
  pose proof Hrep as Hb. apply should_repeat_true in Hb.
  destruct (round_run world inputs Hconfig st Hinv Hb)
    as (keyed & rs & rl & fl & pf & Hrl & Hfl & _ & Hrun' & Hkwf & Hknd & _).
  rewrite Hrun' in Hrun. injection Hrun as <-.
  cbn in Hcalled. apply app_inv_head in Hcalled as <-.
  destruct (batch_inspect keyed rs st fl Hfl Hkwf Hknd)
    as [(Hnf & _)|(_ & c' & rs' & Hins)].
  { exfalso. apply Exists_exists in Hex as (c & Hc & Hfat).
    apply failed_fatally_iff in Hfat. rewrite Forall_forall in Hnf.
    specialize (Hnf c Hc). congruence. }
  eexists. rewrite outline_entry by done. unfold from_prod.
  rewrite (while_unroll world inputs n fuel _ _ st Hr) by lia.
  destruct (fuel - n)%nat as [|k] eqn:E; [lia|].
  cbn [while_xs_prod]. rewrite Hrep.
  unfold step_then at 1. rewrite Hrun'. unfold step_then at 1. rewrite Hins.
  split; [reflexivity|]. split; [reflexivity|]. cbn. by rewrite Hout.
Qed.

(** C1, for a batch without fatal failure: when every job of the batch
    submitted at a loop head either finished successfully or ended with exit
    status 400, and at least one did the latter, the inspection keeps the
    loop running and the next pass submits exactly one job per timed-out
    job, in order.  Each of them is a restart of its parent in the sense of
    [is_restart_of]: same label base with the iteration raised by one, the
    parent's own input parameters with restart_mode set to 'restart' (hence
    the same xepsilon entries), and the parent's remote folder as
    parent_folder. *)
Theorem timed_out_jobs_restarted n st st1 batch :
  prod_rounds world inputs n (entry_state world inputs) st →
  should_repeat_xs_prod st = Ok (true, st) →
  run_all_xspectra_prod world inputs st = Ok (None, st1) →
  called st1 = (called st ++ batch)%list →
  Forall (λ c, is_finished_ok c = true ∨ exit_status c = Some 400) batch →
  Exists (λ c, exit_status c = Some 400) batch →
  ∃ st2 st3 new,
    inspect_all_xspectra_prod st1 = Ok (None, st2)
    ∧ should_repeat_xs_prod st2 = Ok (true, st2)
    ∧ run_all_xspectra_prod world inputs st2 = Ok (None, st3)
    ∧ called st3 = (called st1 ++ new)%list
    ∧ Forall2 is_restart_of (filter (λ c, exit_status c = Some 400) batch) new.
Proof.
  intros Hr Hrep Hrun Hcalled Hnf Hex.
  destruct (entry_rounds_inv n st Hr) as [Hinv Hout].
  pose proof Hrep as Hb. apply should_repeat_true in Hb.
  destruct (round_run world inputs Hconfig st Hinv Hb)
    as (keyed & rs & rl & fl & pf & Hrl & Hfl & _ & Hrun' & Hkwf & Hknd & _).
  pose proof Hrun as Hrun0.
  rewrite Hrun' in Hrun. injection Hrun as <-.
  cbn in Hcalled. apply app_inv_head in Hcalled as <-.
  destruct (batch_inspect keyed rs st fl Hfl Hkwf Hknd)
    as [(_ & rs' & Hins)|(Hfat & _)].
  2: { exfalso. apply Exists_exists in Hfat as (c & Hc & Hfat).
       rewrite Forall_forall in Hnf. specialize (Hnf c Hc).
       apply not_fatal_iff in Hnf. congruence. }
  destruct (round_step world inputs Hconfig st _ _ Hinv Hb Hrun0 Hins)
    as (batch & fl' & rl' & pf' & _ & _ & _ & Hc1 & Hc2 & _ & _ & _ & _ & _ & Hto & _ & _ & Hinv2).
  cbn in Hc1. apply app_inv_head in Hc1 as <-.
  assert (Hany : existsb timed_out keyed.*2 = true).
  { apply existsb_exists. apply Exists_exists in Hex as (c & Hc & H400).
    exists c. split; [by apply list_elem_of_In|]. by apply timed_out_iff. }
  rewrite Hany in Hto. destruct Hto as [Hrl2 Hb2].
  destruct (round_run world inputs Hconfig _ Hinv2 Hb2)
    as (keyed2 & rs2 & rl2 & fl2 & pf2 & Hrl2' & _ & _ & Hrun2 & _ & _ & _ & Hrest).
  rewrite Hrl2 in Hrl2'. injection Hrl2' as <-.
  eexists _, _, keyed2.*2. split; [exact Hins|]. split; [by apply should_repeat_true|].
  split; [exact Hrun2|]. split; [reflexivity|].
  rewrite (list_filter_iff _ (λ c, timed_out c = true)) by (intros c; by rewrite timed_out_iff).
  apply Hrest. by apply timed_out_existsb_true.
Qed.
End Restarts.

Section Passes.
Variable world : World.
Variable inputs : WcInputs.
Hypothesis Hconfig : config_ok inputs.

(** C8, amended: at every head of the production loop the pass submits, on the
    first pass, one fresh job per input vector (the restart list being
    empty) and, on every later pass, exactly the restarts of the jobs in the
    restart list, which is then non-empty.  The restart list holds
    unsuccessful jobs only, so no accepted job is in it; no job of the
    submitted batch continues a job accepted so far (their labels differ in
    the job number), and, the input vectors being pairwise distinct, none
    carries the polarization vector of a job accepted so far. *)
Theorem production_passes n st :
  prod_rounds world inputs n (entry_state world inputs) st →
  should_repeat_xs_prod st = Ok (true, st) →
  ∃ rl batch st1,
    lanczos_to_restart (ctx st) = Some rl
    ∧ run_all_xspectra_prod world inputs st = Ok (None, st1)
    ∧ called st1 = (called st ++ batch)%list
    ∧ (n = 0%nat →
       rl = []
       ∧ Forall2 (is_fresh_for (scf_remote_folder (run_pw_base world)))
                 (eps_vectors inputs) batch)
    ∧ (n ≠ 0%nat → rl ≠ [] ∧ Forall2 is_restart_of rl batch)
    ∧ Forall (λ r, is_finished_ok r = false) rl
    ∧ (∀ k st_mid fl c,
         (k <= n)%nat →
         prod_rounds world inputs k (entry_state world inputs) st_mid →
         finished_lanczos (ctx st_mid) = Some fl → c ∈ fl →
         (c ∉ rl)
         ∧ Forall (λ j, job_base j ≠ job_base c) batch
         ∧ (NoDup (eps_vectors inputs) →
            Forall (λ j, job_vector j ≠ job_vector c) batch)).
Proof.
  intros Hr Hrep.
  pose proof (loop_entry_inv _ _ (entry_state_entry world inputs)) as Hinv0.
  destruct (rounds_inv world inputs Hconfig n _ _ Hinv0 Hr) as (Hinv & _ & _ & Hlater).
  pose proof (rounds_base_inv world inputs Hconfig n _ _ Hinv0
                (entry_distinct job_base world inputs) Hr) as Hbase.
  pose proof (λ Hvectors, rounds_vec_inv world inputs Hconfig n _ _ Hvectors Hinv0
                            (entry_distinct job_vector world inputs) Hr) as Hvec.
  pose proof Hrep as Hb. apply should_repeat_true in Hb.
  destruct (round_run world inputs Hconfig st Hinv Hb)
    as (keyed & rs & rl & fl & pf & Hrl & Hfl & Hpf & Hrun & Hkwf & Hknd & Hfresh & Hrest).
  destruct Hinv as [_ _ _ (fl0 & Hfl0 & Hflok) _ (rl0 & Hrl0 & Hrlinv)].
  rewrite Hfl in Hfl0. injection Hfl0 as <-.
  rewrite Hrl in Hrl0. injection Hrl0 as <-.
  destruct (Hrlinv Hb) as (_ & Hto & _ & _).
  assert (Hn0 : n = 0%nat → rl = [] ∧ pf = scf_remote_folder (run_pw_base world)).
  { intros ->. inversion Hr; subst. revert Hrl Hpf. unfold entry_state.
    destruct (should_run_upf2plotcore inputs); cbn; by intros [= <-] [= <-]. }
  assert (Hn1 : n ≠ 0%nat → rl ≠ []).
  { intros Hn. destruct (Hlater ltac:(lia) Hb) as (rl' & Hrl' & Hne). congruence. }
  exists rl, keyed.*2, (batch_state keyed rs st).
  split; [done|]. split; [done|]. split; [reflexivity|].
  split.
  { intros Hn. destruct (Hn0 Hn) as [-> ->]. split; [done|].
    destruct Hfresh as [_ HF]; [done|]. by apply Forall2_fmap_r. }
  split. { intros Hn. split; [by apply Hn1|]. apply Hrest. by apply Hn1. }
  split.
  { eapply Forall_impl; [exact Hto|]. intros r Ht. simpl in Ht.
    destruct (is_finished_ok r) eqn:E; [|done]. by destruct (timed_out_not_ok r). }
  intros k st_mid flm c Hk Hrm Hflm Hc.
  pose proof (rounds_split world inputs k n _ _ _ Hrm Hr Hk) as Hrest_rounds.
  destruct (rounds_inv world inputs Hconfig k _ _ Hinv0 Hrm) as (Hinvm & _).
  destruct (rounds_inv world inputs Hconfig _ _ _ Hinvm Hrest_rounds) as (_ & _ & Hmono & _).
  destruct (Hmono _ Hflm) as [fl' Hfl']. rewrite Hfl in Hfl'. injection Hfl' as ->.
  assert (Hcfl : c ∈ (flm ++ fl')%list) by (apply elem_of_app; by left).
  assert (Hkey : ∀ K (key : CalcJobNode → K),
            (∀ rl batch, Forall2 is_restart_of rl batch → key <$> batch = key <$> rl) →
            distinct_by key st → Forall (λ j, key j ≠ key c) keyed.*2).
  { intros K key Hkeep Hd.
    destruct (decide (n = 0%nat)) as [Hn|Hn].
    { destruct (Hn0 Hn) as [-> _]. destruct Hfresh as [E _]; [done|].
      apply (f_equal length) in E. rewrite length_app in E.
      destruct flm; [by apply elem_of_nil in Hc|discriminate E]. }
    specialize (Hrest (Hn1 Hn)). specialize (Hd rl _ Hb Hrl Hfl).
    apply Forall_forall. intros j Hj.
    apply list_elem_of_lookup in Hj as [i Hi].
    destruct (Forall2_lookup_r _ _ _ _ _ Hrest Hi) as (r & Hri & _).
    pose proof (f_equal (λ l, l !! i) (Hkeep _ _ Hrest)) as E. cbn in E.
    rewrite (list_lookup_fmap key keyed.*2), (list_lookup_fmap key rl), Hi, Hri in E.
    injection E as ->.
    apply (NoDup_fmap_app_ne key rl (flm ++ fl')); [done| |done].
    apply list_elem_of_lookup. eauto. }
  split; [|split].
  - intros Hin. rewrite Forall_forall in Hto, Hflok.
    by destruct (timed_out_not_ok c (Hto c Hin) (Hflok c Hcfl)).
  - apply Hkey; [apply is_restart_of_bases|done].
  - intros Hvectors. apply Hkey; [apply is_restart_of_vectors|by apply Hvec].
Qed.
End Passes.

(** ** A concrete world *)

Lemma demo_config vs p : config_ok (Demo.inputs vs p).
Proof. split; [by eexists | set_solver]. Qed.

Lemma is_restart_of_parent c j :
  is_restart_of c j → (job_summary j).2 = Some (calc_label c).
Proof. intros (n & k & nl & _ & _ & _ & _ & _ & _ & _ & Hp). unfold job_summary. cbn. by rewrite Hp. Qed.

(** C1, as stated, fails on this run: with the vectors [1,0,0] and [0,1,0]
    the first job ends with exit status 400 and the second one with exit
    status 500.  The inspection returns exit code 402 at the second job, the
    local restart list is dropped, and no restart of the timed-out job is
    ever submitted. *)
Lemma timeout_beside_fatal_failure_not_restarted :
  let world := Demo.world [("xas_prod_0_iter_1", 400); ("xas_prod_1_iter_1", 500)] in
  let inputs := Demo.inputs [Demo.e100; Demo.e010] false in
  ∃ st c,
    outline world inputs 5 = Finished ERROR_SUB_PROCESS_FAILED_XSPECTRA st
    ∧ c ∈ called st
    ∧ calc_label c = "xas_prod_0_iter_1"
    ∧ exit_status c = Some 400
    ∧ ¬ ∃ j, j ∈ called st ∧ is_restart_of c j.
Proof.
  intros world inputs.
  assert (H : run_summary (outline world inputs 5)
              = Some (402, [("xas_prod_0_iter_1", Some 400, None);
                            ("xas_prod_1_iter_1", Some 500, None)]))
    by (vm_compute; reflexivity).
  destruct (outline world inputs 5) as [code st| |]; [|done..].
  injection H as -> H.
  destruct (called st) as [|c [|j [|? ?]]] eqn:Ecalled; try done.
  injection H as Hl Hs Hp Hl' Hs' Hp'. exists st, c.
  split; [done|]. rewrite Ecalled. split; [apply list_elem_of_here|].
  split; [done|]. split; [done|].
  intros (j' & Hj' & Hr%is_restart_of_parent). unfold job_summary in Hr. cbn in Hr.
  apply elem_of_cons in Hj' as [->|Hj'].
  - rewrite Hp in Hr. discriminate Hr.
  - apply list_elem_of_singleton in Hj' as ->. rewrite Hp' in Hr. discriminate Hr.
Qed.

(** ** Witnesses on the concrete world *)

Lemma first_batch_run w i :
  config_ok i →
  run_all_xspectra_prod w i (entry_state w i) = Ok (None, Demo.first_batch w i).
Proof.
  intros Hc.
  destruct (round_run w i Hc (entry_state w i)
              (loop_entry_inv _ _ (entry_state_entry w i)))
    as (keyed & rs & rl & fl & pf & _ & _ & _ & Hrun & _).
  { unfold entry_state. by destruct (should_run_upf2plotcore i). }
  unfold Demo.first_batch. by rewrite Hrun.
Qed.

Lemma entry_repeats w i :
  should_repeat_xs_prod (entry_state w i) = Ok (true, entry_state w i).
Proof.
  apply should_repeat_true. unfold entry_state. by destruct (should_run_upf2plotcore i).
Qed.

Lemma Exists_by_status (P : option Z → Prop) (l : list CalcJobNode) :
  Exists P (exit_status <$> l) → Exists (λ c, P (exit_status c)) l.
Proof. intros H. by apply (Exists_fmap exit_status). Qed.

Lemma Forall_by_status (P : option Z → Prop) (l : list CalcJobNode) :
  Forall P (exit_status <$> l) → Forall (λ c, P (exit_status c)) l.
Proof. intros H. by apply (Forall_fmap exit_status). Qed.

Lemma status_fatal c :
  (λ s, s ≠ Some 0 ∧ s ≠ Some 400) (exit_status c) →
  is_finished_ok c = false ∧ exit_status c ≠ Some 400.
Proof.
  unfold is_finished_ok. intros [H0 H400]. split; [|done].
  destruct (exit_status c) as [[|p|p]|]; congruence.
Qed.

Lemma status_not_fatal c :
  (λ s, s = Some 0 ∨ s = Some 400) (exit_status c) →
  is_finished_ok c = true ∨ exit_status c = Some 400.
Proof. unfold is_finished_ok. intros [->| ->]; auto. Qed.

(** C2 on a run with the vectors [1,0,0] and [0,1,0], in which the second
    job ends with exit status 500. *)
Lemma fatal_failure_aborts_loop_witness :
  let world := Demo.world [("xas_prod_1_iter_1", 500)] in
  let inputs := Demo.inputs [Demo.e100; Demo.e010] false in
  ∃ st2, outline world inputs 5 = Finished 402 st2
         ∧ called st2 = (called (entry_state world inputs)
                         ++ called (Demo.first_batch world inputs))%list
         ∧ outputs st2 = outputs_empty
         ∧ output_spectra (outputs st2) = None.
Proof.
  intros world inputs.
  apply (fatal_failure_aborts_loop world inputs eq_refl (demo_config _ _) 0 5
           (entry_state world inputs) (Demo.first_batch world inputs)
           (called (Demo.first_batch world inputs))).
  - apply rounds_O.
  - apply entry_repeats.
  - apply first_batch_run, demo_config.
  - reflexivity.
  - eapply Exists_impl; [|intros c; apply status_fatal].
    apply (Exists_by_status (λ s, s ≠ Some 0 ∧ s ≠ Some 400)).
    assert (E : exit_status <$> called (Demo.first_batch world inputs) = [Some 0; Some 500])
      by (vm_compute; reflexivity).
    rewrite E. apply Exists_cons_tl, Exists_cons_hd. split; discriminate.
  - lia.
Defined.

(** C1 on a run with the vectors [1,0,0] and [0,0,1], in which the second
    job runs out of time. *)
Lemma timed_out_jobs_restarted_witness :
  let world := Demo.world [("xas_prod_1_iter_1", 400)] in
  let inputs := Demo.inputs [Demo.e100; Demo.e001] false in
  ∃ st2 st3 new,
    inspect_all_xspectra_prod (Demo.first_batch world inputs) = Ok (None, st2)
    ∧ should_repeat_xs_prod st2 = Ok (true, st2)
    ∧ run_all_xspectra_prod world inputs st2 = Ok (None, st3)
    ∧ called st3 = (called (Demo.first_batch world inputs) ++ new)%list
    ∧ Forall2 is_restart_of
        (filter (λ c, exit_status c = Some 400) (called (Demo.first_batch world inputs))) new.
Proof.
  intros world inputs.
  assert (E : exit_status <$> called (Demo.first_batch world inputs) = [Some 0; Some 400])
    by (vm_compute; reflexivity).
  apply (timed_out_jobs_restarted world inputs (demo_config _ _) 0
           (entry_state world inputs) (Demo.first_batch world inputs)
           (called (Demo.first_batch world inputs))).
  - apply rounds_O.
  - apply entry_repeats.
  - apply first_batch_run, demo_config.
  - reflexivity.
  - eapply Forall_impl; [|intros c; apply status_not_fatal].
    apply (Forall_by_status (λ s, s = Some 0 ∨ s = Some 400)).
    rewrite E. constructor; [by left|]. constructor; [by right|]. constructor.
  - apply (Exists_by_status (λ s, s = Some 400)).
    rewrite E. apply Exists_cons_tl, Exists_cons_hd. reflexivity.
Defined.

Lemma demo_one_round :
  let world := Demo.world [("xas_prod_1_iter_1", 400)] in
  let inputs := Demo.inputs [Demo.e100; Demo.e001] false in
  prod_rounds world inputs 1 (entry_state world inputs) (Demo.second_head world inputs).
Proof.
  intros world inputs.
  eapply rounds_S; [apply entry_repeats|apply first_batch_run, demo_config| |apply rounds_O].
  assert (F : step_code (inspect_all_xspectra_prod (Demo.first_batch world inputs)) = Some None)
    by (vm_compute; reflexivity).
  unfold Demo.second_head.
  destruct (inspect_all_xspectra_prod (Demo.first_batch world inputs)) as [[[c|] st]|];
    by try discriminate F.
Qed.

Lemma demo_vectors_distinct : NoDup [Demo.e100; Demo.e001].
Proof.
  apply NoDup_cons. split; [|apply NoDup_singleton].
  intros H%list_elem_of_singleton. apply (f_equal (λ v : vec3, this v.2)) in H. discriminate H.
Qed.

(** C8 at the second pass of a run in which the job for [0,0,1] ran out of
    time and the job for [1,0,0] was accepted: the pass submits the restart
    of the former and nothing for the latter. *)
Lemma production_passes_witness :
  let world := Demo.world [("xas_prod_1_iter_1", 400)] in
  let inputs := Demo.inputs [Demo.e100; Demo.e001] false in
  let st := Demo.second_head world inputs in
  ∃ rl batch st1,
    lanczos_to_restart (ctx st) = Some rl
    ∧ run_all_xspectra_prod world inputs st = Ok (None, st1)
    ∧ called st1 = (called st ++ batch)%list
    ∧ rl ≠ []
    ∧ Forall2 is_restart_of rl batch
    ∧ Forall (λ r, is_finished_ok r = false) rl
    ∧ (∀ k st_mid fl c,
         (k <= 1)%nat →
         prod_rounds world inputs k (entry_state world inputs) st_mid →
         finished_lanczos (ctx st_mid) = Some fl → c ∈ fl →
         (c ∉ rl)
         ∧ Forall (λ j, job_base j ≠ job_base c) batch
         ∧ Forall (λ j, job_vector j ≠ job_vector c) batch).
Proof.
  intros world inputs st.
  destruct (production_passes world inputs (demo_config _ _) 1 st)
    as (rl & batch & st1 & Hrl & Hrun & Hcalled & _ & Hlater & Hfailed & Haccepted).
  - apply demo_one_round.
  - apply should_repeat_true. vm_compute. reflexivity.
  - destruct Hlater as [Hne Hrestarts]; [done|].
    exists rl, batch, st1.
    split; [exact Hrl|]. split; [exact Hrun|]. split; [exact Hcalled|].
    split; [exact Hne|]. split; [exact Hrestarts|]. split; [exact Hfailed|].
    intros k st_mid fl c Hk Hrounds Hfl Hc.
    destruct (Haccepted k st_mid fl c Hk Hrounds Hfl Hc) as (Hnot & Hbase & Hvec).
    split; [exact Hnot|]. split; [exact Hbase|].
    apply Hvec, demo_vectors_distinct.
Defined.

Lemma repeated_vector_round :
  let world := Demo.world [("xas_prod_1_iter_1", 400)] in
  let inputs := Demo.inputs [Demo.e100; Demo.e100] false in
  prod_rounds world inputs 1 (entry_state world inputs) (Demo.second_head world inputs).
Proof.
  intros world inputs.
  eapply rounds_S; [apply entry_repeats|apply first_batch_run, demo_config| |apply rounds_O].
  assert (F : step_code (inspect_all_xspectra_prod (Demo.first_batch world inputs)) = Some None)
    by (vm_compute; reflexivity).
  unfold Demo.second_head.
  destruct (inspect_all_xspectra_prod (Demo.first_batch world inputs)) as [[[c|] st]|];
    by try discriminate F.
Qed.

(** C8, as stated, fails when a vector is listed twice, which
    [validate_inputs] accepts: with the vectors [1,0,0] and [1,0,0] the job
    of the first one is accepted in the first pass and the job of the
    second one runs out of time; the second pass then submits
    xas_prod_1_iter_2, a further job for the vector of the accepted job. *)
Lemma repeated_vector_submitted_again :
  let world := Demo.world [("xas_prod_1_iter_1", 400)] in
  let inputs := Demo.inputs [Demo.e100; Demo.e100] false in
  let st := Demo.second_head world inputs in
  ∃ fl c st1 j,
    prod_rounds world inputs 1 (entry_state world inputs) st
    ∧ should_repeat_xs_prod st = Ok (true, st)
    ∧ finished_lanczos (ctx st) = Some fl
    ∧ c ∈ fl
    ∧ calc_label c = "xas_prod_0_iter_1"
    ∧ is_finished_ok c = true
    ∧ run_all_xspectra_prod world inputs st = Ok (None, st1)
    ∧ j ∈ called st1
    ∧ (j ∉ called st)
    ∧ calc_label j = "xas_prod_1_iter_2"
    ∧ job_vector c = Some (vec_values Demo.e100)
    ∧ job_vector j = job_vector c.
Proof.
  intros world inputs st.
  assert (Hfl : (λ l : list CalcJobNode,
                   (λ c, (calc_label c, is_finished_ok c, job_vector c)) <$> l)
                  <$> finished_lanczos (ctx st)
                = Some [("xas_prod_0_iter_1", true, Some (vec_values Demo.e100))])
    by (vm_compute; reflexivity).
  assert (Hold : calc_label <$> called st = ["xas_prod_0_iter_1"; "xas_prod_1_iter_1"])
    by (vm_compute; reflexivity).
  assert (Hnew : match run_all_xspectra_prod world inputs st with
                 | Ok (None, st1) =>
                     Some ((λ c, (calc_label c, job_vector c)) <$> called st1)
                 | _ => None
                 end
                 = Some [("xas_prod_0_iter_1", Some (vec_values Demo.e100));
                         ("xas_prod_1_iter_1", Some (vec_values Demo.e100));
                         ("xas_prod_1_iter_2", Some (vec_values Demo.e100))])
    by (vm_compute; reflexivity).
  destruct (finished_lanczos (ctx st)) as [[|c [|? ?]]|] eqn:Efl; try done.
  injection Hfl as Hcl Hcok Hcv.
  destruct (run_all_xspectra_prod world inputs st) as [[[code|] st1]|] eqn:Erun; try done.
  destruct (called st1) as [|j0 [|j1 [|j [|? ?]]]] eqn:Ecalled; try done.
  injection Hnew as _ _ _ _ Hjl Hjv.
  exists [c], c, st1, j.
  split; [apply repeated_vector_round|].
  split; [apply should_repeat_true; vm_compute; reflexivity|].
  split; [done|]. split; [apply list_elem_of_here|]. split; [done|]. split; [done|].
  split; [done|].
  split; [rewrite Ecalled; do 2 apply list_elem_of_further; apply list_elem_of_here|].
  split.
  { intros Hin. apply (list_elem_of_fmap_2 calc_label) in Hin. rewrite Hold, Hjl in Hin.
    apply list_elem_of_In in Hin. cbn in Hin. by destruct Hin as [?|[?|[]]]. }
  split; [done|]. split; [done|]. by rewrite Hjv, Hcv.
Qed.

(** ** The results step *)

Lemma for_each_pure {A S} (body : S → A → M S) l s st s' st' :
  (∀ s a st s' st', body s a st = Ok (s', st') → st' = st) →
  for_each body l s st = Ok (s', st') → st' = st.
Proof.
  intros Hb. revert s st. induction l as [|a l IH]; intros s st H.
  - cbn in H. unfold m_ret in H. by injection H.
  - cbn [for_each] in H. unfold m_bind in H.
    destruct (body s a st) as [[s1 st1]|] eqn:E; [|done].
    apply Hb in E as ->. by eapply IH.
Qed.

Lemma quiet_refl st : quiet st st.
Proof. split; [done|]. exists []. split; [by rewrite app_nil_r|]. apply not_elem_of_nil. Qed.

Lemma quiet_trans st1 st2 st3 : quiet st1 st2 → quiet st2 st3 → quiet st1 st3.
Proof.
  intros [Hp1 (r1 & Hr1 & Hn1)] [Hp2 (r2 & Hr2 & Hn2)]. split; [congruence|].
  exists (r1 ++ r2)%list. split; [by rewrite Hr2, Hr1, <- app_assoc|].
  rewrite elem_of_app. tauto.
Qed.

Lemma quiet_ret {A} (a : A) : keeps_quiet (m_ret a).
Proof. intros st a' st' [= _ <-]. apply quiet_refl. Qed.

Lemma quiet_lift {A} (r : Res A) : keeps_quiet (lift r).
Proof. intros st a st'. unfold lift. destruct r; [|done]. intros [= _ <-]. apply quiet_refl. Qed.

Lemma quiet_bind {A B} (m : M A) (f : A → M B) :
  keeps_quiet m → (∀ a, keeps_quiet (f a)) → keeps_quiet (m_bind m f).
Proof.
  intros Hm Hf st b st'. unfold m_bind. destruct (m st) as [[a st1]|] eqn:E; [|done].
  intros H. eapply quiet_trans; [by eapply Hm|by eapply Hf].
Qed.

Lemma quiet_ctx_attr {A} (f : Ctx → option A) : keeps_quiet (ctx_attr f).
Proof.
  intros st a st'. unfold ctx_attr. mstep. destruct (f (ctx st)); [|done].
  intros [= _ <-]. apply quiet_refl.
Qed.

Lemma quiet_report r : r ≠ RWarnMissingC → keeps_quiet (report r).
Proof.
  intros Hr st a st' [= _ <-]. split; [done|]. exists [r]. split; [done|].
  intros H%list_elem_of_singleton. congruence.
Qed.

Lemma quiet_modify_outputs f :
  (∀ o, powder_spectrum (f o) = powder_spectrum o) → keeps_quiet (modify_outputs f).
Proof.
  intros Hf st a st' [= _ <-]. split; [apply Hf|]. exists []. cbn.
  split; [by rewrite app_nil_r|]. apply not_elem_of_nil.
Qed.

Lemma quiet_for_each {A S} (body : S → A → M S) l s :
  (∀ s a, keeps_quiet (body s a)) → keeps_quiet (for_each body l s).
Proof.
  intros Hb. revert s. induction l as [|a l IH]; intros s; cbn [for_each].
  - apply quiet_ret.
  - apply quiet_bind; [apply Hb|]. intros s'. apply IH.
Qed.

(** The powder branch of [results] is never taken: whatever the inputs and
    the context, [results] leaves the [powder_spectrum] output alone and
    does not report the missing-C-axis warning. *)
Lemma results_powder_dead inputs : keeps_quiet (results inputs).
Proof.
  unfold results. rewrite andb_false_r.
  apply quiet_bind; [apply quiet_ctx_attr|]. intros fl.
  apply quiet_bind; [apply quiet_ctx_attr|]. intros rp.
  apply quiet_bind.
  { destruct (collect_powder inputs); [|apply quiet_ret].
    apply quiet_bind; [apply quiet_lift|]. intros present.
    destruct (negb present); [by apply quiet_report|apply quiet_ret]. }
  intros _. apply quiet_bind; [apply quiet_ctx_attr|]. intros scf.
  apply quiet_bind; [by apply quiet_modify_outputs|]. intros _.
  apply quiet_bind.
  { apply quiet_for_each. intros acc calc.
    apply quiet_bind; [apply quiet_lift|]. intros label. apply quiet_ret. }
  intros m. apply quiet_bind; [by apply quiet_modify_outputs|]. intros _.
  apply quiet_bind; [apply quiet_lift|]. intros spectra.
  apply quiet_bind; [by apply quiet_modify_outputs|]. intros _.
  apply quiet_bind; [|intros _; apply quiet_ret].
  destruct (clean_workdir inputs); by apply quiet_report.
Qed.

(** ** Runs that show the defects of the replot inspection and of [results] *)

(** C4 does not hold of [results]: with collect_powder set and the three
    vectors [1,0,0], [0,1,0], [0,0,1] all accepted, the work chain finishes
    with exit code 0, attaches no powder_spectrum and reports no powder
    warning.  The flag should_collect_powder is set to False and never
    changed (the loop assigns basis_vectors_present instead), so the branch
    calling get_powder_spectrum is never taken. *)
Theorem complete_basis_yields_no_powder :
  let world := Demo.world [] in
  let inputs := Demo.inputs [Demo.e100; Demo.e010; Demo.e001] true in
  ∃ st fl,
    outline world inputs 5 = Finished 0 st
    ∧ collect_powder inputs = true
    ∧ finished_lanczos (ctx st) = Some fl
    ∧ res_epsilon_vector <$> fl = [Demo.e100; Demo.e010; Demo.e001]
    ∧ powder_spectrum (outputs st) = None
    ∧ List.filter is_powder_warning (reports st) = [].
Proof.
  intros world inputs.
  assert (H : powder_summary (outline world inputs 5)
              = Some (0, [Demo.e100; Demo.e010; Demo.e001], None, []))
    by (vm_compute; reflexivity).
  destruct (outline world inputs 5) as [code st| |]; [|done..].
  injection H as -> Hv Hp Hw.
  destruct (finished_lanczos (ctx st)) as [fl|] eqn:Efl; [|done].
  by exists st, fl.
Qed.

(** The other documented case of C4, no basis vector among the accepted
    jobs: basis_vectors_present is then read without having been assigned,
    and the work chain excepts instead of reporting the warning. *)
Lemma powder_without_basis_excepts :
  outline (Demo.world []) (Demo.inputs [(Qc_of_Z 1, Qc_of_Z 1, Qc_of_Z 0)] true) 5
  = Excepted UnboundLocalError.
Proof. vm_compute. reflexivity. Qed.

(** C6 does not hold of [results]: with collect_powder set and exactly the
    vectors [1,0,0] and [0,1,0] accepted, no powder_spectrum is attached,
    but the missing-C-axis warning is not reported either; the branch that
    holds the guard is never taken. *)
Theorem missing_c_axis_not_reported :
  let world := Demo.world [] in
  let inputs := Demo.inputs [Demo.e100; Demo.e010] true in
  ∃ st fl,
    outline world inputs 5 = Finished 0 st
    ∧ collect_powder inputs = true
    ∧ finished_lanczos (ctx st) = Some fl
    ∧ res_epsilon_vector <$> fl = [Demo.e100; Demo.e010]
    ∧ powder_spectrum (outputs st) = None
    ∧ RWarnMissingC ∉ reports st.
Proof.
  intros world inputs.
  assert (H : powder_summary (outline world inputs 5)
              = Some (0, [Demo.e100; Demo.e010], None, []))
    by (vm_compute; reflexivity).
  destruct (outline world inputs 5) as [code st| |]; [|done..].
  injection H as -> Hv Hp Hw.
  destruct (finished_lanczos (ctx st)) as [fl|] eqn:Efl; [|done].
  exists st, fl. repeat split; try done.
  intros Hin. apply list_elem_of_In in Hin.
  assert (Hf : In RWarnMissingC (List.filter is_powder_warning (reports st)))
    by (by apply filter_In).
  by rewrite Hw in Hf.
Qed.

(** C5 does not hold of the replot inspection: with the vectors [1,0,0]
    and [0,0,1], the second job times out once and is accepted on its
    restart.  Both accepted jobs get a replot, the replot of the job
    accepted in the first pass fails with exit status 500, and the work
    chain still finishes with exit code 0, keeps the other replot alone in
    finished_replots and attaches output_spectra.  The inspection looks up
    the labels of the last production pass only. *)
Theorem failed_replot_unnoticed_after_restart :
  let world := Demo.world [("xas_prod_1_iter_1", 400); ("xas_plot_0", 500)] in
  let inputs := Demo.inputs [Demo.e100; Demo.e001] false in
  ∃ st j rp,
    outline world inputs 5 = Finished 0 st
    ∧ j ∈ called st
    ∧ calc_label j = "xas_plot_0"
    ∧ exit_status j = Some 500
    ∧ finished_replots (ctx st) = Some rp
    ∧ calc_label <$> rp = ["xas_plot_1"]
    ∧ is_Some (output_spectra (outputs st)).
Proof.
  intros world inputs.
  assert (H : replot_summary (outline world inputs 5)
              = Some (0, [("xas_prod_0_iter_1", Some 0, None);
                          ("xas_prod_1_iter_1", Some 400, None);
                          ("xas_prod_1_iter_2", Some 0, Some "xas_prod_1_iter_1");
                          ("xas_plot_0", Some 500, Some "xas_prod_0_iter_1");
                          ("xas_plot_1", Some 0, Some "xas_prod_1_iter_2")],
                      ["xas_plot_1"], true))
    by (vm_compute; reflexivity).
  destruct (outline world inputs 5) as [code st| |]; [|done..].
  injection H as -> Hc Hr Ho.
  destruct (finished_replots (ctx st)) as [rp|] eqn:Erp; [|done].
  destruct (called st) as [|j1 [|j2 [|j3 [|j4 l]]]] eqn:Ec; try done.
  injection Hc as _ _ _ _ _ _ _ _ _ Hl Hs _ _.
  exists st, j4, rp. repeat split; try done.
  - rewrite Ec. do 3 apply list_elem_of_further. apply list_elem_of_here.
  - by apply bool_decide_eq_true in Ho.
Qed.

(** ** inspect_upf2plotcore *)

Lemma num_core_states_ok content n :
  num_core_states content = Ok n ↔
  ∃ tok, PyStr.split " " (PyStr.take 40 content) !! 5%nat = Some tok ∧ PyStr.int tok = Some n.
Proof.
  unfold num_core_states.
  destruct (PyStr.split " " (PyStr.take 40 content) !! 5%nat) as [tok|]; cbn.
  - destruct (PyStr.int tok) as [m|] eqn:E; cbn; split.
    + intros [= ->]. by exists tok.
    + intros (? & [= <-] & H). congruence.
    + intros H. discriminate H.
    + intros (? & [= <-] & H). congruence.
  - split; [intros H; discriminate H|]. intros (? & H & _). discriminate H.
Qed.

(** C9, in terms of what the code reads: the inspection returns exit code
    403 (ERROR_NO_GIPAW_INFO_FOUND) exactly when some element's output has
    the integer 0 as the piece of index 5 of its first 40 characters split
    at every single space, all elements before it having a non-zero integer
    there; and every element passes exactly when each has a non-zero integer
    there. *)
Theorem inspect_upf2plotcore_spec shelljobs labels :
  (inspect_upf2plotcore shelljobs labels = Ok (Some 403) ↔
   ∃ before label after,
     labels = (before ++ label :: after)%list
     ∧ Forall (element_passes shelljobs) before
     ∧ element_has_no_core_state shelljobs label)
  ∧ (inspect_upf2plotcore shelljobs labels = Ok None ↔
     Forall (element_passes shelljobs) labels).
Proof.
  induction labels as [|label labels [IH403 IHpass]].
  - split; split.
    + done.
    + intros (before & label & after & E & _). by destruct before.
    + constructor.
    + done.
  - cbn [inspect_upf2plotcore].
    destruct (shelljobs !! ("upf2plotcore_" ++ label)) as [content|] eqn:Ejob; simpl.
    2: { split; split; try done.
         - intros (before & l & after & E & Hb & (c & tok & Hc & _)).
           destruct before as [|b before]; injection E as -> ->.
           + congruence.
           + inversion_clear Hb as [|? ? (c' & ? & ? & Hc' & _) _]. congruence.
         - intros Hall. inversion_clear Hall as [|? ? (c' & ? & ? & Hc' & _) _]. congruence. }
    destruct (num_core_states content) as [n|e] eqn:En; simpl.
    2: { assert (Hno : ∀ tok m, PyStr.split " " (PyStr.take 40 content) !! 5%nat = Some tok →
                               PyStr.int tok = Some m → False).
         { intros tok m H1 H2. assert (num_core_states content = Ok m) as H
             by (apply num_core_states_ok; eauto). congruence. }
         split; split; try done.
         - intros (before & l & after & E & Hb & (c & tok & Hc & H1 & H2)).
           destruct before as [|b before]; injection E as -> ->.
           + rewrite Ejob in Hc. injection Hc as <-. exfalso; by eapply Hno.
           + inversion_clear Hb as [|? ? (c' & tok' & m & Hc' & H1' & H2' & _) _].
             rewrite Ejob in Hc'. injection Hc' as <-. exfalso; by eapply Hno.
         - intros Hall. inversion_clear Hall as [|? ? (c' & tok' & m & Hc' & H1' & H2' & _) _].
           rewrite Ejob in Hc'. injection Hc' as <-. exfalso; by eapply Hno. }
    apply num_core_states_ok in En as (tok & Htok & Hint).
    destruct (Z.eqb_spec n 0) as [->|Hn].
    + split; split; try done.
      * intros _. exists [], label, labels. repeat split; [constructor|].
        by exists content, tok.
      * intros Hall. inversion_clear Hall as [|? ? (c' & tok' & m & Hc' & H1' & H2' & Hm) _].
        rewrite Ejob in Hc'. injection Hc' as <-. congruence.
    + split.
      * rewrite IH403. split.
        -- intros (before & l & after & -> & Hb & Hz).
           exists (label :: before), l, after. repeat split; [|done].
           constructor; [|done]. by exists content, tok, n.
        -- intros (before & l & after & E & Hb & Hz).
           destruct before as [|b before]; injection E as -> ->.
           ++ destruct Hz as (c' & tok' & Hc' & H1' & H2').
              rewrite Ejob in Hc'. injection Hc' as <-. congruence.
           ++ inversion_clear Hb. by exists before, l, after.
      * rewrite IHpass. split.
        -- intros Hall. constructor; [|done]. by exists content, tok, n.
        -- intros Hall. by inversion_clear Hall.
Qed.

(** C9, as stated, fails on this output: the 6th white-space separated
    token of the first line is 0, yet the element passes the inspection,
    which reads the piece 7 after the doubled space. *)
Lemma doubled_space_shifts_the_count :
  spec_num_core_states "# number of  core 7 0 = 1 0;" = Some 0
  ∧ inspect_upf2plotcore {[ "upf2plotcore_Si" := "# number of  core 7 0 = 1 0;" ]} ["Si"]
    = Ok None.
Proof. split; vm_compute; reflexivity. Qed.

(** The output of upf2plotcore.sh as the script prints it. *)
Example inspect_upf2plotcore_no_core_state :
  inspect_upf2plotcore {[ "upf2plotcore_Si" := "# number of core states 0 =" ]} ["Si"]
  = Ok (Some ERROR_NO_GIPAW_INFO_FOUND)
  ∧ inspect_upf2plotcore
      {[ "upf2plotcore_Si" := "# number of core states 3 =  1 0;  2 0;  2 1;" ]} ["Si"]
    = Ok None
  ∧ inspect_upf2plotcore {[ "upf2plotcore_Si" := "#  number of core states 0 =" ]} ["Si"]
    = Raise ValueError.
Proof. repeat split; vm_compute; reflexivity. Qed.

(** [int] skips a tab or a line feed around the digits, not the separator
    characters 28 to 31: a piece made of such a character and 0 raises. *)
Example int_white_space :
  PyStr.int (String "009" "0") = Some 0
  ∧ PyStr.int (String "0" (String "010" "")) = Some 0
  ∧ PyStr.int (String "028" "0") = None
  ∧ PyStr.int (String "031" "0") = None
  ∧ inspect_upf2plotcore
      {[ "upf2plotcore_Si" := "# number of core states " ++ String "028" "0 =" ]} ["Si"]
    = Raise ValueError
  ∧ inspect_upf2plotcore
      {[ "upf2plotcore_Si" := "# number of core states " ++ String "009" "0 =" ]} ["Si"]
    = Ok (Some 403).
Proof. repeat split; vm_compute; reflexivity. Qed.

(** ** The replot stage *)

Section Replot.
Variable world : World.
Variable inputs : WcInputs.
Variables (nl0 : gmap string value) (kp : KpointsData) (core : SinglefileData).
Hypothesis Hnl0 : xs_plot_parameters inputs !! "INPUT_XSPECTRA" = Some nl0.

Lemma plot_body_ok calcs p base st :
  job_base p = Ok base →
  scf_kpoint_mesh (ctx st) = Some kp →
  let j := run_job world (replot_inputs inputs nl0 kp core p base) in
  plot_body world inputs core calcs p st
  = Ok (<[base ++ "_plot" := j]> calcs,
        add_job j (RLaunchReplot (res_epsilon_vector p)) st).
Proof.
  intros Hb Hkp j. unfold plot_body. mstep. unfold job_base in Hb.
  rewrite Hnl0, Hb, Hkp. reflexivity.
Qed.

Lemma replot_is_replot p base :
  job_base p = Ok base → is_replot_of p (run_job world (replot_inputs inputs nl0 kp core p base)).
Proof.
  intros Hb. split; [done|]. split; [|by exists base].
  unfold job_vector, run_job, replot_inputs. cbn.
  rewrite lookup_insert_eq. cbn.
  destruct (set_xepsilon_lookup (res_epsilon_vector p) nl0) as (-> & -> & ->). done.
Qed.

Lemma for_each_plot fl calcs st :
  Forall has_base fl →
  scf_kpoint_mesh (ctx st) = Some kp →
  ∃ calcs' replots rs,
    for_each (plot_body world inputs core) fl calcs st = Ok (calcs', add_jobs replots rs st)
    ∧ Forall2 is_replot_of fl replots.
Proof.
  revert calcs st. induction fl as [|p fl IH]; intros calcs st Hb Hkp.
  - exists calcs, [], []. split; [|constructor]. cbn. unfold m_ret. by rewrite add_jobs_nil.
  - inversion_clear Hb as [|? ? [base Hp] Hfl].
    cbn [for_each]. unfold m_bind at 1. rewrite (plot_body_ok _ _ base) by done.
    edestruct (IH (<[base ++ "_plot" := run_job world (replot_inputs inputs nl0 kp core p base)]> calcs)
                  (add_job (run_job world (replot_inputs inputs nl0 kp core p base))
                           (RLaunchReplot (res_epsilon_vector p)) st))
      as (calcs' & replots & rs & Hfe & HF); [done|done|].
    rewrite Hfe. eexists calcs', (_ :: replots), (_ :: rs).
    split; [by rewrite add_job_add_jobs|].
    constructor; [by apply replot_is_replot|done].
Qed.

(** One replot is launched for every accepted job, on the folder of that
    job and with the vector read back from its output parameters. *)
Lemma replots_launched st fl :
  finished_lanczos (ctx st) = Some fl →
  Forall has_base fl →
  scf_kpoint_mesh (ctx st) = Some kp →
  core_available inputs (ctx st) core →
  ∃ st' replots,
    run_all_xspectra_plot world inputs st = Ok (None, st')
    ∧ called st' = (called st ++ replots)%list
    ∧ Forall2 is_replot_of fl replots.
Proof.
  intros Hfl Hb Hkp Hcore.
  destruct (for_each_plot fl ∅ st Hb Hkp) as (calcs' & replots & rs & Hfe & HF).
  unfold run_all_xspectra_plot. mstep. rewrite Hfl.
  rewrite (get_core_wfc_data_ok _ _ core) by done. rewrite Hfe.
  eexists _, replots. split; [reflexivity|]. split; [reflexivity|done].
Qed.
End Replot.

(** ** The absorbing species index and the polarisation vectors *)

Lemma xiabs_fold_absent marker l x k :
  marker ∉ l → fold_left (xiabs_step marker) l (x, k) = (x, k + Z.of_nat (length l)).
Proof.
  revert x k. induction l as [|y l IH]; intros x k Hn; simpl.
  - f_equal. lia.
  - apply not_elem_of_cons in Hn as [Hne Hn].
    destruct (String.eqb_spec y marker) as [->|_]; [done|].
    rewrite IH by done. f_equal. lia.
Qed.

Lemma count_occ_zero_absent (marker : string) l :
  count_occ string_dec l marker = 0%nat → marker ∉ l.
Proof.
  intros H Hin. apply list_elem_of_In in Hin.
  apply (count_occ_In string_dec) in Hin. lia.
Qed.

Lemma xiabs_fold_once marker l x k :
  count_occ string_dec l marker = 1%nat →
  (fold_left (xiabs_step marker) l (x, k)).1 = (λ i, k + i) <$> list_index marker l.
Proof.
  revert x k. induction l as [|y l IH]; intros x k Hc; simpl in *; [done|].
  destruct (string_dec y marker) as [->|Hne].
  - rewrite String.eqb_refl. injection Hc as Hc.
    rewrite xiabs_fold_absent by (by apply count_occ_zero_absent).
    simpl. f_equal. lia.
  - destruct (String.eqb_spec y marker) as [?|_]; [done|].
    rewrite IH by done. destruct (list_index marker l); simpl; [|done].
    f_equal. lia.
Qed.

Lemma sorted_count_occ l (x : string) :
  count_occ string_dec (PyStr.sorted l) x = count_occ string_dec l x.
Proof.
  apply Permutation_count_occ. apply merge_sort_Permutation.
Qed.

(** C10: when the marker occurs exactly once among the kind names, the
    counter loop of the base work chain over the sorted names defines xiabs
    and gives the same value as the crystal work chain, the 1-based position
    of the marker in the sorted names. *)
Theorem xiabs_base_eq_crystal kinds marker :
  count_occ string_dec kinds marker = 1%nat →
  base_xiabs kinds marker = abs_species_index kinds marker
  ∧ is_Some (base_xiabs kinds marker).
Proof.
  intros Hc. unfold base_xiabs, abs_species_index.
  rewrite xiabs_fold_once by (by rewrite sorted_count_occ).
  assert (Hin : marker ∈ PyStr.sorted kinds).
  { apply list_elem_of_In, (count_occ_In string_dec). rewrite sorted_count_occ. lia. }
  assert (Hs : is_Some (list_index marker (PyStr.sorted kinds))).
  { clear Hc. induction (PyStr.sorted kinds) as [|y l IH]; [by apply elem_of_nil in Hin|].
    simpl. destruct (String.eqb_spec y marker) as [->|Hne]; [by eexists|].
    apply elem_of_cons in Hin as [->|Hin]; [done|].
    destruct (IH Hin) as [i ->]. by eexists. }
  destruct Hs as [i ->]. simpl. split; [f_equal; lia | by eexists].
Qed.

(** C10 on the kinds Si, X, O with the marker X: both give 3. *)
Lemma xiabs_witness :
  count_occ string_dec ["Si"; "X"; "O"] "X" = 1%nat
  ∧ base_xiabs ["Si"; "X"; "O"] "X" = abs_species_index ["Si"; "X"; "O"] "X"
  ∧ base_xiabs ["Si"; "X"; "O"] "X" = Some 3.
Proof.
  split; [reflexivity|]. split; [|reflexivity].
  apply (xiabs_base_eq_crystal ["Si"; "X"; "O"] "X"). reflexivity.
Defined.

(** C7: for a space-group number between 1 and 230 the selected vectors
    depend on the number alone: 1 to 74 give the three axes, 75 to 194 give
    [1,0,0] and [0,0,1], 195 to 230 give [1,0,0]; exactly one of the three
    range tests succeeds. *)
Theorem select_eps_vectors_by_range before n :
  1 <= n <= 230 →
  select_eps_vectors before n =
    Some (if n <=? 74 then
            [(Qc_of_Z 1, Qc_of_Z 0, Qc_of_Z 0);
             (Qc_of_Z 0, Qc_of_Z 1, Qc_of_Z 0);
             (Qc_of_Z 0, Qc_of_Z 0, Qc_of_Z 1)]
          else if n <=? 194 then
            [(Qc_of_Z 1, Qc_of_Z 0, Qc_of_Z 0); (Qc_of_Z 0, Qc_of_Z 0, Qc_of_Z 1)]
          else
            [(Qc_of_Z 1, Qc_of_Z 0, Qc_of_Z 0)])
  ∧ count_true [in_range 1 75 n; in_range 75 195 n; in_range 195 231 n] = 1%nat.
Proof.
  intros Hn. unfold select_eps_vectors, in_range, count_true.
  destruct (Z.leb_spec 1 n), (Z.ltb_spec n 75), (Z.leb_spec 75 n), (Z.ltb_spec n 195),
    (Z.leb_spec 195 n), (Z.ltb_spec n 231), (Z.leb_spec n 74), (Z.leb_spec n 194);
    try lia; simpl; done.
Qed.

(** ** The powder reduction *)

Lemma xy_arrays_eq (a b : XyArrays) :
  get_x a = get_x b → y_arrays a = y_arrays b → a = b.
Proof.
  destruct a as [xa ya Ha], b as [xb yb Hb]. simpl. intros -> ->.
  f_equal. apply proof_irrel.
Qed.

Lemma new_xy_ok x ys :
  same_shape x.1.2 ys = true →
  ∃ r, new_xy x ys = Ok r ∧ get_x r = x ∧ get_y r = Ok ys.
Proof.
  intros H. unfold new_xy. destruct (decide _) as [Hs|Hn].
  - by eexists.
  - destruct Hn. rewrite H. exact I.
Qed.

Lemma new_xy_raise x ys : same_shape x.1.2 ys = false → new_xy x ys = Raise ValueError.
Proof.
  intros H. unfold new_xy. destruct (decide _) as [Hs|Hn]; [|done].
  exfalso. rewrite H in Hs. exact Hs.
Qed.

Lemma powder_data_ok x y :
  length y = length x →
  ∃ r, powder_data x y = Ok r
       ∧ get_x r = ("energy", x, "eV") ∧ get_y r = Ok [(YStr "sigma", y, "n/a")].
Proof.
  intros H. apply new_xy_ok. cbn. by rewrite H, Nat.eqb_refl.
Qed.

Lemma first_y_array s y : y_array s = Some y → ∃ n u, first_y s = Ok (n, y, u).
Proof.
  unfold y_array, first_y, get_y. destruct (y_arrays _) as [ys|]; simpl; [|done].
  destruct (head ys) as [[[n y'] u]|]; simpl; [|done].
  intros [= ->]. by exists n, u.
Qed.

(** The first y array of a node has the shape of its x array. *)
Lemma y_array_shape s y : y_array s = Some y → length y = length (x_array s).
Proof.
  unfold y_array, x_array. destruct s as [[x ys Hshape] c]. simpl.
  destruct ys as [[|[[n y'] u] ys]|]; simpl; try done.
  intros [= <-]. simpl in Hshape. apply Is_true_true_1, andb_true_iff in Hshape as [Hy _].
  by apply Nat.eqb_eq in Hy.
Qed.

Lemma np_add_same_length a b :
  length a = length b → Np.add a b = Ok (zip_with Qcplus a b).
Proof. intros H. unfold Np.add. by rewrite H, Nat.eqb_refl. Qed.

Lemma dichoric_average_np ya yc :
  Np.div_scalar (zip_with Qcplus (Np.mul_scalar ya (Qc_of_Z 2)) yc) (Qc_of_Z 3)
  = dichoric_average ya yc.
Proof.
  unfold Np.div_scalar, Np.mul_scalar, dichoric_average.
  revert yc. induction ya as [|a ya IH]; intros [|c yc]; simpl; try done.
  f_equal; [|apply IH]. by rewrite (Qcmult_comm a).
Qed.

Lemma trichoric_average_np ya yb yc :
  Np.div_scalar (zip_with Qcplus (zip_with Qcplus ya yb) yc) (Qc_of_Z 3)
  = trichoric_average ya yb yc.
Proof.
  unfold Np.div_scalar, trichoric_average.
  revert yb yc. induction ya as [|a ya IH]; intros [|b yb] [|c yc]; simpl; try done.
  f_equal. apply IH.
Qed.

Lemma get_powder_spectrum_by_length kwargs :
  get_powder_spectrum kwargs =
    match length (drop_metadata kwargs) with
    | 1%nat => powder_isochoric (drop_metadata kwargs)
    | 2%nat => powder_dichoric (drop_metadata kwargs)
    | 3%nat => powder_trichoric (drop_metadata kwargs)
    | _ => Raise UnboundLocalError
    end.
Proof.
  unfold get_powder_spectrum.
  destruct (length (drop_metadata kwargs)) as [|[|[|[|n]]]]; simpl; try done.
  - by destruct (powder_isochoric _).
  - by destruct (powder_dichoric _).
  - by destruct (powder_trichoric _).
Qed.

Lemma powder_isochoric_ok kwargs label s y :
  drop_metadata kwargs = [(label, s)] →
  y_array s = Some y →
  ∃ r, get_powder_spectrum kwargs = Ok r
       ∧ get_x r = ("energy", x_array s, "eV")
       ∧ get_y r = Ok [(YStr "sigma", y, "n/a")].
Proof.
  intros Hk Hy. pose proof (y_array_shape _ _ Hy) as Hshape.
  apply first_y_array in Hy as (n & u & Hy).
  rewrite get_powder_spectrum_by_length, Hk.
  unfold powder_isochoric. simpl. rewrite String.eqb_refl. simpl.
  rewrite Hy. simpl. by apply powder_data_ok.
Qed.

Lemma dichoric_fold_ac la sa sc :
  la ∈ ["eps_100"; "eps_010"] →
  fold_left (dichoric_pick [(la, sa); ("eps_001", sc)]) [la; "eps_001"] (Ok (None, None))
  = Ok (Some sa, Some sc).
Proof.
  rewrite !elem_of_cons, elem_of_nil. intros [->|[->|[]]]; reflexivity.
Qed.

Lemma dichoric_fold_ca la sa sc :
  la ∈ ["eps_100"; "eps_010"] →
  fold_left (dichoric_pick [("eps_001", sc); (la, sa)]) ["eps_001"; la] (Ok (None, None))
  = Ok (Some sa, Some sc).
Proof.
  rewrite !elem_of_cons, elem_of_nil. intros [->|[->|[]]]; reflexivity.
Qed.

(** A two-entry dictionary that holds [la] and ["eps_001"] lists them in one
    of two orders. *)
Lemma two_entries (spectra : list (string * XyData)) la sa sc :
  length spectra = 2%nat → la ≠ "eps_001" →
  kw_lookup la spectra = Some sa → kw_lookup "eps_001" spectra = Some sc →
  spectra = [(la, sa); ("eps_001", sc)] ∨ spectra = [("eps_001", sc); (la, sa)].
Proof.
  intros Hlen Hne Ha Hc.
  destruct spectra as [|[k1 s1] [|[k2 s2] [|? ?]]]; try done.
  cbn [kw_lookup] in Ha, Hc.
  destruct (String.eqb_spec la k1) as [<-|Ha1].
  - injection Ha as ->.
    destruct (String.eqb_spec "eps_001" la) as [E|_]; [by symmetry in E|].
    destruct (String.eqb_spec "eps_001" k2) as [<-|_]; [|done].
    injection Hc as ->. by left.
  - destruct (String.eqb_spec la k2) as [<-|_]; [|done].
    injection Ha as ->.
    destruct (String.eqb_spec "eps_001" k1) as [<-|_].
    + injection Hc as ->. by right.
    + destruct (String.eqb_spec "eps_001" la) as [E|_]; [by symmetry in E|done].
Qed.

Lemma powder_dichoric_ok kwargs la sa sc ya yc :
  length (drop_metadata kwargs) = 2%nat →
  la ∈ ["eps_100"; "eps_010"] →
  kw_lookup la (drop_metadata kwargs) = Some sa →
  kw_lookup "eps_001" (drop_metadata kwargs) = Some sc →
  y_array sa = Some ya → y_array sc = Some yc → length ya = length yc →
  ∃ r, get_powder_spectrum kwargs = Ok r
       ∧ get_x r = ("energy", x_array sa, "eV")
       ∧ get_y r = Ok [(YStr "sigma", dichoric_average ya yc, "n/a")].
Proof.
  intros Hlen Hla Ha Hc Hya Hyc Hl.
  pose proof (y_array_shape _ _ Hya) as Hshape.
  assert (Hav : length (dichoric_average ya yc) = length (x_array sa)).
  { unfold dichoric_average. rewrite length_zip_with. lia. }
  apply first_y_array in Hya as (na & ua & Hya).
  apply first_y_array in Hyc as (nc & uc & Hyc).
  assert (Hne : la ≠ "eps_001").
  { revert Hla. rewrite !elem_of_cons, elem_of_nil. by intros [->|[->|[]]]. }
  assert (Hadd : Np.add (Np.mul_scalar ya (Qc_of_Z 2)) yc
                 = Ok (zip_with Qcplus (Np.mul_scalar ya (Qc_of_Z 2)) yc)).
  { apply np_add_same_length. unfold Np.mul_scalar. by rewrite length_map. }
  rewrite get_powder_spectrum_by_length, Hlen. unfold powder_dichoric.
  destruct (two_entries _ _ _ _ Hlen Hne Ha Hc) as [-> | ->].
  - change ([(la, sa); ("eps_001", sc)].*1) with [la; "eps_001"].
    rewrite dichoric_fold_ac by done. simpl. rewrite Hya, Hyc. simpl.
    rewrite Hadd. simpl. rewrite dichoric_average_np. by apply powder_data_ok.
  - change ([("eps_001", sc); (la, sa)].*1) with ["eps_001"; la].
    rewrite dichoric_fold_ca by done. simpl. rewrite Hya, Hyc. simpl.
    rewrite Hadd. simpl. rewrite dichoric_average_np. by apply powder_data_ok.
Qed.

Lemma powder_trichoric_ok kwargs sa sb sc ya yb yc :
  length (drop_metadata kwargs) = 3%nat →
  kw_lookup "eps_100" (drop_metadata kwargs) = Some sa →
  kw_lookup "eps_010" (drop_metadata kwargs) = Some sb →
  kw_lookup "eps_001" (drop_metadata kwargs) = Some sc →
  y_array sa = Some ya → y_array sb = Some yb → y_array sc = Some yc →
  length ya = length yb → length yb = length yc →
  ∃ r, get_powder_spectrum kwargs = Ok r
       ∧ get_x r = ("energy", x_array sa, "eV")
       ∧ get_y r = Ok [(YStr "sigma", trichoric_average ya yb yc, "n/a")].
Proof.
  intros Hlen Ha Hb Hc Hya Hyb Hyc Hab Hbc.
  pose proof (y_array_shape _ _ Hya) as Hshape.
  assert (Hav : length (trichoric_average ya yb yc) = length (x_array sa)).
  { unfold trichoric_average. rewrite length_zip_with, length_zip. lia. }
  apply first_y_array in Hya as (na & ua & Hya).
  apply first_y_array in Hyb as (nb & ub & Hyb).
  apply first_y_array in Hyc as (nc & uc & Hyc).
  rewrite get_powder_spectrum_by_length, Hlen.
  unfold powder_trichoric. rewrite Ha, Hb, Hc. simpl. rewrite Hya, Hyb, Hyc. simpl.
  rewrite (np_add_same_length ya yb) by done. simpl.
  rewrite np_add_same_length by (rewrite length_zip_with; lia). simpl.
  rewrite trichoric_average_np. by apply powder_data_ok.
Qed.

(** C3: [get_powder_spectrum] returns, for exactly one spectrum, its x
    array and its first y array unchanged, labelled sigma with units n/a;
    for exactly two spectra, one under eps_100 or eps_010 and one under
    eps_001, the y values (2 * y_A + y_C) / 3 elementwise; for exactly
    three spectra under eps_100, eps_010 and eps_001, the y values
    (y_A + y_B + y_C) / 3 elementwise.  In the last two cases the x array
    is the one of the A spectrum and the y arrays have equal lengths. *)
Theorem get_powder_spectrum_cases :
  (∀ kwargs label s y,
     drop_metadata kwargs = [(label, s)] →
     y_array s = Some y →
     ∃ r, get_powder_spectrum kwargs = Ok r
          ∧ get_x r = ("energy", x_array s, "eV")
          ∧ get_y r = Ok [(YStr "sigma", y, "n/a")])
  ∧ (∀ kwargs la sa sc ya yc,
       length (drop_metadata kwargs) = 2%nat →
       la ∈ ["eps_100"; "eps_010"] →
       kw_lookup la (drop_metadata kwargs) = Some sa →
       kw_lookup "eps_001" (drop_metadata kwargs) = Some sc →
       y_array sa = Some ya → y_array sc = Some yc → length ya = length yc →
       ∃ r, get_powder_spectrum kwargs = Ok r
            ∧ get_x r = ("energy", x_array sa, "eV")
            ∧ get_y r = Ok [(YStr "sigma", dichoric_average ya yc, "n/a")])
  ∧ (∀ kwargs sa sb sc ya yb yc,
       length (drop_metadata kwargs) = 3%nat →
       kw_lookup "eps_100" (drop_metadata kwargs) = Some sa →
       kw_lookup "eps_010" (drop_metadata kwargs) = Some sb →
       kw_lookup "eps_001" (drop_metadata kwargs) = Some sc →
       y_array sa = Some ya → y_array sb = Some yb → y_array sc = Some yc →
       length ya = length yb → length yb = length yc →
       ∃ r, get_powder_spectrum kwargs = Ok r
            ∧ get_x r = ("energy", x_array sa, "eV")
            ∧ get_y r = Ok [(YStr "sigma", trichoric_average ya yb yc, "n/a")]).
Proof.
  split; [|split].
  - intros. by eapply powder_isochoric_ok.
  - intros. by eapply powder_dichoric_ok.
  - intros. by eapply powder_trichoric_ok.
Qed.

Lemma dichoric_average_example :
  dichoric_average [Qc_of_Z 2; Qc_of_Z 4] [Qc_of_Z 5; Qc_of_Z 8]
  = [Qc_of_Z 3; Q2Qc (16 # 3)].
Proof. unfold dichoric_average. cbn. repeat f_equal; by apply Qc_is_canon. Qed.

(** C3 on the dichoric example y_A = [2, 4], y_C = [5, 8]. *)
Lemma get_powder_spectrum_cases_witness :
  let sa := mkXyData (mkXy ("energy", [Qc_of_Z 0; Qc_of_Z 1], "eV")
                           (Some [(YStr "sigma_tot", [Qc_of_Z 2; Qc_of_Z 4], "arb. units")]) I)
                     None in
  let sc := mkXyData (mkXy ("energy", [Qc_of_Z 0; Qc_of_Z 1], "eV")
                           (Some [(YStr "sigma_tot", [Qc_of_Z 5; Qc_of_Z 8], "arb. units")]) I)
                     None in
  ∃ r, get_powder_spectrum [("eps_001", sc); ("eps_100", sa)] = Ok r
       ∧ get_x r = ("energy", [Qc_of_Z 0; Qc_of_Z 1], "eV")
       ∧ get_y r = Ok [(YStr "sigma",
                        dichoric_average [Qc_of_Z 2; Qc_of_Z 4] [Qc_of_Z 5; Qc_of_Z 8],
                        "n/a")].
Proof.
  intros sa sc.
  apply (proj1 (proj2 get_powder_spectrum_cases)
           [("eps_001", sc); ("eps_100", sa)] "eps_100" sa sc
           [Qc_of_Z 2; Qc_of_Z 4] [Qc_of_Z 5; Qc_of_Z 8]).
  - reflexivity.
  - apply list_elem_of_here.
  - reflexivity.
  - reflexivity.
  - reflexivity.
  - reflexivity.
  - reflexivity.
Defined.

(** A malformed set, [eps_100] with [eps_010], fails in the reduction. *)
Example get_powder_spectrum_a_b :
  let s := mkXyData (mkXy ("energy", [Qc_of_Z 0], "eV")
                          (Some [(YStr "sigma_tot", [Qc_of_Z 1], "n/a")]) I)
                    None in
  get_powder_spectrum [("eps_100", s); ("eps_010", s)] = Raise UnboundLocalError.
Proof. reflexivity. Qed.

(** C7 at the space-group number 194, the last dichoric one. *)
Lemma select_eps_vectors_by_range_witness :
  select_eps_vectors None 194
  = Some [(Qc_of_Z 1, Qc_of_Z 0, Qc_of_Z 0); (Qc_of_Z 0, Qc_of_Z 0, Qc_of_Z 1)]
  ∧ count_true [in_range 1 75 194; in_range 75 195 194; in_range 195 231 194] = 1%nat.
Proof. apply (select_eps_vectors_by_range None 194). lia. Defined.

Example select_eps_vectors_examples :
  select_eps_vectors None 1 = Some trichoric_vectors
  ∧ select_eps_vectors None 74 = Some trichoric_vectors
  ∧ select_eps_vectors None 75 = Some dichoric_vectors
  ∧ select_eps_vectors None 195 = Some isochoric_vectors
  ∧ select_eps_vectors None 230 = Some isochoric_vectors
  ∧ select_eps_vectors None 231 = None
  ∧ select_eps_vectors None 0 = None.
Proof. repeat split; reflexivity. Qed.

(** * Further properties of the work chains *)

(** ** A failed SCF *)



(** ** Validated inputs *)

Lemma abs_atom_found_iff (marker : string) kinds found :
  fold_left (λ found kind, if String.eqb kind marker then true else found) kinds found = true
  ↔ found = true ∨ marker ∈ kinds.
Proof.
  revert found. induction kinds as [|k kinds IH]; intros found; cbn [fold_left].
  - rewrite elem_of_nil. tauto.
  - rewrite IH, elem_of_cons. destruct (String.eqb_spec k marker) as [->|Hne].
    + tauto.
    + split; [tauto|]. intros [?|[?|?]]; [tauto|congruence|tauto].
Qed.

Lemma xiabs_fold_range marker l o k x :
  (fold_left (xiabs_step marker) l (o, k)).1 = Some x →
  o = Some x ∨ k <= x <= k + Z.of_nat (length l) - 1.
Proof.
  revert o k. induction l as [|y l IH]; intros o k H; cbn [fold_left] in H.
  - by left.
  - unfold xiabs_step at 2 in H. cbn [length]. destruct (String.eqb y marker).
    + apply IH in H as [[= ->]|H]; right; lia.
    + apply IH in H as [H|H]; [by left|right; lia].
Qed.

(** Inputs that [validate_inputs] accepts hold at least one polarisation
    vector, a source for the core wave function, and the marker among the
    kind names; the counter loop of [run_all_xspectra_prod] then binds
    xiabs to a position between 1 and the number of kinds. *)
Theorem validated_inputs_bind_xiabs inputs code_given :
  validate_inputs inputs code_given = None →
  eps_vectors inputs ≠ []
  ∧ (is_Some (core_wfc_data inputs) ∨ code_given = true)
  ∧ abs_atom_marker inputs ∈ structure_kinds inputs
  ∧ ∃ x, base_xiabs (structure_kinds inputs) (abs_atom_marker inputs) = Some x
         ∧ 1 <= x <= Z.of_nat (length (structure_kinds inputs)).
Proof.
  unfold validate_inputs. intros H.
  destruct (eps_vectors inputs) as [|v vs] eqn:Ev; [done|]. cbn [length Nat.eqb] in H.
  destruct (negb (bool_decide (is_Some (core_wfc_data inputs))) && negb code_given)
    eqn:Ecore; [done|].
  destruct (fold_left _ (structure_kinds inputs) false) eqn:Efound; [|done].
  apply abs_atom_found_iff in Efound as [?|Hin]; [done|].
  split; [done|]. split.
  { apply andb_false_iff in Ecore as [E|E]; apply negb_false_iff in E.
    - left. by apply bool_decide_eq_true in E.
    - by right. }
  split; [done|].
  destruct (base_xiabs_present _ _ Hin) as [x Hx]. exists x. split; [done|].
  unfold base_xiabs in Hx. apply xiabs_fold_range in Hx as [?|Hx]; [done|].
  assert (length (PyStr.sorted (structure_kinds inputs)) = length (structure_kinds inputs)) as E.
  { apply Permutation_length. apply merge_sort_Permutation. }
  rewrite E in Hx.
  assert (0 < length (structure_kinds inputs))%nat.
  { destruct (structure_kinds inputs); [by apply elem_of_nil in Hin|cbn; lia]. }
  lia.
Qed.

Lemma validated_inputs_bind_xiabs_witness :
  eps_vectors (Demo.inputs [Demo.e100; Demo.e001] false) ≠ []
  ∧ (is_Some (core_wfc_data (Demo.inputs [Demo.e100; Demo.e001] false)) ∨ false = true)
  ∧ "X" ∈ ["Si"; "X"; "O"]
  ∧ ∃ x, base_xiabs ["Si"; "X"; "O"] "X" = Some x ∧ 1 <= x <= 3.
Proof.
  apply (validated_inputs_bind_xiabs (Demo.inputs [Demo.e100; Demo.e001] false) false).
  reflexivity.
Defined.

(** The checks are made in order and the first that fails gives the
    message. *)
Example validate_inputs_messages :
  validate_inputs (Demo.inputs [] false) false = Some "Error: eps_vectors list empty."
  ∧ validate_inputs (mkWcInputs [Demo.e100] ["Si"] "X" false false None ∅ 3600 ∅) false
    = Some "Error: either a core wavefunction file or a code node for upf2plotcore.sh must be provided."
  ∧ validate_inputs (mkWcInputs [Demo.e100] ["Si"] "X" false false None ∅ 3600 ∅) true
    = Some ("Error: the marker given for the absorbing atom (" ++ dquote ++ "X" ++ dquote
            ++ ") does not appear in the structure provided.").
Proof. repeat split; reflexivity. Qed.

(** ** Processes come from the engine *)

Lemma kfw_ret {A} world (a : A) : keeps_from_world world (m_ret a).
Proof. intros st a' st' [= _ <-]. done. Qed.

Lemma kfw_lift {A} world (r : Res A) : keeps_from_world world (lift r).
Proof. intros st a st' H. unfold lift in H. destruct r; [|done]. by injection H as _ <-. Qed.

Lemma kfw_bind {A B} world (m : M A) (f : A → M B) :
  keeps_from_world world m → (∀ a, keeps_from_world world (f a)) →
  keeps_from_world world (m_bind m f).
Proof.
  intros Hm Hf st b st' H Hst. unfold m_bind in H.
  destruct (m st) as [[a st1]|] eqn:E; [|done].
  eapply Hf; [exact H|]. by eapply Hm.
Qed.

Lemma kfw_ctx_attr {A} world (f : Ctx → option A) : keeps_from_world world (ctx_attr f).
Proof.
  intros st a st' H. unfold ctx_attr, m_bind, get_ctx, lift, expect in H.
  destruct (f (ctx st)); [|done]. by injection H as _ <-.
Qed.

Lemma kfw_ctx_item world label : keeps_from_world world (ctx_item label).
Proof.
  intros st a st' H. unfold ctx_item, m_bind, get_ctx, lift, expect in H.
  destruct (named (ctx st) !! label); [|done]. by injection H as _ <-.
Qed.

Lemma kfw_modify_ctx world f : keeps_from_world world (modify_ctx f).
Proof. intros st a st' [= _ <-]. done. Qed.

Lemma kfw_report world r : keeps_from_world world (report r).
Proof. intros st a st' [= _ <-]. done. Qed.

Lemma kfw_modify_outputs world f : keeps_from_world world (modify_outputs f).
Proof. intros st a st' [= _ <-]. done. Qed.

Lemma kfw_submit world i : keeps_from_world world (submit world i).
Proof.
  intros st a st' [= _ <-] Hst. cbn. apply Forall_app. split; [done|].
  by apply Forall_singleton.
Qed.

Lemma kfw_for_each {A S} world (body : S → A → M S) l s :
  (∀ s a, keeps_from_world world (body s a)) → keeps_from_world world (for_each body l s).
Proof.
  intros Hb. revert s. induction l as [|a l IH]; intros s; cbn [for_each].
  - apply kfw_ret.
  - apply kfw_bind; [apply Hb|]. intros s'. apply IH.
Qed.

Lemma kfw_for_each_return {A S} world (body : S → A → M (S + Z)) l s :
  (∀ s a, keeps_from_world world (body s a)) →
  keeps_from_world world (for_each_return body l s).
Proof.
  intros Hb. revert s. induction l as [|a l IH]; intros s; cbn [for_each_return].
  - apply kfw_ret.
  - apply kfw_bind; [apply Hb|]. intros [s'|code]; [apply IH|apply kfw_ret].
Qed.

Lemma kfw_get_core_wfc_data world inputs : keeps_from_world world (get_core_wfc_data inputs).
Proof.
  unfold get_core_wfc_data. destruct (core_wfc_data inputs); [apply kfw_ret|apply kfw_ctx_attr].
Qed.

Lemma kfw_run_all_xspectra_prod world inputs :
  keeps_from_world world (run_all_xspectra_prod world inputs).
Proof.
  unfold run_all_xspectra_prod.
  apply kfw_bind; [apply kfw_get_core_wfc_data|]. intros core.
  apply kfw_bind; [apply kfw_ctx_attr|]. intros rl.
  apply kfw_bind.
  { destruct (length rl =? 0)%nat.
    - apply kfw_bind.
      + apply kfw_for_each. intros [[calcs labels] n] v. unfold prod_fresh_body.
        apply kfw_bind; [apply kfw_lift|]. intros x.
        apply kfw_bind; [apply kfw_lift|]. intros nl.
        apply kfw_bind; [apply kfw_ctx_attr|]. intros pf.
        apply kfw_bind; [apply kfw_ctx_attr|]. intros kp.
        apply kfw_bind; [apply kfw_submit|]. intros j.
        apply kfw_bind; [apply kfw_report|]. intros _. apply kfw_ret.
      + intros [[calcs labels] n]. apply kfw_ret.
    - apply kfw_for_each. intros [calcs labels] c. unfold prod_restart_body.
      apply kfw_bind; [apply kfw_lift|]. intros nl.
      apply kfw_bind; [apply kfw_lift|]. intros x1.
      apply kfw_bind; [apply kfw_lift|]. intros x2.
      apply kfw_bind; [apply kfw_lift|]. intros x3.
      apply kfw_bind; [apply kfw_ctx_attr|]. intros kp.
      apply kfw_bind; [apply kfw_lift|]. intros lp.
      apply kfw_bind; [apply kfw_lift|]. intros it.
      apply kfw_bind; [apply kfw_lift|]. intros label.
      apply kfw_bind; [apply kfw_submit|]. intros j.
      apply kfw_bind; [apply kfw_report|]. intros _. apply kfw_ret. }
  intros [calcs labels].
  apply kfw_bind; [apply kfw_modify_ctx|]. intros _.
  apply kfw_bind; [apply kfw_modify_ctx|]. intros _. apply kfw_ret.
Qed.

Lemma kfw_collect_calculations world key labels :
  keeps_from_world world (collect_calculations key labels).
Proof.
  unfold collect_calculations. apply kfw_for_each. intros acc label.
  apply kfw_bind; [apply kfw_ctx_item|]. intros c. apply kfw_ret.
Qed.

Lemma kfw_inspect_all_xspectra_prod world :
  keeps_from_world world inspect_all_xspectra_prod.
Proof.
  unfold inspect_all_xspectra_prod.
  apply kfw_bind; [apply kfw_ctx_attr|]. intros labels.
  apply kfw_bind; [apply kfw_collect_calculations|]. intros calcs.
  apply kfw_bind.
  { apply kfw_for_each_return. intros [rl flag] c. unfold inspect_prod_body.
    destruct (negb (is_finished_ok c)).
    - apply kfw_bind; [apply kfw_lift|]. intros lbl.
      destruct (exit_status_is c 400);
        (apply kfw_bind; [apply kfw_report|]); intros _; apply kfw_ret.
    - apply kfw_bind; [apply kfw_ctx_attr|]. intros fl.
      apply kfw_bind; [apply kfw_modify_ctx|]. intros _. apply kfw_ret. }
  intros [[rl flag]|code]; [|apply kfw_ret].
  destruct flag; (apply kfw_bind; [apply kfw_modify_ctx|]); intros _; apply kfw_ret.
Qed.

Lemma rounds_from_world world inputs n st st' :
  prod_rounds world inputs n st st' →
  Forall (from_world world) (called st) → Forall (from_world world) (called st').
Proof.
  induction 1 as [st|n st st1 st2 st3 Hrep Hrun Hins Hr IH]; [done|].
  intros Hst. apply IH.
  eapply kfw_inspect_all_xspectra_prod; [exact Hins|].
  eapply kfw_run_all_xspectra_prod; [exact Hrun|done].
Qed.

(** ** Restarts without limit *)

Lemma timed_out_from_world world c :
  always_times_out world → from_world world c → timed_out c = true.
Proof.
  intros Hw Hc. unfold timed_out, is_finished_ok, exit_status_is, exit_status.
  rewrite Hc, Hw. reflexivity.
Qed.

Lemma filter_all {A} (P : A → Prop) `{∀ x, Decision (P x)} (l : list A) :
  Forall P l → filter P l = l.
Proof.
  induction 1 as [|x l Hx _ IH]; [done|]. by rewrite filter_cons_True, IH.
Qed.

Lemma existsb_all {A} (f : A → bool) (l : list A) :
  l ≠ [] → Forall (λ x, f x = true) l → existsb f l = true.
Proof. intros Hne Hall. destruct Hall as [|x l Hx _]; [done|]. cbn. by rewrite Hx. Qed.

Lemma rounds_snoc world inputs n st0 st st1 st2 :
  prod_rounds world inputs n st0 st →
  should_repeat_xs_prod st = Ok (true, st) →
  run_all_xspectra_prod world inputs st = Ok (None, st1) →
  inspect_all_xspectra_prod st1 = Ok (None, st2) →
  prod_rounds world inputs (S n) st0 st2.
Proof.
  induction 1 as [st|n st0 sta stb st Hrep Hrun Hins Hr IH]; intros Hrep' Hrun' Hins'.
  - eapply rounds_S; [done..|]. apply rounds_O.
  - eapply rounds_S; [done..|]. by apply IH.
Qed.

Section NoLimit.
Variable world : World.
Variable inputs : WcInputs.
Hypothesis Hconfig : config_ok inputs.
Hypothesis Hvectors : eps_vectors inputs ≠ [].
Hypothesis Hworld : always_times_out world.

Lemma restarting_round st :
  restarting world inputs st →
  ∃ st1 st2,
    run_all_xspectra_prod world inputs st = Ok (None, st1)
    ∧ inspect_all_xspectra_prod st1 = Ok (None, st2)
    ∧ length (called st2) = (length (called st) + length (eps_vectors inputs))%nat
    ∧ restarting world inputs st2.
Proof.
  intros (Hinv & Hb & Hfw & rl0 & Hrl0 & Hlen).
  destruct (round_run world inputs Hconfig st Hinv Hb)
    as (keyed & rs & rl & fl & pf & Hrl & Hfl & Hpf & Hrun & Hkwf & Hknd & Hfresh & Hrest).
  rewrite Hrl in Hrl0. injection Hrl0 as <-.
  assert (Hbatch : Forall (from_world world) keyed.*2).
  { pose proof (kfw_run_all_xspectra_prod world inputs _ _ _ Hrun Hfw) as H.
    cbn in H. by apply Forall_app in H as [_ H]. }
  assert (Hto : Forall (λ c, timed_out c = true) keyed.*2).
  { eapply Forall_impl; [exact Hbatch|]. intros c. by apply timed_out_from_world. }
  assert (Hblen : length keyed.*2 = length (eps_vectors inputs)).
  { destruct Hlen as [->|Hlen].
    - destruct Hfresh as [_ HF]; [done|]. apply Forall2_length in HF.
      by rewrite length_fmap.
    - assert (rl ≠ []) as Hne.
      { intros ->. cbn in Hlen. destruct (eps_vectors inputs); [done|discriminate Hlen]. }
      specialize (Hrest Hne). apply Forall2_length in Hrest. congruence. }
  assert (Hbne : keyed.*2 ≠ []).
  { intros E. rewrite E in Hblen. cbn in Hblen. by destruct (eps_vectors inputs). }
  destruct (batch_inspect keyed rs st fl Hfl Hkwf Hknd) as [(Hnf & rs' & Hins)|(Hfat & _)].
  2: { exfalso. apply Exists_exists in Hfat as (c & Hc & Hfat).
       rewrite Forall_forall in Hto. specialize (Hto c Hc).
       destruct (job_cases c) as [(_ & ? & _)|[(_ & _ & ?)|(_ & ? & _)]]; congruence. }
  destruct (round_step world inputs Hconfig st _ _ Hinv Hb Hrun Hins)
    as (batch & fl' & rl' & pf' & _ & _ & _ & Hc1 & Hc2 & _ & _ & _ & _ & _ & Hex & _ & _ & Hinv2).
  cbn in Hc1. apply app_inv_head in Hc1 as <-.
  rewrite (existsb_all timed_out) in Hex by done. destruct Hex as [Hrl2 Hb2].
  eexists _, _. split; [exact Hrun|]. split; [exact Hins|].
  split. { rewrite Hc2. cbn. by rewrite length_app, Hblen. }
  split; [done|]. split; [done|]. split.
  { rewrite Hc2. cbn. apply Forall_app. by split. }
  eexists. split; [exact Hrl2|]. right. by rewrite filter_all.
Qed.

Lemma restarting_entry : restarting world inputs (entry_state world inputs).
Proof.
  split; [apply loop_entry_inv, entry_state_entry|].
  destruct (entry_state_entry world inputs) as (Hb & Hrl & _).
  split; [done|]. split.
  { unfold entry_state. destruct (should_run_upf2plotcore inputs); constructor. }
  exists []. split; [done|]. by left.
Qed.

Lemma restarting_rounds n :
  ∃ st, prod_rounds world inputs n (entry_state world inputs) st
        ∧ length (called st) = (n * length (eps_vectors inputs))%nat
        ∧ restarting world inputs st.
Proof.
  induction n as [|n (st & Hr & Hlen & Hst)].
  - exists (entry_state world inputs). split; [apply rounds_O|]. split.
    + unfold entry_state. by destruct (should_run_upf2plotcore inputs).
    + apply restarting_entry.
  - destruct (restarting_round st Hst) as (st1 & st2 & Hrun & Hins & Hlen2 & Hst2).
    exists st2. split.
    + eapply rounds_snoc; [exact Hr| |exact Hrun|exact Hins].
      apply should_repeat_true. by destruct Hst as (_ & Hb & _).
    + split; [|done]. rewrite Hlen2, Hlen. lia.
Qed.

Lemma restarting_while fuel rest st :
  restarting world inputs st → while_xs_prod world inputs fuel rest st = OutOfFuel.
Proof.
  revert st. induction fuel as [|fuel IH]; intros st Hst.
  - pose proof Hst as (_ & Hb & _). apply should_repeat_true in Hb.
    cbn [while_xs_prod]. by rewrite Hb.
  - pose proof Hst as (_ & Hb & _). apply should_repeat_true in Hb.
    destruct (restarting_round st Hst) as (st1 & st2 & Hrun & Hins & _ & Hst2).
    cbn [while_xs_prod]. rewrite Hb. unfold step_then at 1. rewrite Hrun.
    unfold step_then at 1. rewrite Hins. by apply IH.
Qed.

(** The production loop puts no limit on restarts: when every
    XspectraCalculation ends with exit status 400, each pass resubmits one
    job per vector, after [n] passes [n] times as many jobs as vectors have
    been called, and the work chain never leaves the loop. *)
Theorem restarts_have_no_limit :
  scf_is_finished_ok (run_pw_base world) = true →
  (∀ fuel, outline world inputs fuel = OutOfFuel)
  ∧ (∀ n, ∃ st, prod_rounds world inputs n (entry_state world inputs) st
                ∧ should_repeat_xs_prod st = Ok (true, st)
                ∧ length (called st) = (n * length (eps_vectors inputs))%nat).
Proof.
  intros Hscf. split.
  - intros fuel. rewrite outline_entry by done. unfold from_prod.
    apply restarting_while, restarting_entry.
  - intros n. destruct (restarting_rounds n) as (st & Hr & Hlen & _ & Hb & _).
    exists st. split; [done|]. split; [by apply should_repeat_true|done].
Qed.
End NoLimit.

(** ** The replot stage, job by job *)

Section ReplotKeyed.
Variable world : World.
Variable inputs : WcInputs.
Variables (nl0 : gmap string value) (kp : KpointsData) (core : SinglefileData).
Hypothesis Hnl0 : xs_plot_parameters inputs !! "INPUT_XSPECTRA" = Some nl0.

Lemma for_each_plot_keyed keyed calcs st :
  Forall (λ kv, job_base kv.2 = Ok kv.1) keyed →
  scf_kpoint_mesh (ctx st) = Some kp →
  for_each (plot_body world inputs core) keyed.*2 calcs st
  = Ok (insert_all (plot_keyed world inputs nl0 kp core keyed) calcs,
        add_jobs (plot_keyed world inputs nl0 kp core keyed).*2
                 ((λ c, RLaunchReplot (res_epsilon_vector c)) <$> keyed.*2) st).
Proof.
  revert calcs st. induction keyed as [|[base p] keyed IH]; intros calcs st Hb Hkp.
  - cbn. unfold m_ret. by rewrite add_jobs_nil.
  - inversion_clear Hb as [|? ? Hp Hfl]. cbn in Hp.
    cbn [fmap list_fmap snd for_each]. unfold m_bind at 1.
    rewrite (plot_body_ok world inputs nl0 kp core Hnl0 _ _ base) by done.
    rewrite IH by done. by rewrite add_job_add_jobs.
Qed.

Lemma run_all_xspectra_plot_keyed keyed st :
  finished_lanczos (ctx st) = Some keyed.*2 →
  Forall (λ kv, job_base kv.2 = Ok kv.1) keyed →
  scf_kpoint_mesh (ctx st) = Some kp →
  core_available inputs (ctx st) core →
  run_all_xspectra_plot world inputs st
  = Ok (None,
        mkWcState (to_context (insert_all (plot_keyed world inputs nl0 kp core keyed) ∅) (ctx st))
                  (reports st ++ ((λ c, RLaunchReplot (res_epsilon_vector c)) <$> keyed.*2))%list
                  (called st ++ (plot_keyed world inputs nl0 kp core keyed).*2)%list
                  (outputs st)).
Proof.
  intros Hfl Hb Hkp Hcore. unfold run_all_xspectra_plot. mstep. rewrite Hfl.
  rewrite (get_core_wfc_data_ok _ _ core) by done.
  rewrite for_each_plot_keyed by done. reflexivity.
Qed.
End ReplotKeyed.

Lemma inspect_plot_body_ok flag acc c st :
  is_finished_ok c = true →
  inspect_plot_body (flag, acc) c st = Ok ((flag, (acc ++ [c])%list), st).
Proof. intros H. unfold inspect_plot_body. rewrite H. reflexivity. Qed.

Lemma inspect_plot_body_failed flag acc c st :
  is_finished_ok c = false →
  inspect_plot_body (flag, acc) c st
  = Ok ((true, acc), with_ctx (ctx st) [RReplotFailed (exit_status c)] st).
Proof. intros H. unfold inspect_plot_body. rewrite H. reflexivity. Qed.

Lemma inspect_plot_loop l flag acc st :
  for_each inspect_plot_body l (flag, acc) st
  = Ok ((flag || existsb (λ c, negb (is_finished_ok c)) l,
         (acc ++ filter (λ c, is_finished_ok c = true) l)%list),
        with_ctx (ctx st) (replot_reports l) st).
Proof.
  revert flag acc st. induction l as [|c l IH]; intros flag acc st.
  - cbn. unfold m_ret. by rewrite orb_false_r, app_nil_r, with_ctx_id.
  - cbn [for_each]. unfold m_bind at 1. unfold replot_reports.
    destruct (is_finished_ok c) eqn:E.
    + rewrite inspect_plot_body_ok by done. rewrite IH. rewrite filter_cons_True by done.
      rewrite (filter_cons_False (λ c, is_finished_ok c = false)) by congruence.
      cbn [existsb]. rewrite E. cbn [negb orb]. by rewrite <- app_assoc.
    + rewrite inspect_plot_body_failed by done. rewrite IH.
      rewrite filter_cons_False by congruence.
      rewrite (filter_cons_True (λ c, is_finished_ok c = false)) by done.
      cbn [existsb]. rewrite E. cbn [negb orb]. rewrite orb_true_r.
      unfold with_ctx, replot_reports. cbn. by rewrite <- app_assoc.
Qed.

Lemma inspect_all_xspectra_plot_eval st labels replots :
  xspectra_calc_labels (ctx st) = Some labels →
  Forall2 (λ l j, named (ctx st) !! (l ++ "_plot") = Some j) labels replots →
  inspect_all_xspectra_plot st
  = if existsb (λ c, negb (is_finished_ok c)) replots
    then Ok (Some ERROR_SUB_PROCESS_FAILED_XSPECTRA, with_ctx (ctx st) (replot_reports replots) st)
    else Ok (None, with_ctx (set_finished_replots replots (ctx st)) (replot_reports replots) st).
Proof.
  intros Hl HF. unfold inspect_all_xspectra_plot. mstep. rewrite Hl.
  rewrite (collect_calculations_ok _ _ replots) by done.
  rewrite inspect_plot_loop. cbn [orb app].
  destruct (existsb _ replots) eqn:E; [reflexivity|].
  rewrite filter_all; [reflexivity|].
  apply Forall_forall. intros c Hc'.
  destruct (is_finished_ok c) eqn:Eok; [done|].
  assert (existsb (λ c, negb (is_finished_ok c)) replots = true); [|congruence].
  apply existsb_exists. exists c. split; [by apply list_elem_of_In|by rewrite Eok].
Qed.

(** ** Compiling the spectra *)

Lemma all_spectra_loop spectra entries ys us ls x :
  Forall2 (λ s e, sigma_entry s = Some e) spectra entries →
  fold_left all_spectra_step spectra (Ok (ys, us, ls, x))
  = Ok ((ys ++ entries.*1.*2)%list, (us ++ entries.*2)%list, (ls ++ entries.*1.*1)%list,
        from_option (λ s, Some (get_x (xy_arrays s))) x (last spectra)).
Proof.
  intros HF. revert ys us ls x.
  induction HF as [|s e spectra entries He _ IH]; intros ys us ls x.
  - cbn. by rewrite !app_nil_r.
  - cbn [fold_left]. unfold sigma_entry in He.
    unfold all_spectra_step at 2. cbn [mbind Res_bind].
    destruct (xy_creator s) as [c|]; [|done]. cbn in He. unfold first_y, get_y.
    destruct (y_arrays (xy_arrays s)) as [ys0|]; [|done]. cbn in He.
    cbn [expect mbind Res_bind].
    destruct (head ys0) as [y|]; [|done]. injection He as <-.
    cbn [expect mbind Res_bind]. rewrite IH. cbn [fmap list_fmap fst snd].
    rewrite <- !app_assoc. cbn [app]. f_equal. f_equal.
    destruct spectra as [|s' spectra]; [done|].
    change (last (s :: s' :: spectra)) with (last (s' :: spectra)).
    destruct (last (s' :: spectra)) eqn:E; [done|]. by apply last_None in E.
Qed.

Lemma all_spectra_loop_fails spectra e :
  fold_left all_spectra_step spectra (Raise e) = Raise e.
Proof. induction spectra as [|s spectra IH]; [done|]. cbn. apply IH. Qed.

Lemma get_all_spectra_eval kwargs entries s :
  Forall2 (λ s e, sigma_entry s = Some e) (drop_metadata kwargs).*2 entries →
  last (drop_metadata kwargs).*2 = Some s →
  get_all_spectra kwargs = new_xy (get_x (xy_arrays s)) entries.
Proof.
  intros HF Hl. unfold get_all_spectra. rewrite (all_spectra_loop _ entries) by done.
  rewrite Hl. cbn. by rewrite !zip_fst_snd.
Qed.

Lemma get_all_spectra_ok kwargs entries s :
  Forall2 (λ s e, sigma_entry s = Some e) (drop_metadata kwargs).*2 entries →
  last (drop_metadata kwargs).*2 = Some s →
  same_shape (x_array s) entries = true →
  ∃ r, get_all_spectra kwargs = Ok r
       ∧ get_x r = get_x (xy_arrays s) ∧ get_y r = Ok entries.
Proof.
  intros HF Hl Hshape. rewrite (get_all_spectra_eval _ entries s) by done.
  by apply new_xy_ok.
Qed.

(** ** Labels of replots *)

Lemma replace_digits s :
  all_chars PyStr.is_digit s = true → PyStr.replace_from "prod" "plot" 0 s = s.
Proof.
  induction s as [|c s IH]; [done|]. cbn [all_chars]. intros [Hc Hs]%andb_true_iff.
  cbn [PyStr.replace_from PyStr.is_prefix].
  destruct (Ascii.eqb_spec "p" c) as [<-|_]; [done|]. cbn [andb]. by rewrite IH.
Qed.

Lemma replace_prod_base m :
  0 <= m → PyStr.replace "prod" "plot" (prod_base m) = "xas_plot_" ++ PyStr.of_int m.
Proof.
  intros Hm. unfold PyStr.replace, prod_base.
  destruct (of_int_nonneg m Hm) as (d & _ & -> & _).
  pose proof (replace_digits _ (uint_all_digits d)) as H.
  revert H. generalize (NilEmpty.string_of_uint d). intros s H.
  cbv [String.append]. cbn. by rewrite H.
Qed.

Lemma plot_label_inj a b :
  0 <= a → 0 <= b →
  PyStr.replace "prod" "plot" (prod_base a) = PyStr.replace "prod" "plot" (prod_base b) →
  a = b.
Proof.
  intros Ha Hb. rewrite !replace_prod_base by done. intros E.
  apply of_int_inj; [done..|]. cbn in E. by repeat injection E as E.
Qed.

(** ** The results step, evaluated *)

Lemma kw_set_fresh {A} k (a : A) kw : k ∉ kw.*1 → kw_set k a kw = (kw ++ [(k, a)])%list.
Proof.
  induction kw as [|[k' a'] kw IH]; [done|]. cbn [fmap list_fmap fst].
  intros [Hne Hn]%not_elem_of_cons. cbn [kw_set].
  destruct (String.eqb_spec k k') as [?|_]; [done|]. by rewrite IH.
Qed.

Lemma final_spectra_fold (rp : list CalcJobNode) acc :
  NoDup (acc.*1 ++ (calc_label <$> rp))%list →
  fold_left (λ acc calc, kw_set (calc_label calc) (outputs_spectra calc) acc) rp acc
  = (acc ++ ((λ c, (calc_label c, outputs_spectra c)) <$> rp))%list.
Proof.
  revert acc. induction rp as [|c rp IH]; intros acc Hnd; cbn [fold_left fmap list_fmap].
  - by rewrite app_nil_r.
  - cbn [fmap list_fmap] in Hnd.
    assert (calc_label c ∉ acc.*1) as Hc.
    { apply NoDup_app in Hnd as (_ & Hd & _). intros Hin. apply (Hd _ Hin), list_elem_of_here. }
    rewrite kw_set_fresh by done. rewrite IH.
    + by rewrite <- app_assoc.
    + rewrite fmap_app. cbn [fmap list_fmap fst]. by rewrite <- app_assoc.
Qed.

Lemma drop_metadata_id {A} (kw : list (string * A)) :
  "metadata" ∉ kw.*1 → drop_metadata kw = kw.
Proof.
  intros Hn. unfold drop_metadata. apply filter_all, Forall_forall.
  intros [k a] Hin. cbn. destruct (String.eqb_spec k "metadata") as [->|_]; [|done].
  destruct Hn. apply list_elem_of_fmap. by exists ("metadata", a).
Qed.

Lemma results_labels_loop fl labels (acc : gmap string CalcJobNode) st :
  Forall2 (λ c l, first_three (drop_last_two (PyStr.split "_" (calc_label c))) = Ok l)
          fl labels →
  for_each (λ (acc : gmap string CalcJobNode) calc,
              m_bind (lift (first_three (drop_last_two (PyStr.split "_" (calc_label calc)))))
                     (λ label, m_ret (<[label := calc]> acc)))
           fl acc st
  = Ok (insert_all (zip labels fl) acc, st).
Proof.
  intros HF. revert acc. induction HF as [|c l fl labels Hl _ IH]; intros acc; [done|].
  cbn [for_each]. unfold m_bind at 1. unfold m_bind at 1. rewrite Hl. cbn [lift].
  unfold m_ret at 1. by rewrite IH.
Qed.

Lemma basis_vectors_present_eval fl o :
  fold_left (λ acc calc,
               if vec_in (res_epsilon_vector calc) eps_powder_vectors then Some true else acc)
            fl o
  = if existsb (λ c, vec_in (res_epsilon_vector c) eps_powder_vectors) fl
    then Some true else o.
Proof.
  revert o. induction fl as [|c fl IH]; intros o; [done|]. cbn [fold_left existsb].
  rewrite IH. destruct (vec_in (res_epsilon_vector c) eps_powder_vectors); cbn [orb]; [|done].
  by destruct (existsb _ fl).
Qed.

Lemma bind_ok {A B} (m : M A) (f : A → M B) st a st' :
  m st = Ok (a, st') → m_bind m f st = f a st'.
Proof. intros H. unfold m_bind. by rewrite H. Qed.

Lemma bind_raise {A B} (m : M A) (f : A → M B) st e :
  m st = Raise e → m_bind m f st = Raise e.
Proof. intros H. unfold m_bind. by rewrite H. Qed.

Lemma ctx_attr_ok {A} (f : Ctx → option A) st a :
  f (ctx st) = Some a → ctx_attr f st = Ok (a, st).
Proof. intros H. unfold ctx_attr. mstep. by rewrite H. Qed.

Lemma results_eval inputs st fl rp scf labels spectra :
  finished_lanczos (ctx st) = Some fl →
  finished_replots (ctx st) = Some rp →
  scf_workchain (ctx st) = Some scf →
  (collect_powder inputs = true →
   existsb (λ c, vec_in (res_epsilon_vector c) eps_powder_vectors) fl = true) →
  Forall2 (λ c l, first_three (drop_last_two (PyStr.split "_" (calc_label c))) = Ok l)
          fl labels →
  get_all_spectra (fold_left (λ acc calc, kw_set (calc_label calc) (outputs_spectra calc) acc)
                             rp [])
  = Ok spectra →
  results inputs st
  = Ok (None,
        mkWcState (ctx st)
                  (reports st ++ [if clean_workdir inputs then RCleaning else RKeeping])%list
                  (called st)
                  (mkOutputs (Some (scf_output_parameters scf))
                             (Some (calc_outcome <$> insert_all (zip labels fl) ∅))
                             (Some spectra) (powder_spectrum (outputs st)))).
Proof.
  intros Hfl Hrp Hscf Hpowder Hlabels Hspectra. unfold results.
  rewrite (bind_ok _ _ st fl st) by (by apply ctx_attr_ok).
  rewrite (bind_ok _ _ st rp st) by (by apply ctx_attr_ok).
  cbv zeta.
  rewrite (bind_ok _ _ st tt st).
  2: { rewrite andb_false_r. destruct (collect_powder inputs); [|done].
       unfold basis_vectors_present. rewrite basis_vectors_present_eval, Hpowder by done.
       reflexivity. }
  rewrite (bind_ok _ _ st scf st) by (by apply ctx_attr_ok).
  rewrite (bind_ok _ _ _ tt _) by reflexivity.
  rewrite (bind_ok _ _ _ _ _ (results_labels_loop fl labels ∅ _ Hlabels)).
  rewrite (bind_ok _ _ _ tt _) by reflexivity.
  rewrite (bind_ok _ _ _ spectra _) by (unfold lift; by rewrite Hspectra).
  rewrite (bind_ok _ _ _ tt _) by reflexivity.
  destruct (clean_workdir inputs); reflexivity.
Qed.

Lemma results_powder_unbound inputs st fl rp :
  finished_lanczos (ctx st) = Some fl →
  finished_replots (ctx st) = Some rp →
  collect_powder inputs = true →
  existsb (λ c, vec_in (res_epsilon_vector c) eps_powder_vectors) fl = false →
  results inputs st = Raise UnboundLocalError.
Proof.
  intros Hfl Hrp Hc Hex. unfold results.
  rewrite (bind_ok _ _ st fl st) by (by apply ctx_attr_ok).
  rewrite (bind_ok _ _ st rp st) by (by apply ctx_attr_ok).
  cbv zeta. apply bind_raise. rewrite Hc. cbn [andb].
  unfold basis_vectors_present. rewrite basis_vectors_present_eval, Hex. reflexivity.
Qed.

(** ** A run without restart *)

Lemma string_length_app (a b : string) :
  String.length (a ++ b) = (String.length a + String.length b)%nat.
Proof.
  induction a as [|c a IH]; [done|].
  change (String c a ++ b) with (String c (a ++ b)). cbn [String.length]. by rewrite IH.
Qed.

Lemma string_app_inv_tail (a b s : string) : a ++ s = b ++ s → a = b.
Proof.
  revert b. induction a as [|c a IH]; intros [|d b] E.
  - done.
  - apply (f_equal String.length) in E.
    change (String d b ++ s) with (String d (b ++ s)) in E.
    change ("" ++ s) with s in E. cbn [String.length] in E.
    rewrite string_length_app in E. lia.
  - apply (f_equal String.length) in E.
    change (String c a ++ s) with (String c (a ++ s)) in E.
    change ("" ++ s) with s in E. cbn [String.length] in E.
    rewrite string_length_app in E. lia.
  - change (String c a ++ s = String d b ++ s) with (String c (a ++ s) = String d (b ++ s)) in E.
    injection E as -> E. by rewrite (IH b E).
Qed.

Lemma ok_not_timed_out batch :
  Forall (λ c, is_finished_ok c = true) batch → existsb timed_out batch = false.
Proof.
  induction 1 as [|c batch Hc _ IH]; [done|]. cbn. rewrite IH.
  unfold timed_out. by rewrite Hc.
Qed.

Lemma wf_job_results_label c n k nl x1 x2 x3 :
  wf_job_at c n k nl x1 x2 x3 →
  first_three (drop_last_two (PyStr.split "_" (calc_label c))) = Ok (prod_base n).
Proof.
  intros (Hn & Hk & Hl & _). rewrite Hl, split_prod_label by lia. reflexivity.
Qed.

Section SinglePass.
Variable world : World.
Variable inputs : WcInputs.
Variables (nl0 nlp : gmap string value) (x : Z) (core : SinglefileData).
Hypothesis Hnl0 : xs_prod_parameters inputs !! "INPUT_XSPECTRA" = Some nl0.
Hypothesis Hnlp : xs_plot_parameters inputs !! "INPUT_XSPECTRA" = Some nlp.
Hypothesis Hx : base_xiabs (structure_kinds inputs) (abs_atom_marker inputs) = Some x.
Hypothesis Hcore : core_available inputs (ctx (entry_state world inputs)) core.
Hypothesis Hscf : scf_is_finished_ok (run_pw_base world) = true.

Lemma prod_jobs_spec :
  Forall keyed_wf (prod_jobs world inputs nl0 x core)
  ∧ NoDup (prod_jobs world inputs nl0 x core).*1
  ∧ Forall (λ kv, ∃ m, 0 <= m ∧ kv.1 = prod_base m) (prod_jobs world inputs nl0 x core)
  ∧ Forall2 (is_fresh_for (scf_remote_folder (run_pw_base world)))
            (eps_vectors inputs) (prod_jobs world inputs nl0 x core).*2.
Proof.
  destruct (fresh_keyed_spec world inputs nl0 x (scf_remote_folder (run_pw_base world))
              (scf_kpoints (run_pw_base world)) core 0 (eps_vectors inputs) ltac:(lia))
    as (Hwf & Hkeys & Hnd & Hfresh).
  split; [done|]. split; [done|]. split; [done|]. by apply Forall2_fmap_r.
Qed.

Lemma single_pass fuel rest :
  Forall (λ c, is_finished_ok c = true) (prod_jobs world inputs nl0 x core).*2 →
  ∃ st, while_xs_prod world inputs (S fuel) rest (entry_state world inputs) = rest st
        ∧ after_single_pass world inputs (prod_jobs world inputs nl0 x core) st.
Proof.
  intros Hok. destruct prod_jobs_spec as (Hwf & Hnd & _ & _).
  pose proof (entry_state_entry world inputs) as (Hb & Hrl & Hfl & _ & _ & _).
  assert (Hpf : scf_parent_folder (ctx (entry_state world inputs))
                = Some (scf_remote_folder (run_pw_base world))).
  { unfold entry_state. by destruct (should_run_upf2plotcore inputs). }
  assert (Hkp : scf_kpoint_mesh (ctx (entry_state world inputs))
                = Some (scf_kpoints (run_pw_base world))).
  { unfold entry_state. by destruct (should_run_upf2plotcore inputs). }
  pose proof (run_all_fresh world inputs _ nl0 x _ _ core Hnl0 Hx Hpf Hkp Hcore Hrl) as Hrun.
  fold (prod_jobs world inputs nl0 x core) in Hrun.
  destruct (batch_inspect (prod_jobs world inputs nl0 x core)
              (RLaunchProd <$> eps_vectors inputs) (entry_state world inputs) [] Hfl Hwf Hnd)
    as [(_ & rs' & Hins)|(Hfat & _)].
  2: { exfalso. apply Exists_exists in Hfat as (c & Hc & Hfat).
       rewrite Forall_forall in Hok. specialize (Hok c Hc).
       destruct (job_cases c) as [(_ & _ & ?)|[(? & _)|(? & _)]]; congruence. }
  eexists. split.
  - cbn [while_xs_prod]. rewrite (proj2 (should_repeat_true _) Hb).
    unfold step_then at 1. rewrite Hrun. unfold step_then at 1. rewrite Hins.
    destruct fuel; cbn [while_xs_prod]; rewrite should_repeat_false; try reflexivity.
    all: unfold inspected_ctx; rewrite ok_not_timed_out by done; reflexivity.
  - unfold inspected_ctx. rewrite ok_not_timed_out by done.
    rewrite filter_all by done. unfold after_single_pass, with_ctx, batch_state.
    cbn. unfold entry_state.
    repeat split; by destruct (should_run_upf2plotcore inputs).
Qed.
End SinglePass.

Lemma keyed_wf_base kv :
  keyed_wf kv → ∃ m, 0 <= m ∧ kv.1 = prod_base m
                     ∧ first_three (drop_last_two (PyStr.split "_" (calc_label kv.2))) = Ok kv.1.
Proof.
  intros [(n & k & nl & x1 & x2 & x3 & Hwf) Hb].
  rewrite (wf_job_base _ _ _ _ _ _ _ Hwf) in Hb. injection Hb as Hb.
  exists n. split; [by destruct Hwf|]. split; [done|].
  rewrite <- Hb. by eapply wf_job_results_label.
Qed.

Lemma plot_keyed_replots world inputs nlp kp core keyed :
  xs_plot_parameters inputs !! "INPUT_XSPECTRA" = Some nlp →
  Forall keyed_wf keyed →
  Forall2 is_replot_of keyed.*2 (plot_keyed world inputs nlp kp core keyed).*2.
Proof.
  intros Hnlp Hwf. unfold plot_keyed. induction Hwf as [|kv l [_ Hb] _ IH]; [constructor|].
  cbn [fmap list_fmap]. constructor; [|done].
  by apply replot_is_replot.
Qed.

Section ReplotStage.
Variable world : World.
Variable inputs : WcInputs.
Variables (nlp : gmap string value) (core : SinglefileData).
Variable keyed : list (string * CalcJobNode).
Hypothesis Hnlp : xs_plot_parameters inputs !! "INPUT_XSPECTRA" = Some nlp.
Hypothesis Hcore : core_available inputs (ctx (entry_state world inputs)) core.
Hypothesis Hwf : Forall keyed_wf keyed.
Hypothesis Hnd : NoDup keyed.*1.

Lemma plot_keyed_keys :
  (plot_keyed world inputs nlp (scf_kpoints (run_pw_base world)) core keyed).*1
  = (λ b, b ++ "_plot") <$> keyed.*1.
Proof. unfold plot_keyed. rewrite <- !list_fmap_compose. by apply list_fmap_ext. Qed.

Lemma plot_keyed_labels :
  calc_label <$> (plot_keyed world inputs nlp (scf_kpoints (run_pw_base world)) core keyed).*2
  = PyStr.replace "prod" "plot" <$> keyed.*1.
Proof. unfold plot_keyed. rewrite <- !list_fmap_compose. by apply list_fmap_ext. Qed.

Lemma plot_keyed_from_world :
  Forall (from_world world)
         (plot_keyed world inputs nlp (scf_kpoints (run_pw_base world)) core keyed).*2.
Proof.
  unfold plot_keyed. rewrite <- list_fmap_compose. apply Forall_fmap, Forall_forall.
  by intros kv _.
Qed.

Lemma plot_labels_distinct :
  NoDup (PyStr.replace "prod" "plot" <$> keyed.*1)
  ∧ "metadata" ∉ (PyStr.replace "prod" "plot" <$> keyed.*1).
Proof.
  assert (Hm : ∀ k, k ∈ keyed.*1 → ∃ m, 0 <= m ∧ k = prod_base m).
  { intros k (kv & -> & Hin)%list_elem_of_fmap. rewrite Forall_forall in Hwf.
    destruct (keyed_wf_base kv (Hwf kv Hin)) as (m & ? & ? & _). by exists m. }
  split.
  - apply NoDup_fmap_2_strong; [|done].
    intros a b Ha Hb E. destruct (Hm a Ha) as (ma & ? & ->), (Hm b Hb) as (mb & ? & ->).
    by rewrite (plot_label_inj ma mb).
  - intros (k & E & Hk)%list_elem_of_fmap. destruct (Hm k Hk) as (m & ? & ->).
    rewrite replace_prod_base in E by done. discriminate E.
Qed.

(** The replot stage after a single production pass: the replots are
    launched, and the inspection looks at every one of them. *)
Lemma replot_stage st :
  after_single_pass world inputs keyed st →
  let replots := (plot_keyed world inputs nlp (scf_kpoints (run_pw_base world)) core keyed).*2 in
  ∃ st3 st4,
    run_all_xspectra_plot world inputs st = Ok (None, st3)
    ∧ inspect_all_xspectra_plot st3
      = Ok (if existsb (λ c, negb (is_finished_ok c)) replots
            then Some ERROR_SUB_PROCESS_FAILED_XSPECTRA else None, st4)
    ∧ called st4 = (keyed.*2 ++ replots)%list
    ∧ outputs st4 = outputs_empty
    ∧ finished_lanczos (ctx st4) = Some keyed.*2
    ∧ scf_workchain (ctx st4) = Some (run_pw_base world)
    ∧ finished_replots (ctx st4)
      = if existsb (λ c, negb (is_finished_ok c)) replots then None else Some replots.
Proof.
  intros (Hfl & Hlabels & Hrp & Hscf & Hkp & Hc & Hcalled & Hout) replots.
  assert (Hbases : Forall (λ kv, job_base kv.2 = Ok kv.1) keyed).
  { eapply Forall_impl; [exact Hwf|]. by intros kv [_ ?]. }
  pose proof (run_all_xspectra_plot_keyed world inputs nlp _ core Hnlp keyed st
                Hfl Hbases Hkp (Hc _ Hcore)) as Hrun.
  match type of Hrun with _ = Ok (None, ?s) => set (st3 := s) in * end.
  assert (Hins := inspect_all_xspectra_plot_eval st3 keyed.*1 replots).
  destruct (existsb (λ c, negb (is_finished_ok c)) replots);
    (eexists st3, _; split; [exact Hrun|]; split;
     [apply Hins|
      cbn; rewrite ?Hcalled, ?Hout, ?Hfl, ?Hscf, ?Hrp; done]).
  all: try done.
  all: cbn [st3 ctx named to_context].
  all: pose proof (keyed_bound (plot_keyed world inputs nlp (scf_kpoints (run_pw_base world))
                                        core keyed) (named (ctx st))) as HF.
  all: rewrite plot_keyed_keys in HF; apply Forall2_fmap_l in HF; [exact HF|].
  all: apply NoDup_fmap_2; [|done]; intros a b E; by apply string_app_inv_tail in E.
Qed.
End ReplotStage.

Lemma existsb_failed (l : list CalcJobNode) :
  existsb (λ c, negb (is_finished_ok c)) l = true ↔ Exists (λ c, is_finished_ok c = false) l.
Proof.
  rewrite existsb_exists, Exists_exists. split; intros (c & Hin & Hc); exists c.
  - split; [by apply list_elem_of_In|]. by apply negb_true_iff.
  - split; [by apply list_elem_of_In|]. by apply negb_true_iff.
Qed.

Lemma existsb_none_failed (l : list CalcJobNode) :
  Forall (λ c, is_finished_ok c = true) l → existsb (λ c, negb (is_finished_ok c)) l = false.
Proof. induction 1 as [|c l Hc _ IH]; [done|]. cbn. by rewrite Hc, IH. Qed.

Section WholeRun.
Variable world : World.
Variable inputs : WcInputs.
Variables (nl0 nlp : gmap string value) (x : Z) (core : SinglefileData).
Hypothesis Hnl0 : xs_prod_parameters inputs !! "INPUT_XSPECTRA" = Some nl0.
Hypothesis Hnlp : xs_plot_parameters inputs !! "INPUT_XSPECTRA" = Some nlp.
Hypothesis Hx : base_xiabs (structure_kinds inputs) (abs_atom_marker inputs) = Some x.
Hypothesis Hcore : core_available inputs (ctx (entry_state world inputs)) core.
Hypothesis Hscf : scf_is_finished_ok (run_pw_base world) = true.

Lemma single_pass_run fuel :
  Forall (λ c, is_finished_ok c = true) (prod_jobs world inputs nl0 x core).*2 →
  ∃ st3 st4,
    outline world inputs (S fuel)
    = step_then inspect_all_xspectra_plot
        (step_then (results inputs) (λ st, Finished 0 st)) st3
    ∧ inspect_all_xspectra_plot st3
      = Ok (if existsb (λ c, negb (is_finished_ok c)) (plot_jobs world inputs nl0 nlp x core).*2
            then Some ERROR_SUB_PROCESS_FAILED_XSPECTRA else None, st4)
    ∧ called st4 = ((prod_jobs world inputs nl0 x core).*2
                    ++ (plot_jobs world inputs nl0 nlp x core).*2)%list
    ∧ outputs st4 = outputs_empty
    ∧ finished_lanczos (ctx st4) = Some (prod_jobs world inputs nl0 x core).*2
    ∧ scf_workchain (ctx st4) = Some (run_pw_base world)
    ∧ finished_replots (ctx st4)
      = if existsb (λ c, negb (is_finished_ok c)) (plot_jobs world inputs nl0 nlp x core).*2
        then None else Some (plot_jobs world inputs nl0 nlp x core).*2.
Proof.
  intros Hok.
  destruct (prod_jobs_spec world inputs nl0 x core) as (Hwf & Hnd & _ & _).
  destruct (single_pass world inputs nl0 x core Hnl0 Hx Hcore fuel
              (after_prod world inputs) Hok) as (st & Hwhile & Hafter).
  destruct (replot_stage world inputs nlp core _ Hnlp Hcore Hwf Hnd st Hafter)
    as (st3 & st4 & Hrun & Hins & Hrest).
  exists st3, st4. split; [|split; [exact Hins|exact Hrest]].
  rewrite outline_entry by done. unfold from_prod. rewrite Hwhile.
  unfold after_prod. unfold step_then at 1. by rewrite Hrun.
Qed.

(** When every production job is accepted in the first pass, a replot that
    does not finish successfully ends the work chain with exit code 402:
    the calculations called are the production jobs and their replots, and
    no output is attached. *)
Theorem failed_replot_after_single_pass fuel :
  Forall (λ c, is_finished_ok c = true) (prod_jobs world inputs nl0 x core).*2 →
  Exists (λ c, is_finished_ok c = false) (plot_jobs world inputs nl0 nlp x core).*2 →
  ∃ st, outline world inputs (S fuel) = Finished 402 st
        ∧ called st = ((prod_jobs world inputs nl0 x core).*2
                       ++ (plot_jobs world inputs nl0 nlp x core).*2)%list
        ∧ Forall2 (is_fresh_for (scf_remote_folder (run_pw_base world)))
                  (eps_vectors inputs) (prod_jobs world inputs nl0 x core).*2
        ∧ Forall2 is_replot_of (prod_jobs world inputs nl0 x core).*2
                  (plot_jobs world inputs nl0 nlp x core).*2
        ∧ outputs st = outputs_empty.
Proof.
  intros Hok Hfail.
  destruct (single_pass_run fuel Hok) as (st3 & st4 & Hout & Hins & Hcalled & Houtputs & _).
  apply existsb_failed in Hfail. rewrite Hfail in Hins.
  exists st4. split.
  { rewrite Hout. unfold step_then at 1. by rewrite Hins. }
  split; [done|].
  destruct (prod_jobs_spec world inputs nl0 x core) as (Hwf & _ & _ & Hfresh).
  split; [done|]. split; [|done].
  by apply (plot_keyed_replots world inputs nlp).
Qed.
End WholeRun.

Lemma final_spectra_eval replots entries j :
  NoDup (calc_label <$> replots) →
  "metadata" ∉ (calc_label <$> replots) →
  Forall2 (λ j e, sigma_entry (outputs_spectra j) = Some e) replots entries →
  last replots = Some j →
  get_all_spectra (fold_left (λ acc calc, kw_set (calc_label calc) (outputs_spectra calc) acc)
                             replots [])
  = new_xy (get_x (o_spectra (calc_outcome j))) entries.
Proof.
  intros Hnd Hmeta HF Hlast. rewrite final_spectra_fold by done. cbn [app].
  assert (Hkeys : ((λ c, (calc_label c, outputs_spectra c)) <$> replots).*1
                  = calc_label <$> replots).
  { rewrite <- list_fmap_compose. by apply list_fmap_ext. }
  assert (Hvals : ((λ c, (calc_label c, outputs_spectra c)) <$> replots).*2
                  = outputs_spectra <$> replots).
  { rewrite <- list_fmap_compose. by apply list_fmap_ext. }
  apply (get_all_spectra_eval _ entries (outputs_spectra j)).
  - rewrite drop_metadata_id by (by rewrite Hkeys). rewrite Hvals. by apply Forall2_fmap_l.
  - rewrite drop_metadata_id by (by rewrite Hkeys). rewrite Hvals, fmap_last, Hlast. done.
Qed.

Lemma sigma_entries_exist replots :
  Forall (λ j, ∃ y ys, y_arrays (o_spectra (calc_outcome j)) = Some (y :: ys)) replots →
  ∃ entries, Forall2 (λ j e, sigma_entry (outputs_spectra j) = Some e) replots entries.
Proof.
  induction 1 as [|j replots (y & ys & E) _ [entries IH]]; [by exists []|].
  eexists (_ :: entries). constructor; [|done]. unfold sigma_entry. cbn. by rewrite E.
Qed.

(** The array of an entry has the shape of the x array of its spectrum. *)
Lemma sigma_entry_shape s e :
  sigma_entry s = Some e → length e.1.2 = length (x_array s).
Proof.
  unfold sigma_entry. destruct (xy_creator s) as [c|]; [|done]. cbn.
  destruct (y_arrays (xy_arrays s)) as [ys|] eqn:Eys; [|done]. cbn.
  destruct (head ys) as [y|] eqn:Ey; [|done]. cbn. intros [= <-]. cbn.
  apply y_array_shape. unfold y_array. rewrite Eys. cbn. by rewrite Ey.
Qed.

Lemma fresh_keyed_from_world mk world n vs :
  Forall (from_world world) (fresh_keyed mk world n vs).*2.
Proof.
  revert n. induction vs as [|v vs IH]; intros n; [constructor|].
  cbn. constructor; [done|apply IH].
Qed.

Lemma from_world_succeeds world c :
  all_succeed world → from_world world c →
  is_finished_ok c = true
  ∧ ∃ y ys, y_arrays (o_spectra (calc_outcome c)) = Some (y :: ys).
Proof.
  intros Hw Hc. unfold is_finished_ok, exit_status. unfold from_world in Hc. rewrite Hc.
  destruct (Hw (calc_inputs c)) as [-> Hy]. done.
Qed.

Lemma insert_all_keyed_outcome keyed c :
  NoDup keyed.*1 → Forall keyed_wf keyed → c ∈ keyed.*2 →
  ∃ lbl, job_base c = Ok lbl
         ∧ (calc_outcome <$> insert_all (zip keyed.*1 keyed.*2) ∅) !! lbl = Some (calc_outcome c).
Proof.
  intros Hnd Hwf (kv & -> & Hin)%list_elem_of_fmap. rewrite zip_fst_snd.
  rewrite Forall_forall in Hwf. destruct (Hwf kv Hin) as [_ Hb].
  exists kv.1. split; [done|]. rewrite lookup_fmap.
  rewrite (insert_all_lookup keyed ∅ kv.1 kv.2); [done|done|by destruct kv].
Qed.

Section Success.
Variable world : World.
Variable inputs : WcInputs.
Hypothesis Hconfig : config_ok inputs.
Hypothesis Hplot : is_Some (xs_plot_parameters inputs !! "INPUT_XSPECTRA").
Hypothesis Hvectors : eps_vectors inputs ≠ [].
Hypothesis Hscf : scf_is_finished_ok (run_pw_base world) = true.
Hypothesis Hworld : all_succeed world.

(** When the SCF and every XspectraCalculation finish successfully, the
    spectra of all calculations have as many points, and a powder spectrum
    is either not requested or every parsed vector is a basis vector, the
    work chain finishes with exit code 0 after one production job and one
    replot per vector.  It attaches the SCF parameters, the output
    parameters of every production job under its label, and output_spectra
    with, for each replot in order, the first y array of its spectrum
    labelled by its parsed vector, on the x axis of the last replot.  No
    powder spectrum is attached. *)
Theorem successful_run fuel :
  same_grid world →
  (collect_powder inputs = true →
   ∀ i, vec_in (o_epsilon_vector (run_xspectra world i)) eps_powder_vectors = true) →
  ∃ st prods replots entries last_replot params spectra,
    outline world inputs (S fuel) = Finished 0 st
    ∧ called st = (prods ++ replots)%list
    ∧ Forall2 (is_fresh_for (scf_remote_folder (run_pw_base world))) (eps_vectors inputs) prods
    ∧ Forall2 is_replot_of prods replots
    ∧ Forall2 (λ j e, sigma_entry (outputs_spectra j) = Some e) replots entries
    ∧ last replots = Some last_replot
    ∧ output_spectra (outputs st) = Some spectra
    ∧ get_x spectra = get_x (o_spectra (calc_outcome last_replot))
    ∧ get_y spectra = Ok entries
    ∧ output_parameters_scf (outputs st) = Some (scf_output_parameters (run_pw_base world))
    ∧ output_parameters_xspectra (outputs st) = Some params
    ∧ (∀ c, c ∈ prods →
            ∃ lbl, job_base c = Ok lbl ∧ params !! lbl = Some (calc_outcome c))
    ∧ powder_spectrum (outputs st) = None.
Proof.
  intros Hgrid Hpowder.
  destruct Hconfig as [[nl0 Hnl0] Hmarker]. destruct Hplot as [nlp Hnlp].
  destruct (base_xiabs_present _ _ Hmarker) as [x Hx].
  destruct (entry_state_entry world inputs) as (_ & _ & _ & _ & _ & core & Hcore).
  set (prods := prod_jobs world inputs nl0 x core).
  set (replots := plot_jobs world inputs nl0 nlp x core).
  destruct (prod_jobs_spec world inputs nl0 x core) as (Hwf & Hnd & _ & Hfresh).
  fold prods in Hwf, Hnd, Hfresh.
  assert (Hpw : Forall (from_world world) prods.*2) by apply fresh_keyed_from_world.
  assert (Hrw : Forall (from_world world) replots.*2) by apply plot_keyed_from_world.
  assert (Hpok : Forall (λ c, is_finished_ok c = true) prods.*2).
  { eapply Forall_impl; [exact Hpw|]. intros c Hc. by apply (from_world_succeeds world). }
  assert (Hrok : Forall (λ c, is_finished_ok c = true) replots.*2).
  { eapply Forall_impl; [exact Hrw|]. intros c Hc. by apply (from_world_succeeds world). }
  destruct (single_pass_run world inputs nl0 nlp x core Hnl0 Hnlp Hx Hcore Hscf fuel Hpok)
    as (st3 & st4 & Hout & Hins & Hcalled & Houtputs & Hfl & Hscfw & Hrp).
  fold prods replots in Hins, Hcalled, Hfl, Hrp.
  rewrite existsb_none_failed in Hins, Hrp by done.
  destruct (sigma_entries_exist replots.*2) as [entries Hentries].
  { eapply Forall_impl; [exact Hrw|]. intros c Hc. by apply (from_world_succeeds world). }
  assert (Hlen : length replots.*2 = length (eps_vectors inputs)).
  { unfold replots, plot_jobs, plot_keyed. rewrite !length_fmap.
    apply Forall2_length in Hfresh. by rewrite length_fmap in Hfresh. }
  destruct (last replots.*2) as [last_replot|] eqn:Hlast.
  2: { apply last_None in Hlast. rewrite Hlast in Hlen. by destruct (eps_vectors inputs). }
  destruct (plot_labels_distinct prods Hwf Hnd) as [Hlnd Hmeta].
  assert (Hlabels : calc_label <$> replots.*2 = PyStr.replace "prod" "plot" <$> prods.*1)
    by apply plot_keyed_labels.
  pose proof (final_spectra_eval replots.*2 entries last_replot) as Hspectra.
  rewrite Hlabels in Hspectra. specialize (Hspectra Hlnd Hmeta Hentries Hlast).
  assert (Hshape : same_shape (get_x (o_spectra (calc_outcome last_replot))).1.2 entries
                   = true).
  { assert (Hlast_world : from_world world last_replot).
    { rewrite Forall_forall in Hrw. apply Hrw. by apply last_Some_elem_of. }
    unfold same_shape. apply forallb_forall. intros e He.
    apply list_elem_of_In, list_elem_of_lookup in He as [i Hi].
    destruct (Forall2_lookup_r _ _ _ _ _ Hentries Hi) as (j & Hj & Hje).
    apply sigma_entry_shape in Hje. rewrite Hje. apply Nat.eqb_eq.
    assert (Hjw : from_world world j).
    { rewrite Forall_forall in Hrw. apply Hrw. by eapply list_elem_of_lookup_2. }
    unfold x_array, outputs_spectra. cbn. unfold from_world in Hjw, Hlast_world.
    rewrite Hjw, Hlast_world. apply Hgrid. }
  destruct (new_xy_ok _ _ Hshape) as (spectra & Hnew & Hx_spectra & Hy_spectra).
  rewrite Hnew in Hspectra.
  eexists _, prods.*2, replots.*2, entries, last_replot, _, spectra.
  split.
  { rewrite Hout. unfold step_then at 1. rewrite Hins. unfold step_then at 1.
    rewrite (results_eval inputs st4 prods.*2 replots.*2 (run_pw_base world) prods.*1
               spectra Hfl Hrp Hscfw); [reflexivity| | |exact Hspectra].
    - intros Hc. specialize (Hpowder Hc).
      destruct prods.*2 as [|c l] eqn:E.
      { apply Forall2_length in Hfresh. by destruct (eps_vectors inputs). }
      cbn [existsb]. inversion_clear Hpw as [|? ? Hcw _]. unfold res_epsilon_vector at 1.
      by rewrite Hcw, Hpowder.
    - clear -Hwf. induction Hwf as [|kv l Hkv _ IH]; [constructor|].
      cbn. constructor; [|done]. by destruct (keyed_wf_base kv Hkv) as (m & _ & _ & ?). }
  cbn. split; [done|]. split; [done|].
  split; [by apply (plot_keyed_replots world inputs nlp)|].
  split; [done|]. split; [done|]. split; [done|]. split; [done|]. split; [done|].
  split; [done|]. split; [done|].
  split; [|by rewrite Houtputs].
  intros c Hc. by apply insert_all_keyed_outcome.
Qed.

(** When a powder spectrum is requested and no parsed vector is one of the
    three basis vectors, the work chain excepts with UnboundLocalError in
    the results step, although every calculation finished successfully:
    the warning prepared for this case is never reported. *)
Theorem powder_request_without_basis_vector fuel :
  collect_powder inputs = true →
  (∀ i, vec_in (o_epsilon_vector (run_xspectra world i)) eps_powder_vectors = false) →
  outline world inputs (S fuel) = Excepted UnboundLocalError.
Proof.
  intros Hcollect Hnone.
  destruct Hconfig as [[nl0 Hnl0] Hmarker]. destruct Hplot as [nlp Hnlp].
  destruct (base_xiabs_present _ _ Hmarker) as [x Hx].
  destruct (entry_state_entry world inputs) as (_ & _ & _ & _ & _ & core & Hcore).
  set (prods := prod_jobs world inputs nl0 x core).
  set (replots := plot_jobs world inputs nl0 nlp x core).
  assert (Hpw : Forall (from_world world) prods.*2) by apply fresh_keyed_from_world.
  assert (Hrw : Forall (from_world world) replots.*2) by apply plot_keyed_from_world.
  assert (Hpok : Forall (λ c, is_finished_ok c = true) prods.*2).
  { eapply Forall_impl; [exact Hpw|]. intros c Hc. by apply (from_world_succeeds world). }
  assert (Hrok : Forall (λ c, is_finished_ok c = true) replots.*2).
  { eapply Forall_impl; [exact Hrw|]. intros c Hc. by apply (from_world_succeeds world). }
  destruct (single_pass_run world inputs nl0 nlp x core Hnl0 Hnlp Hx Hcore Hscf fuel Hpok)
    as (st3 & st4 & Hout & Hins & Hcalled & Houtputs & Hfl & Hscfw & Hrp).
  fold prods replots in Hins, Hcalled, Hfl, Hrp.
  rewrite existsb_none_failed in Hins, Hrp by done.
  rewrite Hout. unfold step_then at 1. rewrite Hins. unfold step_then at 1.
  rewrite (results_powder_unbound inputs st4 prods.*2 replots.*2); [done..|].
  clear -Hpw Hnone. induction Hpw as [|c l Hc _ IH]; [done|].
  cbn [existsb]. unfold res_epsilon_vector at 1. by rewrite Hc, Hnone, IH.
Qed.
End Success.

(** ** The statements on concrete runs *)

Lemma forallb_ok (l : list CalcJobNode) :
  forallb is_finished_ok l = true → Forall (λ c, is_finished_ok c = true) l.
Proof.
  induction l as [|c l IH]; [constructor|]. cbn. intros [? ?]%andb_true_iff.
  constructor; [done|by apply IH].
Qed.

Lemma demo_xiabs vs p :
  base_xiabs (structure_kinds (Demo.inputs vs p)) (abs_atom_marker (Demo.inputs vs p)) = Some 3.
Proof. reflexivity. Qed.

Lemma demo_succeeds : all_succeed (Demo.world []).
Proof. intros i. split; [reflexivity|]. by eexists _, _. Qed.

Lemma restarts_have_no_limit_witness :
  let world := Cases.timing_out_world in
  let inputs := Demo.inputs [Demo.e100; Demo.e001] false in
  (∀ fuel, outline world inputs fuel = OutOfFuel)
  ∧ (∀ n, ∃ st, prod_rounds world inputs n (entry_state world inputs) st
                ∧ should_repeat_xs_prod st = Ok (true, st)
                ∧ length (called st) = (n * 2)%nat).
Proof.
  intros world inputs.
  apply (restarts_have_no_limit world inputs (demo_config _ _)).
  - discriminate.
  - intros i. reflexivity.
  - reflexivity.
Defined.

Lemma failed_replot_after_single_pass_witness :
  let world := Demo.world [("xas_plot_0", 500)] in
  let inputs := Demo.inputs [Demo.e100; Demo.e001] false in
  let prods := prod_jobs world inputs {[ "calculation" := VStr "xanes_dipole" ]} 3 "plotcore" in
  let replots := plot_jobs world inputs {[ "calculation" := VStr "xanes_dipole" ]}
                           {[ "calculation" := VStr "xanes_dipole" ]} 3 "plotcore" in
  ∃ st, outline world inputs 5 = Finished 402 st
        ∧ called st = (prods.*2 ++ replots.*2)%list
        ∧ Forall2 (is_fresh_for (scf_remote_folder (run_pw_base world)))
                  (eps_vectors inputs) prods.*2
        ∧ Forall2 is_replot_of prods.*2 replots.*2
        ∧ outputs st = outputs_empty.
Proof.
  intros world inputs prods replots.
  apply (failed_replot_after_single_pass world inputs
           {[ "calculation" := VStr "xanes_dipole" ]} {[ "calculation" := VStr "xanes_dipole" ]}
           3 "plotcore").
  - reflexivity.
  - reflexivity.
  - reflexivity.
  - reflexivity.
  - reflexivity.
  - apply forallb_ok. vm_compute. reflexivity.
  - apply existsb_failed. vm_compute. reflexivity.
Defined.

Lemma successful_run_witness :
  let world := Demo.world [] in
  let inputs := Demo.inputs [Demo.e100; Demo.e001] false in
  ∃ st prods replots entries last_replot params spectra,
    outline world inputs 1 = Finished 0 st
    ∧ called st = (prods ++ replots)%list
    ∧ Forall2 (is_fresh_for (scf_remote_folder (run_pw_base world))) (eps_vectors inputs) prods
    ∧ Forall2 is_replot_of prods replots
    ∧ Forall2 (λ j e, sigma_entry (outputs_spectra j) = Some e) replots entries
    ∧ last replots = Some last_replot
    ∧ output_spectra (outputs st) = Some spectra
    ∧ get_x spectra = get_x (o_spectra (calc_outcome last_replot))
    ∧ get_y spectra = Ok entries
    ∧ output_parameters_scf (outputs st) = Some (scf_output_parameters (run_pw_base world))
    ∧ output_parameters_xspectra (outputs st) = Some params
    ∧ (∀ c, c ∈ prods →
            ∃ lbl, job_base c = Ok lbl ∧ params !! lbl = Some (calc_outcome c))
    ∧ powder_spectrum (outputs st) = None.
Proof.
  intros world inputs.
  apply (successful_run world inputs (demo_config _ _)).
  - by eexists.
  - discriminate.
  - reflexivity.
  - apply demo_succeeds.
  - intros i j. reflexivity.
  - discriminate.
Defined.

Lemma powder_request_without_basis_vector_witness :
  outline Cases.diagonal_world (Demo.inputs [(Qc_of_Z 1, Qc_of_Z 1, Qc_of_Z 0)] true) 1
  = Excepted UnboundLocalError.
Proof.
  apply (powder_request_without_basis_vector Cases.diagonal_world
           (Demo.inputs [(Qc_of_Z 1, Qc_of_Z 1, Qc_of_Z 0)] true) (demo_config _ _)).
  - by eexists.
  - reflexivity.
  - intros i. split; [reflexivity|]. by eexists _, _.
  - reflexivity.
  - intros i. reflexivity.
Defined.

(** * The calculation functions and the input file *)

(** [get_all_spectra], given spectra that each have a creator and at least
    one y array, the first y arrays having the shape of the x array of the
    last spectrum, returns one y array per spectrum, in the order of the
    keyword arguments: the first y array of the spectrum with its units,
    named after the polarisation vector in the results of the creator.  The
    x axis is that of the last spectrum. *)
Theorem get_all_spectra_collects_first_arrays kwargs entries s :
  Forall2 (λ s e, sigma_entry s = Some e) (drop_metadata kwargs).*2 entries →
  last (drop_metadata kwargs).*2 = Some s →
  same_shape (x_array s) entries = true →
  ∃ r, get_all_spectra kwargs = Ok r
       ∧ get_x r = get_x (xy_arrays s) ∧ get_y r = Ok entries.
Proof. apply get_all_spectra_ok. Qed.

Lemma get_all_spectra_collects_first_arrays_witness :
  let job := CalcJob (mkXsInputs "xas_plot_0" "xas_plot_0" Demo.parameters (ScfRemote "scf")
                                 [2; 2; 2] "plotcore")
                     (mkXsOutcome (Some 0) Demo.e001 Demo.spectrum) in
  let s1 := mkXyData (mkXy ("energy", [Qc_of_Z 1], "eV")
                           (Some [(YStr "total", [Qc_of_Z 5], "a.u.");
                                  (YStr "up", [Qc_of_Z 3], "a.u.")]) I) (Some job) in
  let s2 := mkXyData (mkXy ("energy", [Qc_of_Z 2], "eV")
                           (Some [(YStr "total", [Qc_of_Z 7], "a.u.")]) I) (Some job) in
  ∃ r, get_all_spectra [("xas_0", s1); ("metadata", s2); ("xas_1", s2)] = Ok r
       ∧ get_x r = ("energy", [Qc_of_Z 2], "eV")
       ∧ get_y r = Ok [(YSigma (res_epsilon_vector job), [Qc_of_Z 5], "a.u.");
                       (YSigma (res_epsilon_vector job), [Qc_of_Z 7], "a.u.")].
Proof.
  intros job s1 s2.
  apply (get_all_spectra_collects_first_arrays
           [("xas_0", s1); ("metadata", s2); ("xas_1", s2)] _ s2).
  - repeat constructor.
  - reflexivity.
  - reflexivity.
Defined.

Lemma get_all_spectra_stops kwargs pre s post e :
  (drop_metadata kwargs).*2 = (pre ++ s :: post)%list →
  Forall (λ s, is_Some (sigma_entry s)) pre →
  is_Some (xy_creator s) →
  first_y s = Raise e →
  get_all_spectra kwargs = Raise e.
Proof.
  intros E Hpre [c Hc] Hy. unfold get_all_spectra. rewrite E.
  assert (∃ entries, Forall2 (λ s e, sigma_entry s = Some e) pre entries) as [entries HF].
  { clear E. induction Hpre as [|s0 pre [e0 He] _ [entries IH]].
    - by exists [].
    - exists (e0 :: entries). by constructor. }
  rewrite fold_left_app, (all_spectra_loop _ entries) by done.
  cbn [fold_left]. unfold all_spectra_step at 2. cbn [mbind Res_bind].
  rewrite Hc, Hy. cbn [expect mbind Res_bind].
  by rewrite all_spectra_loop_fails.
Qed.

(** [get_all_spectra] raises UnboundLocalError when it is given no
    spectrum; at the first spectrum that has a creator and no usable y
    array it raises NotExistent when [set_y] was never called on the
    spectrum and IndexError when its list of y arrays is empty, whatever
    the spectra after it; and it raises ValueError when the arrays it
    collected do not all have the shape of the x array of the last
    spectrum. *)
Theorem get_all_spectra_raises kwargs :
  (drop_metadata kwargs = [] → get_all_spectra kwargs = Raise UnboundLocalError)
  ∧ (∀ pre s post,
       (drop_metadata kwargs).*2 = (pre ++ s :: post)%list →
       Forall (λ s, is_Some (sigma_entry s)) pre →
       is_Some (xy_creator s) →
       (y_arrays (xy_arrays s) = None → get_all_spectra kwargs = Raise NotExistent)
       ∧ (y_arrays (xy_arrays s) = Some [] → get_all_spectra kwargs = Raise IndexError))
  ∧ (∀ entries s,
       Forall2 (λ s e, sigma_entry s = Some e) (drop_metadata kwargs).*2 entries →
       last (drop_metadata kwargs).*2 = Some s →
       same_shape (x_array s) entries = false →
       get_all_spectra kwargs = Raise ValueError).
Proof.
  split; [|split].
  - intros E. unfold get_all_spectra. by rewrite E.
  - intros pre s post E Hpre Hc. split; intros Hy.
    + apply (get_all_spectra_stops kwargs pre s post); [done..|].
      unfold first_y, get_y. by rewrite Hy.
    + apply (get_all_spectra_stops kwargs pre s post); [done..|].
      unfold first_y, get_y. by rewrite Hy.
  - intros entries s HF Hl Hshape. rewrite (get_all_spectra_eval _ entries s) by done.
    by apply new_xy_raise.
Qed.

Lemma get_all_spectra_raises_witness :
  let job := CalcJob (mkXsInputs "xas_plot_0" "xas_plot_0" Demo.parameters (ScfRemote "scf")
                                 [2; 2; 2] "plotcore")
                     (mkXsOutcome (Some 0) Demo.e001 Demo.spectrum) in
  let unset := mkXyData (mkXy ("energy", [Qc_of_Z 1], "eV") None I) (Some job) in
  let empty := mkXyData (mkXy ("energy", [Qc_of_Z 1], "eV") (Some []) I) (Some job) in
  let one := mkXyData (mkXy ("energy", [Qc_of_Z 1], "eV")
                            (Some [(YStr "total", [Qc_of_Z 5], "a.u.")]) I) (Some job) in
  let two := mkXyData (mkXy ("energy", [Qc_of_Z 2; Qc_of_Z 3], "eV")
                            (Some [(YStr "total", [Qc_of_Z 7; Qc_of_Z 8], "a.u.")]) I)
                      (Some job) in
  get_all_spectra [("metadata", one)] = Raise UnboundLocalError
  ∧ get_all_spectra [("xas_0", one); ("xas_1", unset); ("xas_2", one)] = Raise NotExistent
  ∧ get_all_spectra [("xas_0", one); ("xas_1", empty); ("xas_2", one)] = Raise IndexError
  ∧ get_all_spectra [("xas_0", one); ("xas_1", two)] = Raise ValueError.
Proof.
  intros job unset empty one two. split; [|split; [|split]].
  - apply (proj1 (get_all_spectra_raises [("metadata", one)])). reflexivity.
  - apply (proj1 (proj2 (get_all_spectra_raises
                           [("xas_0", one); ("xas_1", unset); ("xas_2", one)]))
                 [one] unset [one]).
    + reflexivity.
    + repeat constructor. by eexists.
    + by eexists.
    + reflexivity.
  - apply (proj1 (proj2 (get_all_spectra_raises
                           [("xas_0", one); ("xas_1", empty); ("xas_2", one)]))
                 [one] empty [one]).
    + reflexivity.
    + repeat constructor. by eexists.
    + by eexists.
    + reflexivity.
  - apply (proj2 (proj2 (get_all_spectra_raises [("xas_0", one); ("xas_1", two)]))
             [(YSigma (res_epsilon_vector job), [Qc_of_Z 5], "a.u.");
              (YSigma (res_epsilon_vector job), [Qc_of_Z 7; Qc_of_Z 8], "a.u.")] two).
    + repeat constructor.
    + reflexivity.
    + reflexivity.
Defined.

(** ** The k-point line *)

Lemma replace_char_app c a b :
  PyStr.replace (String c "") "" (a ++ b)
  = PyStr.replace (String c "") "" a ++ PyStr.replace (String c "") "" b.
Proof.
  unfold PyStr.replace. induction a as [|x a IH]; [done|].
  change (String x a ++ b) with (String x (a ++ b)).
  cbn [PyStr.replace_from PyStr.is_prefix String.length Nat.pred].
  destruct (Ascii.eqb c x); cbn [andb].
  - destruct a; cbn [PyStr.is_prefix]; change ("" ++ ?s) with s; exact IH.
  - rewrite andb_false_l || idtac.
    change (String x ?u ++ ?v) with (String x (u ++ v)). by rewrite IH.
Qed.

Lemma replace_char_absent c s :
  no_char c s = true → PyStr.replace (String c "") "" s = s.
Proof.
  unfold PyStr.replace, no_char. induction s as [|x s IH]; [done|].
  cbn [all_chars PyStr.replace_from PyStr.is_prefix].
  rewrite andb_true_iff, negb_true_iff. intros [Hx Hs].
  rewrite Ascii.eqb_sym, Hx. cbn [andb]. by rewrite IH.
Qed.

Lemma squeeze_app a b : squeeze (a ++ b) = squeeze a ++ squeeze b.
Proof. unfold squeeze. by rewrite !replace_char_app. Qed.

Lemma squeeze_plain s : plain s = true → squeeze s = s.
Proof.
  intros Hs. unfold squeeze.
  rewrite (replace_char_absent "[" s), (replace_char_absent "]" s),
    (replace_char_absent "," s); [done|..];
    (eapply all_chars_impl; [|exact Hs]); intros c;
    rewrite !andb_true_iff; tauto.
Qed.

Lemma squeeze_join reprs :
  Forall (λ r, plain r = true) reprs →
  squeeze (PyStr.join ", " reprs) = PyStr.join " " reprs.
Proof.
  induction 1 as [|r reprs Hr _ IH]; [done|].
  destruct reprs as [|r' reprs]; [by apply squeeze_plain|].
  change (PyStr.join ", " (r :: r' :: reprs)) with (r ++ ", " ++ PyStr.join ", " (r' :: reprs)).
  change (PyStr.join " " (r :: r' :: reprs)) with (r ++ " " ++ PyStr.join " " (r' :: reprs)).
  by rewrite !squeeze_app, IH, squeeze_plain.
Qed.

Lemma of_int_plain z : plain (PyStr.of_int z) = true.
Proof.
  assert (Hd : ∀ d, plain (NilEmpty.string_of_uint d) = true).
  { intros d. eapply all_chars_impl; [|apply uint_all_digits].
    intros c Hc. unfold PyStr.is_digit in Hc.
    destruct (Ascii.eqb_spec c "[") as [->|]; [done|].
    destruct (Ascii.eqb_spec c "]") as [->|]; [done|].
    destruct (Ascii.eqb_spec c ",") as [->|]; done. }
  assert (Hu : ∀ d, plain (NilZero.string_of_uint d) = true).
  { intros d. unfold NilZero.string_of_uint. destruct d; try apply Hd; done. }
  unfold PyStr.of_int, NilZero.string_of_int.
  destruct (Z.to_int z) as [d|d]; [apply Hu|].
  unfold plain. cbn [all_chars]. apply Hu.
Qed.

(** The text that follows the namelists in the input file of xspectra.x is
    the mesh and the offset of the k-points, written on one line with
    single spaces between them, as long as the way Python prints the
    offsets has no bracket and no comma in it. *)
Theorem following_text_is_the_kpoint_line mesh offset :
  Forall (λ r, plain r = true) offset →
  get_following_text mesh offset = PyStr.join " " ((PyStr.of_int <$> mesh) ++ offset).
Proof.
  intros Hoff. unfold get_following_text, str_of_list. fold (squeeze ("[" ++ PyStr.join ", " ((PyStr.of_int <$> mesh) ++ offset) ++ "]")).
  rewrite !squeeze_app, squeeze_join.
  - change (squeeze "[") with "". change (squeeze "]") with "".
    change ("" ++ ?s) with s. clear.
    induction (PyStr.join " " ((PyStr.of_int <$> mesh) ++ offset)) as [|c s IH]; [done|].
    change (String c s ++ "") with (String c (s ++ "")). by rewrite IH.
  - apply Forall_app. split; [|done].
    apply Forall_fmap, Forall_forall. intros z _. apply of_int_plain.
Qed.

Lemma following_text_is_the_kpoint_line_witness :
  get_following_text [4; 4; 2] ["0.0"; "0.0"; "0.5"] = "4 4 2 0.0 0.0 0.5".
Proof.
  apply (following_text_is_the_kpoint_line [4; 4; 2] ["0.0"; "0.0"; "0.5"]).
  repeat constructor.
Defined.

(** * Further steps of the crystal work chain *)

Section CrystalStepsFacts.
Import CrystalSteps.

(** The key of a structure is the part of the key in the result up to the
    second underscore, or the whole key when it has one underscore only; a
    key without underscore raises IndexError. *)
Theorem structure_key_keeps_two_pieces a b :
  no_char "_" a = true →
  no_char "_" b = true →
  structure_key (a ++ "_" ++ b) = Ok (a ++ "_" ++ b)
  ∧ (∀ rest, structure_key (a ++ "_" ++ b ++ "_" ++ rest) = Ok (a ++ "_" ++ b))
  ∧ structure_key a = Raise IndexError.
Proof.
  intros Ha Hb. unfold structure_key. split; [|split].
  - change (a ++ "_" ++ b) with (a ++ String "_" b).
    by rewrite split_app_sep, split_no_sep.
  - intros rest.
    change (a ++ "_" ++ b ++ "_" ++ rest) with (a ++ String "_" (b ++ String "_" rest)).
    by rewrite !split_app_sep.
  - by rewrite split_no_sep.
Qed.

Lemma structure_key_keeps_two_pieces_witness :
  structure_key "site_0" = Ok "site_0"
  ∧ (∀ rest, structure_key ("site" ++ "_" ++ "0" ++ "_" ++ rest) = Ok "site_0")
  ∧ structure_key "site" = Raise IndexError.
Proof.
  apply (structure_key_keeps_two_pieces "site" "0"); reflexivity.
Defined.

Lemma upf2plotcore_key_inj a b : "upf2plotcore_" ++ a = "upf2plotcore_" ++ b → a = b.
Proof. cbv [String.append]. intros E. by simplify_eq. Qed.

Lemma run_upf2plotcore_entries {Upf} (gipaw : gmap string Upf) stdout_of elements :
  Forall (λ e, is_Some (gipaw !! e)) elements →
  ∃ shelljobs,
    run_upf2plotcore gipaw stdout_of elements = Ok shelljobs
    ∧ ∀ e, e ∈ elements → shelljobs !! ("upf2plotcore_" ++ e) = stdout_of <$> gipaw !! e.
Proof.
  unfold run_upf2plotcore.
  induction elements as [|e elements IH] using rev_ind; intros Hall.
  - exists ∅. split; [done|]. intros e He. by apply elem_of_nil in He.
  - apply Forall_app in Hall as [Hall He]. apply Forall_singleton in He as [upf Hupf].
    destruct (IH Hall) as (jobs & Hrun & Hjobs).
    rewrite fold_left_app, Hrun. cbn. rewrite Hupf. cbn.
    eexists. split; [done|]. intros e' He'.
    destruct (decide (e' = e)) as [->|Hne].
    + by rewrite lookup_insert_eq, Hupf.
    + rewrite lookup_insert_ne by (intros E; by apply upf2plotcore_key_inj in E).
      apply Hjobs. apply elem_of_app in He' as [He'|He']; [done|].
      by apply list_elem_of_singleton in He'.
Qed.

Lemma num_core_states_no_key_error content : num_core_states content ≠ Raise KeyError.
Proof.
  unfold num_core_states.
  destruct (PyStr.split " " (PyStr.take 40 content) !! 5%nat) as [tok|]; [|done].
  cbn. by destruct (PyStr.int tok).
Qed.

Lemma inspect_finds_entries (ctx : gmap string string) labels :
  Forall (λ e, is_Some (ctx !! ("upf2plotcore_" ++ e))) labels →
  inspect_upf2plotcore ctx labels ≠ Raise KeyError.
Proof.
  induction 1 as [|e labels [c Hc] _ IH]; [done|].
  cbn [inspect_upf2plotcore]. rewrite Hc. cbn [expect mbind Res_bind].
  pose proof (num_core_states_no_key_error c) as Hn.
  destruct (num_core_states c) as [num|err]; [|by destruct err].
  cbn [mbind Res_bind]. by destruct (num =? 0).
Qed.

(** When every element of the list has a GIPAW pseudopotential,
    [run_upf2plotcore] puts into the context, for each element, the output
    of the job run on the pseudopotential of that element, and the
    inspection that follows finds every entry it looks for: it does not
    raise KeyError. *)
Theorem upf2plotcore_entries_are_found {Upf} (gipaw : gmap string Upf) stdout_of elements
    (ctx : gmap string string) :
  Forall (λ e, is_Some (gipaw !! e)) elements →
  ∃ shelljobs,
    run_upf2plotcore gipaw stdout_of elements = Ok shelljobs
    ∧ (∀ e, e ∈ elements →
            to_context shelljobs ctx !! ("upf2plotcore_" ++ e) = stdout_of <$> gipaw !! e)
    ∧ inspect_upf2plotcore (to_context shelljobs ctx) elements ≠ Raise KeyError.
Proof.
  intros Hall.
  destruct (run_upf2plotcore_entries gipaw stdout_of elements Hall) as (jobs & Hrun & Hjobs).
  exists jobs. split; [done|].
  assert (Hctx : ∀ e, e ∈ elements →
            to_context jobs ctx !! ("upf2plotcore_" ++ e) = stdout_of <$> gipaw !! e).
  { intros e He. unfold to_context. specialize (Hjobs e He).
    rewrite Forall_forall in Hall. destruct (Hall e He) as [upf Hupf].
    rewrite Hupf in Hjobs |- *. cbn in *. by apply lookup_union_Some_l. }
  split; [done|].
  apply inspect_finds_entries. apply Forall_forall. intros e He.
  rewrite (Hctx e He). rewrite Forall_forall in Hall. destruct (Hall e He) as [upf ->].
  by eexists.
Qed.

Lemma upf2plotcore_entries_are_found_witness :
  let gipaw : gmap string string := {[ "Si" := "Si.gipaw.upf"; "O" := "O.gipaw.upf" ]} in
  let stdout_of := λ upf : string, "# number of core states 3 =  1 0;  2 0;  2 1;" in
  ∃ shelljobs,
    run_upf2plotcore gipaw stdout_of ["Si"; "O"; "Si"] = Ok shelljobs
    ∧ (∀ e, e ∈ ["Si"; "O"; "Si"] →
            to_context shelljobs {[ "upf2plotcore_Si" := "" ]} !! ("upf2plotcore_" ++ e)
            = stdout_of <$> gipaw !! e)
    ∧ inspect_upf2plotcore (to_context shelljobs {[ "upf2plotcore_Si" := "" ]})
        ["Si"; "O"; "Si"] ≠ Raise KeyError.
Proof.
  intros gipaw stdout_of.
  apply (upf2plotcore_entries_are_found gipaw stdout_of ["Si"; "O"; "Si"]).
  repeat constructor; by eexists.
Defined.

End CrystalStepsFacts.

(** * Core-hole inputs *)

Module CoreHoleFacts.
Import CoreHole.
Local Open Scope heap_scope.

Lemma bind_done {A B} (m : H A) (f : A → H B) h a h' :
  m h = Done a h' → bind m f h = f a h'.
Proof. intros E. unfold bind. by rewrite E. Qed.

Lemma bind_fail {A B} (m : H A) (f : A → H B) h e :
  m h = Fail e → bind m f h = Fail e.
Proof. intros E. unfold bind. by rewrite E. Qed.

Lemma bind_inv {A B} (m : H A) (f : A → H B) h b h' :
  bind m f h = Done b h' → ∃ a h1, m h = Done a h1 ∧ f a h1 = Done b h'.
Proof. unfold bind. destruct (m h) as [a h1|e]; [|done]. intros E. by exists a, h1. Qed.

Section Logic.
Variable n : nat.
Variable W : nat → Prop.
Variable prot : list (nat * dict).
Hypothesis Hprot : Forall (λ ld, (ld.1 < n)%nat ∧ ¬ W ld.1) prot.

Lemma preserves_ret {A} (a : A) (Q : A → Prop) : Q a → preserves n W prot (ret a) Q.
Proof. intros HQ h a' h' _ _ [= <- <-]. done. Qed.

Lemma preserves_fail {A} e (Q : A → Prop) : preserves n W prot (fail e) Q.
Proof. intros h a h' _ _ E. discriminate E. Qed.

Lemma preserves_weaken {A} (m : H A) (P Q : A → Prop) :
  (∀ a, P a → Q a) → preserves n W prot m P → preserves n W prot m Q.
Proof.
  intros HPQ Hm h a h' Hn Hp E. destruct (Hm h a h' Hn Hp E) as (? & ? & ?). auto.
Qed.

Lemma preserves_bind {A B} (m : H A) (f : A → H B) (P : A → Prop) (Q : B → Prop) :
  preserves n W prot m P →
  (∀ a, P a → preserves n W prot (f a) Q) →
  preserves n W prot (bind m f) Q.
Proof.
  intros Hm Hf h b h' Hn Hp E. apply bind_inv in E as (a & h1 & E1 & E2).
  destruct (Hm h a h1 Hn Hp E1) as (Hlen1 & Hfr1 & HP).
  assert (Hp1 : Forall (λ ld, h1 !! ld.1 = Some ld.2) prot).
  { rewrite Forall_forall in Hp, Hprot. apply Forall_forall. intros ld Hin.
    destruct (Hprot ld Hin) as [Hl HW]. rewrite Hfr1 by done. by apply Hp. }
  destruct (Hf a HP h1 b h' ltac:(lia) Hp1 E2) as (Hlen2 & Hfr2 & HQ).
  split; [lia|]. split; [|done]. intros l Hl HW. rewrite Hfr2, Hfr1 by done. done.
Qed.

Lemma preserves_pure {A} (m : H A) :
  (∀ h a h', m h = Done a h' → h' = h) → preserves n W prot m (λ _, True).
Proof. intros Hm h a h' _ _ E. apply Hm in E as ->. done. Qed.

Lemma preserves_expect_some {A} e (o : option A) :
  preserves n W prot (expect_some e o) (λ a, o = Some a).
Proof. destruct o; [by apply preserves_ret|apply preserves_fail]. Qed.

Lemma preserves_truthy v : preserves n W prot (truthy v) (λ _, True).
Proof. apply preserves_pure. by intros h a h' [= _ <-]. Qed.

Lemma preserves_py_add v q : preserves n W prot (py_add v q) (λ _, True).
Proof. unfold py_add. destruct (num_of v); [by apply preserves_ret|apply preserves_fail]. Qed.

Lemma preserves_py_gt0 v : preserves n W prot (py_gt0 v) (λ _, True).
Proof. unfold py_gt0. destruct (num_of v); [by apply preserves_ret|apply preserves_fail]. Qed.

Lemma preserves_py_lt0 v : preserves n W prot (py_lt0 v) (λ _, True).
Proof. unfold py_lt0. destruct (num_of v); [by apply preserves_ret|apply preserves_fail]. Qed.

Lemma preserves_the_dict e v :
  preserves n W prot (the_dict e v) (λ ld, v = PRef ld.1).
Proof.
  intros h a h' _ _ E. unfold the_dict in E.
  destruct v as [| |q|t|l]; try discriminate E.
  destruct (h !! l) as [d|] eqn:El; [|discriminate E]. by injection E as <- <-.
Qed.

Lemma preserves_get_item v k : preserves n W prot (get_item v k) (λ _, True).
Proof.
  unfold get_item. eapply preserves_bind; [apply preserves_the_dict|]. intros ld _.
  eapply preserves_weaken; [|apply preserves_expect_some]. done.
Qed.

Lemma preserves_get_default v k d : preserves n W prot (get_default v k d) (λ _, True).
Proof.
  unfold get_default. eapply preserves_bind; [apply preserves_the_dict|]. intros ld _.
  by apply preserves_ret.
Qed.

Lemma preserves_contains v k : preserves n W prot (contains v k) (λ _, True).
Proof.
  unfold contains. eapply preserves_bind; [apply preserves_the_dict|]. intros ld _.
  by apply preserves_ret.
Qed.

(** Reading an entry of a protected dictionary gives the entry. *)
Lemma preserves_get_item_prot r P k :
  (r, P) ∈ prot → preserves n W prot (get_item (PRef r) k) (λ a, kw_lookup k P = Some a).
Proof.
  intros Hin h a h' _ Hp E. rewrite Forall_forall in Hp. specialize (Hp _ Hin). cbn in Hp.
  unfold get_item, bind, the_dict in E. rewrite Hp in E. cbn in E.
  destruct (kw_lookup k P); [|done]. by injection E as <- <-.
Qed.

Lemma preserves_set_item v k x :
  writable n W v → preserves n W prot (set_item v k x) (λ _, True).
Proof.
  intros Hv h a h' Hn _ E. unfold set_item, bind, the_dict in E.
  destruct v as [| |q|t|l]; try discriminate E.
  destruct (h !! l) as [d|] eqn:El; [|discriminate E].
  injection E as _ <-. cbn. rewrite length_insert. split; [done|]. split; [|done].
  intros l' Hl' HW. apply list_lookup_insert_ne. intros ->. by apply HW, Hv.
Qed.

Lemma preserves_alloc d : preserves n W prot (alloc d) (λ v, ∃ l, v = PRef l ∧ (n <= l)%nat).
Proof.
  intros h a h' Hn _ [= <- <-]. rewrite length_app. cbn. split; [lia|]. split.
  - intros l Hl _. apply lookup_app_l. lia.
  - by exists (length h).
Qed.

Lemma preserves_copy v : preserves n W prot (copy v) (λ v, ∃ l, v = PRef l ∧ (n <= l)%nat).
Proof.
  unfold copy. eapply preserves_bind; [apply preserves_the_dict|]. intros ld _.
  apply preserves_alloc.
Qed.

Lemma preserves_for_each {A S} (body : S → A → H S) l s :
  (∀ s a, preserves n W prot (body s a) (λ _, True)) →
  preserves n W prot (for_each body l s) (λ _, True).
Proof.
  intros Hb. revert s. induction l as [|a l IH]; intros s; cbn [for_each].
  - by apply preserves_ret.
  - eapply preserves_bind; [apply Hb|]. intros s' _. apply IH.
Qed.

Lemma fresh_writable l : (n <= l)%nat → writable n W (PRef l).
Proof. intros Hl l' [= <-] ?. lia. Qed.

Lemma preserves_process_afm_system sites equiv sm tm marker si treatment :
  preserves n W prot (process_afm_system sites equiv sm tm marker si treatment)
            (λ r, writable n W r.1).
Proof.
  unfold process_afm_system.
  eapply preserves_bind; [apply preserves_copy|]. intros final (l & -> & Hl).
  eapply preserves_bind.
  { apply preserves_for_each. intros acc value. unfold afm_site_step.
    eapply preserves_bind; [apply preserves_expect_some|]. intros idx _.
    destruct (site_index value =? idx)%Z; [|by apply preserves_ret].
    eapply preserves_bind; [apply preserves_get_item|]. intros mag _. by apply preserves_ret. }
  intros tsm _.
  eapply preserves_bind; [apply preserves_expect_some|]. intros mag _.
  eapply preserves_bind; [by apply preserves_set_item, fresh_writable|]. intros _ _.
  eapply preserves_bind.
  { destruct (negb _); [|by apply (preserves_ret _ (λ _, True))].
    eapply preserves_bind; [apply preserves_py_gt0|]. intros pos _.
    destruct pos; apply preserves_py_add. }
  intros tm' _. apply preserves_ret. cbn. by apply fresh_writable.
Qed.

Lemma preserves_afm_scan values pos neg :
  preserves n W prot (afm_scan values pos neg) (λ _, True).
Proof.
  revert pos neg. induction values as [|v values IH]; intros pos neg; cbn [afm_scan].
  - by apply preserves_ret.
  - eapply preserves_bind; [apply preserves_py_gt0|]. intros p _.
    eapply preserves_bind.
    { destruct p; [by apply (preserves_ret _ (λ _, True))|].
      eapply preserves_bind; [apply preserves_py_lt0|]. intros ng _.
      by apply (preserves_ret _ (λ _, True)). }
    intros [pos' neg'] _. destruct (pos' && neg'); [by apply preserves_ret|apply IH].
Qed.

Lemma preserves_system_is_afm sm : preserves n W prot (system_is_afm sm) (λ _, True).
Proof.
  unfold system_is_afm. eapply preserves_bind; [apply preserves_truthy|]. intros t _.
  destruct t; [|by apply preserves_ret].
  eapply preserves_bind; [apply preserves_the_dict|]. intros ld _. apply preserves_afm_scan.
Qed.

Section Body.
Variables (r s : nat) (P : dict).
Hypothesis Hr : (r, P) ∈ prot.
Hypothesis Hsys : kw_lookup "SYSTEM" P = Some (PRef s).
Hypothesis Hs : W s.

Lemma system_writable a : kw_lookup "SYSTEM" P = Some a → writable n W a.
Proof. rewrite Hsys. intros [= <-] l [= <-] _. done. Qed.

Lemma preserves_apply_treatment sites treatment equiv marker si afm sm tm tc :
  writable n W sm →
  preserves n W prot
            (apply_treatment sites treatment equiv (PRef r) marker si afm sm tm tc)
            (λ res, writable n W res.1.1).
Proof.
  intros Hsm. unfold apply_treatment.
  destruct (bool_decide (treatment ∈ ["FCH"; "full"])).
  { eapply preserves_bind; [apply preserves_py_add|]. intros tc' _.
    eapply preserves_bind; [apply preserves_truthy|]. intros t _.
    destruct t; [|by apply preserves_ret]. destruct afm.
    - eapply preserves_bind; [apply preserves_process_afm_system|]. intros res Hres.
      by apply preserves_ret.
    - eapply preserves_bind; [by apply preserves_set_item|]. intros _ _.
      by apply preserves_ret. }
  destruct (bool_decide (treatment ∈ ["HCH"; "half"])).
  { eapply preserves_bind; [apply preserves_py_add|]. intros tc' _.
    eapply preserves_bind; [apply preserves_truthy|]. intros t _.
    destruct t; [|by apply preserves_ret].
    eapply preserves_bind; [by apply preserves_set_item|]. intros _ _.
    by apply preserves_ret. }
  destruct (bool_decide (treatment ∈ ["XCH"; "xch_fixed"; "xch_smear"]));
    [|by apply preserves_ret].
  destruct afm.
  { eapply preserves_bind; [apply preserves_process_afm_system|]. intros res Hres.
    by apply preserves_ret. }
  eapply preserves_bind; [by apply (preserves_get_item_prot r P)|]. intros system Hsystem.
  eapply preserves_bind; [apply preserves_get_item|]. intros nspin _.
  destruct (eq_num nspin (Qc_of_Z 2)).
  { eapply preserves_bind; [by apply preserves_set_item|]. intros _ _.
    eapply preserves_bind; [apply preserves_py_add|]. intros tm' _.
    by apply preserves_ret. }
  eapply preserves_bind; [apply preserves_alloc|]. intros sm' (l & -> & Hl).
  eapply preserves_bind; [by apply (preserves_get_item_prot r P)|]. intros system' Hsystem'.
  eapply preserves_bind; [by apply preserves_set_item, system_writable|]. intros _ _.
  eapply preserves_bind.
  { destruct (String.eqb treatment "xch_fixed"); [by apply (preserves_ret _ (λ _, True))|].
    eapply preserves_bind; [apply preserves_get_item|]. intros system'' _.
    eapply preserves_bind; [apply preserves_get_default|]. intros occ _.
    by apply (preserves_ret _ (λ _, True)). }
  intros fixed _.
  eapply preserves_bind.
  { destruct fixed; [apply preserves_py_add|by apply (preserves_ret _ (λ _, True))]. }
  intros tm' _. apply preserves_ret. cbn. by apply fresh_writable.
Qed.

Lemma preserves_write_back sm tm tc :
  preserves n W prot (write_back (PRef r) sm tm tc) (λ _, True).
Proof.
  unfold write_back.
  eapply preserves_bind; [apply preserves_py_gt0|]. intros pos _.
  eapply preserves_bind.
  { destruct pos; [|by apply (preserves_ret _ (λ _, True))].
    eapply preserves_bind; [by apply (preserves_get_item_prot r P)|]. intros system Hsystem.
    by apply preserves_set_item, system_writable. }
  intros _ _.
  eapply preserves_bind; [apply preserves_get_item|]. intros system _.
  eapply preserves_bind; [apply preserves_contains|]. intros has _.
  destruct has; [|by apply preserves_ret].
  eapply preserves_bind; [apply preserves_get_item|]. intros system1 _.
  eapply preserves_bind; [apply preserves_get_item|]. intros nspin _.
  destruct (eq_num nspin (Qc_of_Z 2)); [|by apply preserves_ret].
  eapply preserves_bind; [by apply (preserves_get_item_prot r P)|]. intros system2 Hsystem2.
  eapply preserves_bind; [by apply preserves_set_item, system_writable|]. intros _ _.
  eapply preserves_bind; [apply preserves_truthy|]. intros t _.
  destruct t; [|by apply preserves_ret].
  eapply preserves_bind; [by apply (preserves_get_item_prot r P)|]. intros system3 Hsystem3.
  by apply preserves_set_item, system_writable.
Qed.
End Body.
End Logic.

(** ** Evaluation of the dictionary operations *)

Lemma get_item_eval (h : list dict) l (d : dict) k a :
  h !! l = Some d → kw_lookup k d = Some a → get_item (PRef l) k h = Done a h.
Proof.
  intros Hl Hk. cbv [get_item bind the_dict]. rewrite Hl. cbn. unfold expect_some. by rewrite Hk.
Qed.

Lemma get_item_missing (h : list dict) l (d : dict) k :
  h !! l = Some d → kw_lookup k d = None → get_item (PRef l) k h = Fail KeyError.
Proof.
  intros Hl Hk. cbv [get_item bind the_dict]. rewrite Hl. cbn. unfold expect_some. by rewrite Hk.
Qed.

Lemma get_default_eval (h : list dict) l (d : dict) k dflt :
  h !! l = Some d → get_default (PRef l) k dflt h = Done (default dflt (kw_lookup k d)) h.
Proof. intros Hl. cbv [get_default bind the_dict]. by rewrite Hl. Qed.

Lemma contains_eval (h : list dict) l (d : dict) k :
  h !! l = Some d → contains (PRef l) k h = Done (bool_decide (is_Some (kw_lookup k d))) h.
Proof. intros Hl. cbv [contains bind the_dict]. by rewrite Hl. Qed.

Lemma set_item_eval (h : list dict) l (d : dict) k x :
  h !! l = Some d → set_item (PRef l) k x h = Done tt (<[l := kw_set k x d]> h).
Proof. intros Hl. cbv [set_item bind the_dict]. by rewrite Hl. Qed.

Lemma copy_eval (h : list dict) l (d : dict) :
  h !! l = Some d → copy (PRef l) h = Done (PRef (length h)) (h ++ [d])%list.
Proof. intros Hl. cbv [copy bind the_dict]. by rewrite Hl. Qed.

(** The first statements of [get_core_hole_inputs]: the copy and the three
    reads. *)
Lemma get_core_hole_inputs_start sites treatment equiv p (P : dict) s (S : dict) marker si
    (h : list dict) :
  h !! p = Some P →
  kw_lookup "SYSTEM" P = Some (PRef s) →
  h !! s = Some S →
  let updated := PRef (length h) in
  let sm := default PNone (kw_lookup "starting_magnetization" S) in
  let tm := default PNone (kw_lookup "tot_magnetization" S) in
  let tc := default (PNum (Qc_of_Z 0)) (kw_lookup "tot_charge" S) in
  get_core_hole_inputs sites treatment equiv (PRef p) marker si h
  = bind (system_is_afm sm)
      (λ afm, bind (apply_treatment sites treatment equiv updated marker si afm sm tm tc)
                (λ r, bind (write_back updated r.1.1 r.1.2 r.2) (λ _, ret updated)))
      (h ++ [P])%list.
Proof.
  intros Hp Hsys Hs updated sm tm tc. unfold get_core_hole_inputs.
  assert (Hp1 : (h ++ [P])%list !! p = Some P).
  { rewrite lookup_app_l; [done|]. by apply lookup_lt_Some in Hp. }
  assert (Hs1 : (h ++ [P])%list !! s = Some S).
  { rewrite lookup_app_l; [done|]. by apply lookup_lt_Some in Hs. }
  rewrite (bind_done _ _ _ _ _ (copy_eval h p P Hp)).
  rewrite (bind_done _ _ _ _ _ (get_item_eval _ p P "SYSTEM" _ Hp1 Hsys)).
  rewrite (bind_done _ _ _ _ _ (get_default_eval _ s S _ _ Hs1)).
  rewrite (bind_done _ _ _ _ _ (get_item_eval _ p P "SYSTEM" _ Hp1 Hsys)).
  rewrite (bind_done _ _ _ _ _ (get_default_eval _ s S _ _ Hs1)).
  rewrite (bind_done _ _ _ _ _ (get_item_eval _ p P "SYSTEM" _ Hp1 Hsys)).
  rewrite (bind_done _ _ _ _ _ (get_default_eval _ s S _ _ Hs1)).
  reflexivity.
Qed.

(** [get_core_hole_inputs] returns a new dictionary with the entries of
    [parameters], whose own entries it leaves as they are: the ['SYSTEM']
    entry of the result is the very dictionary object of the input, so
    what the function writes into it is written into the caller's
    parameters. *)
Theorem result_shares_the_system_dictionary sites treatment equiv p (P : dict) s (S : dict)
    marker si (h : list dict) r h' :
  h !! p = Some P →
  kw_lookup "SYSTEM" P = Some (PRef s) →
  h !! s = Some S →
  s ≠ p →
  (∀ m, kw_lookup "starting_magnetization" S = Some (PRef m) → m ≠ p ∧ (m < length h)%nat) →
  get_core_hole_inputs sites treatment equiv (PRef p) marker si h = Done r h' →
  r = PRef (length h)
  ∧ h' !! length h = Some P
  ∧ h' !! p = Some P
  ∧ get_item r "SYSTEM" h' = Done (PRef s) h'
  ∧ get_item (PRef p) "SYSTEM" h' = Done (PRef s) h'.
Proof.
  intros Hp Hsys Hs Hsp Hm E.
  rewrite (get_core_hole_inputs_start _ _ _ p P s S) in E by done.
  set (sm := default PNone (kw_lookup "starting_magnetization" S)) in E.
  set (W := λ l, l = s ∨ sm = PRef l).
  set (n := Datatypes.S (length h)).
  set (prot := [(p, P); (length h, P)]).
  pose proof (lookup_lt_Some _ _ _ Hp) as Hplt. pose proof (lookup_lt_Some _ _ _ Hs) as Hslt.
  assert (Hsm : ∀ l, sm = PRef l → l ≠ p ∧ (l < length h)%nat).
  { intros l El. apply Hm. unfold sm in El.
    destruct (kw_lookup "starting_magnetization" S) as [v|]; [cbn in El; by subst|done]. }
  assert (Hprot : Forall (λ ld, (ld.1 < n)%nat ∧ ¬ W ld.1) prot).
  { repeat constructor; cbn; unfold n, W; try lia.
    - intros [E'|El]; [done|]. by destruct (Hsm _ El).
    - intros [E'|El]; [lia|]. destruct (Hsm _ El). lia. }
  assert (Hpres : preserves n W prot
            (bind (system_is_afm sm)
               (λ afm, bind (apply_treatment sites treatment equiv (PRef (length h)) marker si
                                             afm sm
                                             (default PNone (kw_lookup "tot_magnetization" S))
                                             (default (PNum (Qc_of_Z 0))
                                                      (kw_lookup "tot_charge" S)))
                         (λ r, bind (write_back (PRef (length h)) r.1.1 r.1.2 r.2)
                                    (λ _, ret (PRef (length h))))))
            (λ a, a = PRef (length h))).
  { eapply preserves_bind; [done|by apply preserves_system_is_afm|]. intros afm _.
    eapply preserves_bind; [done| |].
    { apply (preserves_apply_treatment n W prot Hprot (length h) s P).
      - apply list_elem_of_further, list_elem_of_here.
      - done.
      - by left.
      - intros l El _. by right. }
    intros res Hres.
    eapply preserves_bind; [done| |].
    { apply (preserves_write_back n W prot Hprot (length h) s P).
      - apply list_elem_of_further, list_elem_of_here.
      - done.
      - by left. }
    intros _ _. by apply preserves_ret. }
  destruct (Hpres (h ++ [P])%list r h') as (Hlen & Hframe & ->).
  { rewrite length_app. cbn. unfold n. lia. }
  { repeat constructor; cbn.
    - rewrite lookup_app_l; done.
    - by rewrite lookup_app_r, Nat.sub_diag. }
  { exact E. }
  assert (Hr' : h' !! length h = Some P).
  { rewrite Hframe.
    - by rewrite lookup_app_r, Nat.sub_diag.
    - unfold n. lia.
    - unfold W. intros [E'|El]; [lia|]. destruct (Hsm _ El). lia. }
  assert (Hp' : h' !! p = Some P).
  { rewrite Hframe.
    - rewrite lookup_app_l; done.
    - unfold n. lia.
    - unfold W. intros [E'|El]; [done|]. by destruct (Hsm _ El). }
  split; [done|]. split; [done|]. split; [done|].
  split; by eapply get_item_eval.
Qed.

Lemma result_shares_the_system_dictionary_witness :
  let P := [("CONTROL", PRef 2); ("SYSTEM", PRef 1)] in
  let S := [("ecutwfc", PNum (Qc_of_Z 30)); ("nspin", PNum (Qc_of_Z 1))] in
  let h := [P; S; [("calculation", PStr "scf")]] in
  ∃ r h',
    get_core_hole_inputs ["Si"; "X"] "xch_smear" [] (PRef 0) "X" None h = Done r h'
    ∧ r = PRef 3
    ∧ h' !! 3%nat = Some P
    ∧ h' !! 0%nat = Some P
    ∧ get_item r "SYSTEM" h' = Done (PRef 1) h'
    ∧ get_item (PRef 0) "SYSTEM" h' = Done (PRef 1) h'.
Proof.
  intros P S h.
  destruct (get_core_hole_inputs ["Si"; "X"] "xch_smear" [] (PRef 0) "X" None h)
    as [r h'|e] eqn:E.
  2: { vm_compute in E. discriminate E. }
  exists r, h'. split; [done|].
  apply (result_shares_the_system_dictionary ["Si"; "X"] "xch_smear" [] 0 P 1 S "X" None h r h').
  - reflexivity.
  - reflexivity.
  - reflexivity.
  - discriminate.
  - intros m Hm. discriminate Hm.
  - exact E.
Defined.

(** ** Single paths through [get_core_hole_inputs] *)

Lemma kw_lookup_kw_set_ne {A} k k' (a : A) kw :
  k ≠ k' → kw_lookup k (kw_set k' a kw) = kw_lookup k kw.
Proof.
  intros Hne. induction kw as [|[k0 a0] kw IH]; cbn.
  - by destruct (String.eqb_spec k k').
  - destruct (String.eqb_spec k' k0) as [->|Hk0]; cbn.
    + by destruct (String.eqb_spec k k0).
    + destruct (String.eqb_spec k k0); [done|]. apply IH.
Qed.

Lemma kw_lookup_kw_set_eq {A} k (a : A) kw : kw_lookup k (kw_set k a kw) = Some a.
Proof.
  induction kw as [|[k0 a0] kw IH]; cbn.
  - by rewrite String.eqb_refl.
  - destruct (String.eqb_spec k k0) as [->|Hk0]; cbn.
    + by rewrite String.eqb_refl.
    + destruct (String.eqb_spec k k0); [done|]. apply IH.
Qed.

Lemma system_is_afm_none (h : list dict) : system_is_afm PNone h = Done false h.
Proof. reflexivity. Qed.

(** With a full core hole on parameters that hold neither a starting
    magnetisation nor nspin, the function returns a new dictionary with the
    entries of [parameters] and changes the store at one place only: the
    SYSTEM dictionary of the caller gets tot_charge raised by one. *)
Theorem full_core_hole_adds_a_charge sites treatment equiv p (P : dict) s (S : dict)
    marker si (h : list dict) tc :
  h !! p = Some P →
  kw_lookup "SYSTEM" P = Some (PRef s) →
  h !! s = Some S →
  kw_lookup "starting_magnetization" S = None →
  kw_lookup "nspin" S = None →
  num_of (default (PNum (Qc_of_Z 0)) (kw_lookup "tot_charge" S)) = Some tc →
  (Qc_of_Z 0 < tc + Qc_of_Z 1)%Qc →
  treatment ∈ ["FCH"; "full"] →
  get_core_hole_inputs sites treatment equiv (PRef p) marker si h
  = Done (PRef (length h))
         (<[s := kw_set "tot_charge" (PNum (tc + Qc_of_Z 1)) S]> (h ++ [P])%list).
Proof.
  intros Hp Hsys Hs Hsm Hnspin Htc Hpos Ht.
  rewrite (get_core_hole_inputs_start _ _ _ p P s S) by done.
  rewrite Hsm. cbn [default]. rewrite (bind_done _ _ _ _ _ (system_is_afm_none _)).
  pose proof (lookup_lt_Some _ _ _ Hs) as Hslt.
  assert (Hr1 : (h ++ [P])%list !! length h = Some P)
    by (by rewrite lookup_app_r, Nat.sub_diag).
  assert (Hs1 : (h ++ [P])%list !! s = Some S) by (by rewrite lookup_app_l).
  set (h1 := (h ++ [P])%list) in *.
  set (S' := kw_set "tot_charge" (PNum (tc + Qc_of_Z 1)) S).
  assert (Happly : apply_treatment sites treatment equiv (PRef (length h)) marker si false PNone
                     (default PNone (kw_lookup "tot_magnetization" S))
                     (default (PNum (Qc_of_Z 0)) (kw_lookup "tot_charge" S)) h1
                   = Done (PNone, default PNone (kw_lookup "tot_magnetization" S),
                           PNum (tc + Qc_of_Z 1)) h1).
  { unfold apply_treatment. rewrite bool_decide_eq_true_2 by done.
    unfold py_add. rewrite Htc. reflexivity. }
  rewrite (bind_done _ _ _ _ _ Happly). cbn [fst snd].
  assert (Hwrite : write_back (PRef (length h)) PNone
                     (default PNone (kw_lookup "tot_magnetization" S))
                     (PNum (tc + Qc_of_Z 1)) h1
                   = Done tt (<[s := S']> h1)).
  { unfold write_back.
    assert (Hgt : py_gt0 (PNum (tc + Qc_of_Z 1)) h1 = Done true h1).
    { unfold py_gt0. cbn [num_of]. by rewrite bool_decide_eq_true_2. }
    rewrite (bind_done _ _ _ _ _ Hgt).
    assert (Hset : bind (get_item (PRef (length h)) "SYSTEM")
                     (λ system, set_item system "tot_charge" (PNum (tc + Qc_of_Z 1))) h1
                   = Done tt (<[s := S']> h1)).
    { rewrite (bind_done _ _ _ _ _ (get_item_eval _ _ P "SYSTEM" _ Hr1 Hsys)).
      by apply set_item_eval. }
    rewrite (bind_done _ _ _ _ _ Hset).
    assert (Hr2 : <[s := S']> h1 !! length h = Some P).
    { rewrite list_lookup_insert_ne by lia. done. }
    assert (Hs2 : <[s := S']> h1 !! s = Some S').
    { apply list_lookup_insert_eq. unfold h1. rewrite length_app. lia. }
    rewrite (bind_done _ _ _ _ _ (get_item_eval _ _ P "SYSTEM" _ Hr2 Hsys)).
    rewrite (bind_done _ _ _ _ _ (contains_eval _ _ S' "nspin" Hs2)).
    unfold S'. rewrite kw_lookup_kw_set_ne by done. rewrite Hnspin.
    rewrite bool_decide_eq_false_2; [reflexivity|]. by intros [? ?]. }
  rewrite (bind_done _ _ _ _ _ Hwrite). reflexivity.
Qed.

Lemma full_core_hole_adds_a_charge_witness :
  let P := [("CONTROL", PRef 2); ("SYSTEM", PRef 1)] in
  let S := [("ecutwfc", PNum (Qc_of_Z 30)); ("tot_charge", PNum (Qc_of_Z 1))] in
  let h := [P; S; [("calculation", PStr "scf")]] in
  get_core_hole_inputs ["Si"; "X"] "full" [] (PRef 0) "X" None h
  = Done (PRef 3)
         (<[1%nat := kw_set "tot_charge" (PNum (Qc_of_Z 1 + Qc_of_Z 1)) S]> (h ++ [P])%list).
Proof.
  intros P S h.
  apply (full_core_hole_adds_a_charge ["Si"; "X"] "full" [] 0 P 1 S "X" None h (Qc_of_Z 1)).
  - reflexivity.
  - reflexivity.
  - reflexivity.
  - reflexivity.
  - reflexivity.
  - reflexivity.
  - reflexivity.
  - set_solver.
Defined.

(** With an exchange core hole (XCH, xch_fixed or xch_smear) on parameters
    without starting magnetisation and without nspin, the function raises
    KeyError: the branch that would set nspin to 2 is reached only when
    nspin is there already. *)
Theorem exchange_core_hole_needs_nspin sites treatment equiv p (P : dict) s (S : dict)
    marker si (h : list dict) :
  h !! p = Some P →
  kw_lookup "SYSTEM" P = Some (PRef s) →
  h !! s = Some S →
  kw_lookup "starting_magnetization" S = None →
  kw_lookup "nspin" S = None →
  treatment ∈ ["XCH"; "xch_fixed"; "xch_smear"] →
  get_core_hole_inputs sites treatment equiv (PRef p) marker si h = Fail KeyError.
Proof.
  intros Hp Hsys Hs Hsm Hnspin Ht.
  rewrite (get_core_hole_inputs_start _ _ _ p P s S) by done.
  rewrite Hsm. cbn [default]. rewrite (bind_done _ _ _ _ _ (system_is_afm_none _)).
  pose proof (lookup_lt_Some _ _ _ Hs) as Hslt.
  assert (Hr1 : (h ++ [P])%list !! length h = Some P)
    by (by rewrite lookup_app_r, Nat.sub_diag).
  assert (Hs1 : (h ++ [P])%list !! s = Some S) by (by rewrite lookup_app_l).
  apply bind_fail. unfold apply_treatment.
  assert (Hnot1 : bool_decide (treatment ∈ ["FCH"; "full"]) = false).
  { apply bool_decide_eq_false_2. intros H1.
    apply list_elem_of_In in Ht, H1. cbn in Ht, H1.
    destruct Ht as [<-|[<-|[<-|[]]]]; destruct H1 as [H1|[H1|[]]]; discriminate H1. }
  assert (Hnot2 : bool_decide (treatment ∈ ["HCH"; "half"]) = false).
  { apply bool_decide_eq_false_2. intros H1.
    apply list_elem_of_In in Ht, H1. cbn in Ht, H1.
    destruct Ht as [<-|[<-|[<-|[]]]]; destruct H1 as [H1|[H1|[]]]; discriminate H1. }
  rewrite Hnot1, Hnot2, bool_decide_eq_true_2 by done.
  rewrite (bind_done _ _ _ _ _ (get_item_eval _ _ P "SYSTEM" _ Hr1 Hsys)).
  apply bind_fail. by apply (get_item_missing _ _ S).
Qed.

Lemma exchange_core_hole_needs_nspin_witness :
  get_core_hole_inputs ["Si"; "X"] "XCH" [] (PRef 0) "X" None
    [[("SYSTEM", PRef 1)]; [("ecutwfc", PNum (Qc_of_Z 30))]]
  = Fail KeyError.
Proof.
  apply (exchange_core_hole_needs_nspin ["Si"; "X"] "XCH" [] 0 [("SYSTEM", PRef 1)] 1
           [("ecutwfc", PNum (Qc_of_Z 30))] "X" None).
  - reflexivity.
  - reflexivity.
  - reflexivity.
  - reflexivity.
  - reflexivity.
  - set_solver.
Defined.

(** ** The magnetic structure *)

Lemma afm_scan_eval (values : list pyval) (p n : bool) (h : list dict) :
  Forall (λ v, is_Some (num_of v)) values →
  afm_scan values p n h
  = Done ((p || existsb positive_moment values) && (n || existsb negative_moment values)) h.
Proof.
  revert p n. induction values as [|v values IH]; intros p n Hnum.
  - cbn. by rewrite !orb_false_r.
  - apply Forall_cons in Hnum as [[x Hx] Hnum].
    cbn [afm_scan existsb]. unfold positive_moment at 1, negative_moment at 1.
    cbv [bind py_gt0 py_lt0 ret]. rewrite Hx.
    destruct (bool_decide (Qc_of_Z 0 < x)%Qc) eqn:Hpos.
    + destruct n; cbn [andb].
      * by rewrite !orb_true_r.
      * rewrite (IH true false Hnum). cbn [orb andb].
        apply bool_decide_eq_true_1 in Hpos.
        rewrite (bool_decide_eq_false_2 (x < Qc_of_Z 0)%Qc); [by rewrite orb_true_r|].
        intros Hneg. exact (Qclt_not_le _ _ Hpos (Qclt_le_weak _ _ Hneg)).
    + destruct (bool_decide (x < Qc_of_Z 0)%Qc) eqn:Hneg.
      * destruct p; cbn [andb orb].
        -- by rewrite orb_true_r.
        -- rewrite (IH false true Hnum). cbn [orb]. by rewrite orb_true_r.
      * destruct p, n; cbn [andb orb]; try done; by rewrite (IH _ _ Hnum).
Qed.

(** A starting magnetisation whose values are all numbers makes the
    system antiferromagnetic exactly when one value is above zero and one
    is below; the store is not touched. *)
Theorem afm_means_both_signs m (M : dict) (h : list dict) :
  h !! m = Some M →
  Forall (λ v, is_Some (num_of v)) M.*2 →
  system_is_afm (PRef m) h
  = Done (existsb positive_moment M.*2 && existsb negative_moment M.*2) h.
Proof.
  intros Hm Hnum. unfold system_is_afm.
  assert (Ht : truthy (PRef m) h = Done (match M with [] => false | _ => true end) h).
  { unfold truthy. f_equal. change (list (string * pyval)) with dict. by rewrite Hm. }
  rewrite (bind_done _ _ _ _ _ Ht).
  destruct M as [|kv M]; [done|].
  cbv [bind the_dict]. rewrite Hm. cbn [snd]. by rewrite afm_scan_eval.
Qed.

Lemma afm_means_both_signs_witness :
  let M := [("Fe1", PNum (Q2Qc (1 # 2))); ("O", PNum (Qc_of_Z 0));
            ("Fe2", PNum (Q2Qc (-1 # 2)))] in
  system_is_afm (PRef 0) [M] = Done true [M].
Proof.
  intros M.
  rewrite (afm_means_both_signs 0 M [M]).
  - reflexivity.
  - reflexivity.
  - repeat constructor; by eexists.
Defined.

Lemma afm_loop m (M : dict) (h : list dict) i (vs : list site_data) acc :
  h !! m = Some M →
  Forall (λ v, site_index v = i → is_Some (kw_lookup (kind_name v) M)) vs →
  for_each (afm_site_step (PRef m) (Some i)) vs acc h
  = Done (match last (filter (λ v, site_index v = i) vs) with
          | Some v => kw_lookup (kind_name v) M
          | None => acc
          end) h.
Proof.
  intros Hm. revert acc. induction vs as [|v vs IH]; intros acc Hall; [done|].
  apply Forall_cons in Hall as [Hv Hall].
  cbn [for_each]. unfold afm_site_step at 1. cbv [bind expect_some ret].
  destruct (Z.eqb_spec (site_index v) i) as [Hi|Hi].
  - destruct (Hv Hi) as [mag Hmag].
    rewrite (get_item_eval _ _ M _ _ Hm Hmag). rewrite (IH _ Hall).
    rewrite filter_cons_True by done. rewrite last_cons.
    destruct (last (filter _ vs)); [done|]. by rewrite Hmag.
  - rewrite (IH _ Hall). by rewrite filter_cons_False.
Qed.

Lemma afm_loop_no_match (sm : pyval) (h : list dict) idx (vs : list site_data) :
  (∀ i, idx = Some i → Forall (λ v, site_index v ≠ i) vs) →
  for_each (afm_site_step sm idx) vs None h = Done None h
  ∨ for_each (afm_site_step sm idx) vs None h = Fail UnboundLocalError.
Proof.
  intros Hno. destruct vs as [|v vs]; [by left|].
  destruct idx as [i|]; [|by right].
  left. specialize (Hno i eq_refl).
  induction Hno as [|w ws Hw Hws IH]; [done|].
  cbn [for_each]. unfold afm_site_step at 1. cbv [bind expect_some ret].
  by destruct (Z.eqb_spec (site_index w) i).
Qed.

Lemma insert_last {A} (l : list A) (x y : A) :
  <[length l := y]> (l ++ [x])%list = (l ++ [y])%list.
Proof. induction l as [|a l IH]; [done|]. cbn. f_equal. exact IH. Qed.

(** For a treatment other than full and FCH, [_process_afm_system] returns
    a new dictionary, the starting magnetisation with the marker kind set
    to the moment of the kind at the target site, and the total
    magnetisation raised by one when that moment is above zero and lowered
    by one otherwise, also for a moment of zero.  The target site is the
    first site of the marker kind when no site index or the index 0 is
    passed; the last entry of the symmetry data for that site decides.
    The dictionary passed in stays as it was. *)
Theorem process_afm_system_spec sites equiv m (M : dict) tm marker si treatment
    (h : list dict) i v mag x t :
  h !! m = Some M →
  target_site sites marker si = Some i →
  last (filter (λ v, site_index v = i) equiv.*2) = Some v →
  Forall (λ v, site_index v = i → is_Some (kw_lookup (kind_name v) M)) equiv.*2 →
  kw_lookup (kind_name v) M = Some mag →
  num_of mag = Some x →
  num_of tm = Some t →
  treatment ∉ ["full"; "FCH"] →
  process_afm_system sites equiv (PRef m) tm marker si treatment h
  = Done (PRef (length h),
          PNum (t + (if bool_decide (Qc_of_Z 0 < x)%Qc then Qc_of_Z 1 else Qc_of_Z (-1))))
         (h ++ [kw_set marker mag M])%list.
Proof.
  intros Hm Hidx Hlast Hall Hmag Hx Ht Htr.
  unfold process_afm_system.
  rewrite (bind_done _ _ _ _ _ (copy_eval _ _ M Hm)).
  fold (target_site sites marker si). rewrite Hidx.
  assert (Hm1 : (h ++ [M])%list !! m = Some M).
  { rewrite lookup_app_l; [done|]. by apply lookup_lt_Some in Hm. }
  rewrite (bind_done _ _ _ _ _ (afm_loop m M _ i _ None Hm1 Hall)).
  rewrite Hlast, Hmag. cbn [expect_some].
  assert (Hset : set_item (PRef (length h)) marker mag (h ++ [M])%list
                 = Done tt (h ++ [kw_set marker mag M])%list).
  { rewrite (set_item_eval _ _ M); [by rewrite insert_last|].
    by rewrite lookup_app_r, Nat.sub_diag. }
  rewrite (bind_done _ _ _ mag (h ++ [M])%list eq_refl).
  rewrite (bind_done _ _ _ _ _ Hset).
  rewrite bool_decide_eq_false_2 by done. cbn [negb].
  cbv [bind py_gt0 py_add ret]. rewrite Hx.
  destruct (bool_decide (Qc_of_Z 0 < x)%Qc); by rewrite Ht.
Qed.

Lemma process_afm_system_spec_witness :
  let M := [("Fe1", PNum (Qc_of_Z 1)); ("Fe2", PNum (Qc_of_Z (-1))); ("O", PNum (Qc_of_Z 0))] in
  let equiv := [("site_0", mkSiteData 0 "Fe1"); ("site_1", mkSiteData 1 "Fe2");
                ("site_2", mkSiteData 2 "O")] in
  process_afm_system ["Fe1"; "X"; "O"] equiv (PRef 0) (PNum (Qc_of_Z 0)) "X" (Some 0%Z)
    "xch_smear" [M]
  = Done (PRef 1,
          PNum (Qc_of_Z 0 + (if bool_decide (Qc_of_Z 0 < Qc_of_Z (-1))%Qc
                             then Qc_of_Z 1 else Qc_of_Z (-1))))
         ([M] ++ [kw_set "X" (PNum (Qc_of_Z (-1))) M])%list.
Proof.
  intros M equiv.
  apply (process_afm_system_spec ["Fe1"; "X"; "O"] equiv 0 M (PNum (Qc_of_Z 0)) "X" (Some 0%Z)
           "xch_smear" [M] 1 (mkSiteData 1 "Fe2") (PNum (Qc_of_Z (-1))) (Qc_of_Z (-1))
           (Qc_of_Z 0)).
  - reflexivity.
  - reflexivity.
  - reflexivity.
  - repeat constructor; intros _; by eexists.
  - reflexivity.
  - reflexivity.
  - reflexivity.
  - intros Hin. apply list_elem_of_In in Hin. cbn in Hin.
    destruct Hin as [Hin|[Hin|[]]]; discriminate Hin.
Defined.

(** When no entry of the symmetry data belongs to the target site, or the
    marker kind is on no site of the structure, [_process_afm_system]
    raises UnboundLocalError. *)
Theorem process_afm_system_without_site sites equiv m (M : dict) tm marker si treatment
    (h : list dict) :
  h !! m = Some M →
  (∀ i, target_site sites marker si = Some i → Forall (λ v, site_index v ≠ i) equiv.*2) →
  process_afm_system sites equiv (PRef m) tm marker si treatment h = Fail UnboundLocalError.
Proof.
  intros Hm Hno. unfold process_afm_system.
  rewrite (bind_done _ _ _ _ _ (copy_eval _ _ M Hm)).
  fold (target_site sites marker si).
  destruct (afm_loop_no_match (PRef m) (h ++ [M])%list _ _ Hno) as [E|E].
  - by rewrite (bind_done _ _ _ _ _ E).
  - by apply bind_fail.
Qed.

Lemma process_afm_system_without_site_witness :
  process_afm_system ["Fe"; "O"] [("site_0", mkSiteData 0 "Fe")] (PRef 0) (PNum (Qc_of_Z 0))
    "X" None "XCH" [[("Fe", PNum (Qc_of_Z 1))]]
  = Fail UnboundLocalError.
Proof.
  apply (process_afm_system_without_site ["Fe"; "O"] [("site_0", mkSiteData 0 "Fe")] 0
           [("Fe", PNum (Qc_of_Z 1))]).
  - reflexivity.
  - intros i Hi. discriminate Hi.
Defined.

(** ** Changes made to the dictionaries of the caller *)

Lemma afm_scan_pure (values : list pyval) (p n b : bool) (h h' : list dict) :
  afm_scan values p n h = Done b h' → h' = h.
Proof.
  revert p n. induction values as [|v values IH]; intros p n; cbn [afm_scan].
  - by intros [= _ <-].
  - cbv [bind py_gt0 py_lt0 ret]. destruct (num_of v) as [x|]; [|done].
    destruct (bool_decide (Qc_of_Z 0 < x)%Qc).
    + destruct n; cbn [andb]; [by intros [= _ <-]|apply IH].
    + destruct (p && (if bool_decide (x < Qc_of_Z 0)%Qc then true else n));
        [by intros [= _ <-]|apply IH].
Qed.

Lemma system_is_afm_pure (v : pyval) (b : bool) (h h' : list dict) :
  system_is_afm v h = Done b h' → h' = h.
Proof.
  unfold system_is_afm. intros E. apply bind_inv in E as (t & h1 & Et & E).
  unfold truthy in Et. injection Et as <- <-.
  match type of E with (if ?c then _ else _) _ = _ => destruct c end.
  - apply bind_inv in E as (ld & h2 & Eld & E).
    unfold the_dict in Eld. destruct v as [| | | |l]; try done.
    destruct (h !! l); [|done]. injection Eld as <- <-.
    by apply afm_scan_pure in E.
  - by injection E as _ <-.
Qed.

(** With a half core hole (HCH or half) on parameters whose SYSTEM holds a
    starting magnetisation with at least one entry, a call that returns
    has set the moment of the marker kind to 1 in the starting
    magnetisation dictionary of the caller itself. *)
Theorem half_core_hole_marks_the_callers_magnetisation sites treatment equiv p (P : dict)
    s (S : dict) m (M : dict) marker si (h : list dict) r h' :
  h !! p = Some P →
  kw_lookup "SYSTEM" P = Some (PRef s) →
  h !! s = Some S →
  kw_lookup "starting_magnetization" S = Some (PRef m) →
  h !! m = Some M →
  M ≠ [] →
  m ≠ s →
  treatment ∈ ["HCH"; "half"] →
  get_core_hole_inputs sites treatment equiv (PRef p) marker si h = Done r h' →
  h' !! m = Some (kw_set marker (PNum (Qc_of_Z 1)) M).
Proof.
  intros Hp Hsys Hs Hsm Hm Hne Hms Ht E.
  rewrite (get_core_hole_inputs_start _ _ _ p P s S) in E by done.
  rewrite Hsm in E. cbn [default] in E.
  pose proof (lookup_lt_Some _ _ _ Hm) as Hmlt.
  pose proof (lookup_lt_Some _ _ _ Hs) as Hslt.
  apply bind_inv in E as (afm & h1 & Eafm & E).
  apply system_is_afm_pure in Eafm as ->.
  apply bind_inv in E as (res & h2 & Eres & E).
  apply bind_inv in E as ([] & h3 & Ewb & E).
  injection E as _ <-.
  assert (Hm1 : (h ++ [P])%list !! m = Some M) by (by rewrite lookup_app_l).
  assert (Hnot1 : bool_decide (treatment ∈ ["FCH"; "full"]) = false).
  { apply bool_decide_eq_false_2. intros H1.
    apply list_elem_of_In in Ht, H1. cbn in Ht, H1.
    destruct Ht as [<-|[<-|[]]]; destruct H1 as [H1|[H1|[]]]; discriminate H1. }
  unfold apply_treatment in Eres. rewrite Hnot1, bool_decide_eq_true_2 in Eres by done.
  apply bind_inv in Eres as (tc' & h4 & Etc & Eres).
  assert (h4 = (h ++ [P])%list) as ->.
  { unfold py_add in Etc. destruct (num_of _); [by injection Etc as _ <-|done]. }
  assert (Htruthy : truthy (PRef m) (h ++ [P])%list = Done true (h ++ [P])%list).
  { unfold truthy. f_equal. change (list (string * pyval)) with dict. rewrite Hm1.
    by destruct M. }
  rewrite (bind_done _ _ _ _ _ Htruthy) in Eres.
  rewrite (bind_done _ _ _ _ _ (set_item_eval _ _ M _ _ Hm1)) in Eres.
  injection Eres as <- <-. cbn [fst snd] in Ewb.
  set (h2 := <[m := kw_set marker (PNum (Qc_of_Z 1)) M]> (h ++ [P])%list) in *.
  assert (Hlen2 : length h2 = Datatypes.S (length h)).
  { unfold h2. rewrite length_insert, length_app. cbn. lia. }
  destruct (preserves_write_back (Datatypes.S (length h)) (λ l, l = s) [(length h, P)])
    with (r := length h) (s := s) (P := P) (sm := PRef m)
         (tm := default PNone (kw_lookup "tot_magnetization" S)) (tc := tc')
         (h := h2) (a := tt) (h' := h3) as (_ & Hframe & _).
  - repeat constructor; cbn; lia.
  - apply list_elem_of_here.
  - done.
  - done.
  - lia.
  - repeat constructor. cbn. unfold h2.
    rewrite list_lookup_insert_ne by lia. by rewrite lookup_app_r, Nat.sub_diag.
  - exact Ewb.
  - rewrite Hframe by (done || lia). unfold h2.
    apply list_lookup_insert_eq. rewrite length_app. lia.
Qed.

Lemma half_core_hole_marks_the_callers_magnetisation_witness :
  let P := [("CONTROL", PRef 3); ("SYSTEM", PRef 1)] in
  let S := [("nspin", PNum (Qc_of_Z 2)); ("starting_magnetization", PRef 2)] in
  let M := [("Fe", PNum (Q2Qc (1 # 2))); ("O", PNum (Qc_of_Z 0))] in
  let h := [P; S; M; [("calculation", PStr "scf")]] in
  ∃ r h',
    get_core_hole_inputs ["Fe"; "X"; "O"] "half" [] (PRef 0) "X" None h = Done r h'
    ∧ h' !! 2%nat = Some (kw_set "X" (PNum (Qc_of_Z 1)) M).
Proof.
  intros P S M h.
  destruct (get_core_hole_inputs ["Fe"; "X"; "O"] "half" [] (PRef 0) "X" None h)
    as [r h'|e] eqn:E.
  2: { vm_compute in E. discriminate E. }
  exists r, h'. split; [done|].
  apply (half_core_hole_marks_the_callers_magnetisation ["Fe"; "X"; "O"] "half" [] 0 P 1 S 2 M
           "X" None h r h').
  - reflexivity.
  - reflexivity.
  - reflexivity.
  - reflexivity.
  - reflexivity.
  - discriminate.
  - discriminate.
  - set_solver.
  - exact E.
Defined.

End CoreHoleFacts.
